(** * Anomaly scanner for Russian literary texts: model and properties

    Shallow embedding of [scripts/find_anomalies.py] (line classifier and
    file scanner) and of [scripts/create_summary.py] (summary report).

    A Python [str] is a sequence of Unicode code points: it is modelled as
    [list char] with [char := N].  The built-in character predicates of
    Python ([str.isalpha], [\w], [re.IGNORECASE], ...) read the Unicode
    character database; the model fixes them on ASCII and on the Cyrillic
    range U+0400..U+045F and leaves them arbitrary (a parameter [ext])
    everywhere else, so that every theorem below holds for whatever the
    database says about the remaining code points. *)

From Stdlib Require Import String Ascii.
From Stdlib Require Import NArith ZArith List Bool Lia Sorted.
Import ListNotations.

Open Scope N_scope.

(* ================================================================== *)
(** * Text: code points and UTF-8 literals *)
(* ================================================================== *)

Module Text.

Definition char := N.
Definition str := list char.

(** Decoder for the UTF-8 bytes of a source literal. [need] is the number of
    continuation bytes still expected, [acc] the bits gathered so far. *)
Fixpoint utf8_go (bs : list N) (need : nat) (acc : N) : str :=
  match bs with
  | [] => []
  | b :: bs' =>
      match need with
      | O =>
          if b <? 0x80 then b :: utf8_go bs' 0 0
          else if b <? 0xE0 then utf8_go bs' 1 (b - 0xC0)
          else if b <? 0xF0 then utf8_go bs' 2 (b - 0xE0)
          else utf8_go bs' 3 (b - 0xF0)
      | S O => (acc * 64 + (b - 0x80)) :: utf8_go bs' 0 0
      | S n => utf8_go bs' n (acc * 64 + (b - 0x80))
      end
  end.

Fixpoint bytes_of (s : string) : list N :=
  match s with
  | EmptyString => []
  | String a s' => N_of_ascii a :: bytes_of s'
  end.

(** [u8 "..."] is the Python string written by that literal. *)
Definition u8 (s : string) : str := utf8_go (bytes_of s) 0 0.

(** [x in s] for a character [x] and a set or string [s]. *)
Definition mem (x : char) (s : list char) : bool := existsb (N.eqb x) s.

(** [s * n] *)
Fixpoint repeat_str (s : str) (n : nat) : str :=
  match n with
  | O => []
  | S k => s ++ repeat_str s k
  end.

(** [str(n)] for a non-negative integer: decimal digits. *)
Fixpoint dec_digits (fuel : nat) (n : N) (acc : str) : str :=
  match fuel with
  | O => acc
  | S f =>
      let acc' := (48 + n mod 10) :: acc in
      if n <? 10 then acc' else dec_digits f (n / 10) acc'
  end.

Definition str_of_N (n : N) : str := dec_digits (S (N.to_nat (N.log2 n))) n [].

Definition str_of_nat (n : nat) : str := str_of_N (N.of_nat n).

(** [hex(n)]: the prefix 0x and lowercase hexadecimal digits. *)
Definition hex_digit (d : N) : char := if d <? 10 then 48 + d else 87 + d.

Fixpoint hex_digits (fuel : nat) (n : N) (acc : str) : str :=
  match fuel with
  | O => acc
  | S f =>
      let acc' := hex_digit (n mod 16) :: acc in
      if n <? 16 then acc' else hex_digits f (n / 16) acc'
  end.

Definition hex (n : N) : str :=
  48 :: 120 :: hex_digits (S (N.to_nat (N.log2 n))) n [].

End Text.
Import Text.

(* ================================================================== *)
(** * The Unicode character database as Python reads it *)
(* ================================================================== *)

Module Unicode.

(** The per-character tables used by [str.strip], [str.isupper],
    [str.isalpha], [str.upper] and by the [re] module. *)
Record tables := {
  isspace : char -> bool;       (* Py_UNICODE_ISSPACE: strip(), \s *)
  isalpha : char -> bool;       (* Py_UNICODE_ISALPHA *)
  isdecimal : char -> bool;     (* Py_UNICODE_ISDECIMAL: \d *)
  isalnum : char -> bool;       (* Py_UNICODE_ISALNUM: \w, with '_' *)
  isupper : char -> bool;       (* Py_UNICODE_ISUPPER *)
  islower : char -> bool;       (* Py_UNICODE_ISLOWER *)
  istitle : char -> bool;       (* Py_UNICODE_ISTITLE *)
  tolower : char -> char;       (* key compared under re.IGNORECASE *)
  upper : char -> str           (* full upper-case mapping of str.upper() *)
}.

Definition in_range (lo hi c : char) : bool := (lo <=? c) && (c <=? hi).

Definition ascii_upper (c : char) : bool := in_range 65 90 c.
Definition ascii_lower (c : char) : bool := in_range 97 122 c.
Definition ascii_letter (c : char) : bool := ascii_upper c || ascii_lower c.
Definition ascii_digit (c : char) : bool := in_range 48 57 c.

(** Cyrillic capital letters U+0400..U+042F, small letters U+0430..U+045F. *)
Definition cyr_upper (c : char) : bool := in_range 0x400 0x42F c.
Definition cyr_lower (c : char) : bool := in_range 0x430 0x45F c.

(** The code points on which the model fixes the tables. *)
Definition covered (c : char) : bool := (c <? 0x80) || in_range 0x400 0x45F c.

Definition ref_tolower (c : char) : char :=
  if ascii_upper c then c + 32
  else if in_range 0x400 0x40F c then c + 0x50
  else if in_range 0x410 0x42F c then c + 0x20
  else c.

Definition ref_toupper (c : char) : char :=
  if ascii_lower c then c - 32
  else if in_range 0x450 0x45F c then c - 0x50
  else if in_range 0x430 0x44F c then c - 0x20
  else c.

Definition reference : tables := {|
  isspace c := in_range 9 13 c || in_range 28 32 c;
  isalpha c := ascii_letter c || cyr_upper c || cyr_lower c;
  isdecimal c := ascii_digit c;
  isalnum c := ascii_letter c || ascii_digit c || cyr_upper c || cyr_lower c;
  isupper c := ascii_upper c || cyr_upper c;
  islower c := ascii_lower c || cyr_lower c;
  istitle c := false;
  tolower := ref_tolower;
  upper c := [ref_toupper c]
|}.

(** The database: [reference] on the covered code points, [ext] elsewhere. *)
Definition overlay (ext : tables) : tables := {|
  isspace c := if covered c then isspace reference c else isspace ext c;
  isalpha c := if covered c then isalpha reference c else isalpha ext c;
  isdecimal c := if covered c then isdecimal reference c else isdecimal ext c;
  isalnum c := if covered c then isalnum reference c else isalnum ext c;
  isupper c := if covered c then isupper reference c else isupper ext c;
  islower c := if covered c then islower reference c else islower ext c;
  istitle c := if covered c then istitle reference c else istitle ext c;
  tolower c := if covered c then tolower reference c else tolower ext c;
  upper c := if covered c then upper reference c else upper ext c
|}.

End Unicode.
Import Unicode.

(* ================================================================== *)
(** * String methods of Python used by the scripts *)
(* ================================================================== *)

Module PyStr.
Section WithTables.
Variable U : tables.

Fixpoint lstrip (s : str) : str :=
  match s with
  | [] => []
  | c :: s' => if isspace U c then lstrip s' else s
  end.

Definition rstrip (s : str) : str := rev (lstrip (rev s)).

(** [s.strip()] *)
Definition strip (s : str) : str := rstrip (lstrip s).

(** [s.isupper()]: no lower-case or title-case character and at least one
    upper-case one. *)
Fixpoint isupper_from (cased : bool) (s : str) : bool :=
  match s with
  | [] => cased
  | c :: s' =>
      if islower U c || istitle U c then false
      else isupper_from (cased || isupper U c) s'
  end.

Definition str_isupper (s : str) : bool := isupper_from false s.

(** [s.isalpha()]: non-empty and every character alphabetic. *)
Definition str_isalpha (s : str) : bool :=
  match s with
  | [] => false
  | _ => forallb (isalpha U) s
  end.

(** [s.upper()] *)
Definition str_upper (s : str) : str := flat_map (upper U) s.

(** [s.replace(' ', '')] *)
Definition remove_spaces (s : str) : str :=
  filter (fun c => negb (c =? 32)) s.

End WithTables.

(** [s == t] *)
Fixpoint str_eqb (s t : str) : bool :=
  match s, t with
  | [], [] => true
  | a :: s', b :: t' => (a =? b) && str_eqb s' t'
  | _, _ => false
  end.

(** [w in S] for a set of strings. *)
Definition str_mem (w : str) (S : list str) : bool := existsb (str_eqb w) S.

End PyStr.
Import PyStr.

(* ================================================================== *)
(** * The fragment of [re] used by the scripts *)
(* ================================================================== *)

Module Re.

Inductive category := Word | Space | Digit.          (* \w \s \d *)

Inductive item :=
| IChar (c : char)
| IRange (lo hi : char)
| ICat (k : category).

(** A character class [[...]] or [[^...]]; a literal is a one-item class. *)
Record cset := { negated : bool; items : list item }.

Inductive node :=
| Bol                                             (* ^ *)
| Eol                                             (* $ *)
| WordBoundary                                    (* \b *)
| One (cs : cset)
| Rep (cs : cset) (lo : nat) (hi : option nat).   (* cs{lo,hi}, greedy *)

Record regex := { ignorecase : bool; nodes : list node }.

Definition lit (c : char) : node := One {| negated := false; items := [IChar c] |}.
Definition cls (its : list item) : cset := {| negated := false; items := its |}.
Definition ncls (its : list item) : cset := {| negated := true; items := its |}.
Definition chars_of (s : str) : list item := map IChar s.

Section WithTables.
Variable U : tables.

Definition in_category (k : category) (c : char) : bool :=
  match k with
  | Word => isalnum U c || (c =? 95)
  | Space => isspace U c
  | Digit => isdecimal U c
  end.

Definition in_item (ic : bool) (it : item) (c : char) : bool :=
  match it with
  | IChar x => if ic then tolower U x =? tolower U c else x =? c
  | IRange lo hi =>
      in_range lo hi c
      || (ic && (in_range lo hi (tolower U c)
                 || match upper U c with [u] => in_range lo hi u | _ => false end))
  | ICat k => in_category k c
  end.

Definition in_cset (ic : bool) (cs : cset) (c : char) : bool :=
  xorb (negated cs) (existsb (fun it => in_item ic it c) (items cs)).

Definition is_word (oc : option char) : bool :=
  match oc with
  | Some c => in_category Word c
  | None => false
  end.

(** [$] without MULTILINE: at the end, or before a final newline. *)
Definition at_eol (s : str) : bool :=
  match s with
  | [] => true
  | [c] => c =? 10
  | _ => false
  end.

(** Length of the longest prefix of [s] inside the class, capped by [hi]. *)
Fixpoint run_length (ic : bool) (cs : cset) (hi : option nat) (s : str) : nat :=
  match hi with
  | Some O => O
  | _ =>
      match s with
      | c :: s' =>
          if in_cset ic cs c
          then S (run_length ic cs (option_map pred hi) s')
          else O
      | [] => O
      end
  end.

Definition last_of (prev : option char) (w : str) : option char :=
  match rev w with
  | c :: _ => Some c
  | [] => prev
  end.

(** Backtracking over a greedy repetition: try [k], [k-1], ... down to [lo]
    characters; [cont] matches the rest of the pattern. *)
Fixpoint try_counts (cont : option char -> str -> option (str * str))
    (prev : option char) (s : str) (lo k : nat) : option (str * str) :=
  let attempt :=
    if Nat.leb lo k then
      match cont (last_of prev (firstn k s)) (skipn k s) with
      | Some (w, t) => Some (firstn k s ++ w, t)
      | None => None
      end
    else None in
  match attempt with
  | Some r => Some r
  | None =>
      match k with
      | O => None
      | S k' => try_counts cont prev s lo k'
      end
  end.

(** Match the node list at the current position; [prev] is the character
    before it ([None] at the start of the string).  The result is the text
    matched and the text left. *)
Fixpoint match_here (ic : bool) (r : list node) (prev : option char) (s : str)
  : option (str * str) :=
  match r with
  | [] => Some ([], s)
  | Bol :: r' =>
      match prev with
      | None => match_here ic r' prev s
      | Some _ => None
      end
  | Eol :: r' => if at_eol s then match_here ic r' prev s else None
  | WordBoundary :: r' =>
      if xorb (is_word prev) (is_word (hd_error s))
      then match_here ic r' prev s else None
  | One cs :: r' =>
      match s with
      | c :: s' =>
          if in_cset ic cs c then
            match match_here ic r' (Some c) s' with
            | Some (w, t) => Some (c :: w, t)
            | None => None
            end
          else None
      | [] => None
      end
  | Rep cs lo hi :: r' =>
      try_counts (match_here ic r') prev s lo (run_length ic cs hi s)
  end.

(** [re.match(r, s)] as a truth value. *)
Definition re_match (r : regex) (s : str) : bool :=
  match match_here (ignorecase r) (nodes r) None s with
  | Some _ => true
  | None => false
  end.

(** [re.search(r, s)] as a truth value: a match at some position. *)
Fixpoint search_from (r : regex) (prev : option char) (s : str) : bool :=
  match match_here (ignorecase r) (nodes r) prev s with
  | Some _ => true
  | None =>
      match s with
      | [] => false
      | c :: s' => search_from r (Some c) s'
      end
  end.

Definition re_search (r : regex) (s : str) : bool := search_from r None s.

(** [re.findall(r, s)] for a pattern without groups: the non-overlapping
    matches from left to right.  [skip] counts the characters of the last
    match still to be passed over; after an empty match the scan moves on by
    one character. *)
Fixpoint findall_from (r : regex) (prev : option char) (s : str) (skip : nat)
  : list str :=
  match skip with
  | S k =>
      match s with
      | [] => []
      | c :: s' => findall_from r (Some c) s' k
      end
  | O =>
      match match_here (ignorecase r) (nodes r) prev s with
      | Some (w, _) =>
          w :: match s with
               | [] => []
               | c :: s' => findall_from r (Some c) s' (pred (length w))
               end
      | None =>
          match s with
          | [] => []
          | c :: s' => findall_from r (Some c) s' 0
          end
      end
  end.

Definition re_findall (r : regex) (s : str) : list str := findall_from r None s 0.

End WithTables.
End Re.
Import Re.

(* ================================================================== *)
(** * scripts/find_anomalies.py *)
(* ================================================================== *)

Module FindAnomalies.

(** ** Constants *)

Definition RUSSIAN_CHARS : list char :=
  u8 "АБВГДЕЁЖЗИЙКЛМНОПРСТУФХЦЦЧШЩЪЫЬЭЮЯабвгдеёжзийклмнопрстуфхцчшщъыьэюя0123456789".

(** The double quote of the literal is code point 34. *)
Definition PUNCTUATION : list char := u8 ".,;:!?-" ++ [34] ++ u8 "()[]{}«»—–…".

Definition WHITESPACE : list char := [32; 10; 13; 9].

Definition ALLOWED_CHARS : list char := RUSSIAN_CHARS ++ PUNCTUATION ++ WHITESPACE.

Definition roman : list item := chars_of (u8 "IVXLCDM").

Definition lits (s : str) : list node := map lit s.

Definition CHAPTER_PATTERNS : list regex :=
  map (fun ns => {| ignorecase := true; nodes := ns |})
  [ (* ^[IVXLCDM]+$ *)
    [Bol; Rep (cls roman) 1 None; Eol];
    (* ^ГЛАВА\s+[IVXLCDM\d]+ *)
    Bol :: lits (u8 "ГЛАВА")
      ++ [Rep (cls [ICat Space]) 1 None; Rep (cls (roman ++ [ICat Digit])) 1 None];
    (* ^ЧАСТЬ\s+[IVXLCDM\d]+ *)
    Bol :: lits (u8 "ЧАСТЬ")
      ++ [Rep (cls [ICat Space]) 1 None; Rep (cls (roman ++ [ICat Digit])) 1 None];
    (* ^[ГЧ]\s*[IVXLCDM\d]+ *)
    [Bol; One (cls (chars_of (u8 "ГЧ"))); Rep (cls [ICat Space]) 0 None;
     Rep (cls (roman ++ [ICat Digit])) 1 None];
    (* ^\d+$ *)
    [Bol; Rep (cls [ICat Digit]) 1 None; Eol] ].

Definition base64_chars : list char :=
  u8 "ABCDEFGHIJKLMNOPQRSTUVWXYZabcdefghijklmnopqrstuvwxyz0123456789+/=".

(** ^[IVXLCDM]+$ with re.IGNORECASE *)
Definition roman_numeral_re : regex :=
  {| ignorecase := true; nodes := [Bol; Rep (cls roman) 1 None; Eol] |}.

(** ^\([a-zA-Z]{1,4}\)$ *)
Definition parenthesized_re : regex :=
  {| ignorecase := false;
     nodes := [Bol; lit 40; Rep (cls [IRange 97 122; IRange 65 90]) 1 (Some 4%nat);
               lit 41; Eol] |}.

(** \b[A-Za-z]+\b *)
Definition latin_word_re : regex :=
  {| ignorecase := false;
     nodes := [WordBoundary; Rep (cls [IRange 65 90; IRange 97 122]) 1 None;
               WordBoundary] |}.

Definition common_abbrevs : list str :=
  map u8 ["ISBN"; "ISBN:"; "http"; "https"; "www"; "com"; "ru"; "org"; "net"]%string.

Definition normal_symbols : list char := u8 "—–…‹›‚„«»°№§".

(** The class [^\w\s\u0400-\u04FF.,;:!?\-Q()\[\]{}«»—–…°№§] repeated {3,}, where Q
    stands for the double quote (code point 34). *)
Definition unusual_run_re : regex :=
  {| ignorecase := false;
     nodes := [Rep (ncls ([ICat Word; ICat Space; IRange 0x400 0x4FF]
                          ++ chars_of (u8 ".,;:!?-" ++ [34] ++ u8 "()[]{}«»—–…°№§")))
                   3 None] |}.

(** ** Anomaly records *)

Inductive kind := token_like | latin_in_russian | unusual_symbols | multiple_unusual_chars.

(** An entry of the ['chars'] list: [(i, c)] in a latin_in_russian record,
    [(i, c, hex(ord(c)))] in an unusual_symbols record. *)
Inductive detail :=
| Pair (i : nat) (c : char)
| Triple (i : nat) (c : char) (code : str).

(** The dict appended to [anomalies]; ['chars'] is absent from two kinds. *)
Record anomaly := {
  a_type : kind;
  line_num : Z;
  chars : option (list detail);
  line_text : str
}.

Definition kind_eqb (a b : kind) : bool :=
  match a, b with
  | token_like, token_like
  | latin_in_russian, latin_in_russian
  | unusual_symbols, unusual_symbols
  | multiple_unusual_chars, multiple_unusual_chars => true
  | _, _ => false
  end.

(** [enumerate(line)], counting from [i]. *)
Fixpoint enumerate_from (i : nat) (s : str) : list (nat * char) :=
  match s with
  | [] => []
  | c :: s' => (i, c) :: enumerate_from (S i) s'
  end.

Definition is_empty {A} (l : list A) : bool :=
  match l with [] => true | _ => false end.

Section WithTables.
Variable ext : tables.
Local Abbreviation U := (overlay ext).

Definition is_likely_chapter_title (line : str) : bool :=
  let stripped := strip U line in
  if is_empty stripped then false
  else if existsb (fun pattern => re_match U pattern stripped) CHAPTER_PATTERNS then true
  else if Nat.ltb (length stripped) 30
          && str_isupper U stripped
          && str_isalpha U (remove_spaces stripped) then true
  else false.

Definition is_base64_like (text : str) : bool :=
  if Nat.ltb (length text) 40 then false
  else
    if forallb (fun c => mem c base64_chars) (strip U text) then
      if (mem 61 text || mem 47 text) && Nat.ltb 40 (length (strip U text))
      then true else false
    else false.

Definition is_normal_latin_usage (line : str) : bool :=
  let stripped := strip U line in
  if re_match U roman_numeral_re stripped then true
  else if re_match U parenthesized_re stripped then true
  else
    let words := re_findall U latin_word_re line in
    if negb (is_empty words)
       && forallb (fun w => str_mem (str_upper U w) common_abbrevs
                            || Nat.leb (length w) 3) words
    then true
    else false.

(** The list [suspicious_chars] of triples [(i, char, ord(char))]. *)
Definition suspicious_chars (line : str) : list (nat * char * N) :=
  flat_map (fun '(i, c) => if mem c ALLOWED_CHARS then [] else [(i, c, c)])
           (enumerate_from 0 line).

Definition is_ascii_alpha (c : char) : bool := isalpha U c && (c <? 128).

Definition latin_chars (line : str) : list (nat * char) :=
  flat_map (fun '(i, c, _) => if is_ascii_alpha c then [(i, c)] else [])
           (suspicious_chars line).

Definition other_chars (line : str) : list (nat * char * str) :=
  filter (fun '(i, c, hex_val) => negb (mem c normal_symbols))
    (flat_map (fun '(i, c, code) =>
                 if negb (is_ascii_alpha c) then [(i, c, hex c)] else [])
              (suspicious_chars line)).

Definition find_anomalies_in_line (line : str) (line_num : Z) : list anomaly :=
  if is_empty (strip U line) || is_likely_chapter_title line then []
  else
    let stripped := strip U line in
    if is_base64_like stripped then
      [ {| a_type := token_like; line_num := line_num; chars := None;
           line_text := stripped |} ]
    else
      let charset_anomalies :=
        if negb (is_empty (suspicious_chars line)) then
          if existsb (fun c => mem c RUSSIAN_CHARS) line then
            (if negb (is_empty (latin_chars line)) && negb (is_normal_latin_usage line)
             then
               if Nat.ltb 3 (length (latin_chars line)) then
                 [ {| a_type := latin_in_russian; line_num := line_num;
                      chars := Some (map (fun '(i, c) => Pair i c)
                                         (firstn 10 (latin_chars line)));
                      line_text := stripped |} ]
               else []
             else [])
            ++
            (if negb (is_empty (other_chars line)) then
               [ {| a_type := unusual_symbols; line_num := line_num;
                    chars := Some (map (fun '(i, c, h) => Triple i c h)
                                       (firstn 10 (other_chars line)));
                    line_text := stripped |} ]
             else [])
          else []
        else [] in
      let run_anomalies :=
        if re_search U unusual_run_re line then
          [ {| a_type := multiple_unusual_chars; line_num := line_num;
               chars := None; line_text := stripped |} ]
        else [] in
      charset_anomalies ++ run_anomalies.


(** ** analyze_file *)

(** The key [(line_num, anomaly['type'])] of the set [seen_lines]. *)
Definition line_key := (Z * kind)%type.

Definition key_eqb (a b : line_key) : bool :=
  Z.eqb (fst a) (fst b) && kind_eqb (snd a) (snd b).

(** [line_key in seen_lines] *)
Definition key_mem (k : line_key) (seen : list line_key) : bool :=
  existsb (key_eqb k) seen.

(** The inner loop over the anomalies of one line; the state is
    [(all_anomalies, seen_lines)]. *)
Definition add_anomalies (line_num : Z) (anomalies : list anomaly)
    (st : list anomaly * list line_key) : list anomaly * list line_key :=
  fold_left
    (fun '(all_anomalies, seen_lines) anomaly =>
       let line_key := (line_num, a_type anomaly) in
       if negb (key_mem line_key seen_lines)
       then (all_anomalies ++ [anomaly], line_key :: seen_lines)
       else (all_anomalies, seen_lines))
    anomalies st.

(** The loop [for line_num, line in enumerate(lines, 1)], from [line_num]. *)
Fixpoint scan_lines (line_num : Z) (lines : list str)
    (st : list anomaly * list line_key) : list anomaly * list line_key :=
  match lines with
  | [] => st
  | line :: rest =>
      scan_lines (line_num + 1) rest
        (add_anomalies line_num (find_anomalies_in_line line line_num) st)
  end.

(** What [open(filepath, 'r', encoding=...)] followed by [readlines()]
    does: the lines, a UnicodeDecodeError, or another exception; [e] is the
    text of the exception. *)
Inductive encoding := utf_8 | cp1251.

Inductive read_outcome :=
| Lines (lines : list str)
| UnicodeDecodeError (e : str)
| OtherException (e : str).

Definition filesystem := str -> encoding -> read_outcome.

(** The dict returned by [analyze_file]. *)
Inductive file_result :=
| Error (error : str)
| Scanned (total_lines : nat) (anomalies : list anomaly).

Definition scan (lines : list str) : file_result :=
  Scanned (length lines) (fst (scan_lines 1%Z lines ([], []))).

Definition analyze_file (fs : filesystem) (filepath : str) : file_result :=
  match fs filepath utf_8 with
  | Lines lines => scan lines
  | UnicodeDecodeError _ =>
      match fs filepath cp1251 with
      | Lines lines => scan lines
      | UnicodeDecodeError e | OtherException e =>
          Error (u8 "Не удалось прочитать файл: " ++ e)
      end
  | OtherException e => Error (u8 "Ошибка при чтении файла: " ++ e)
  end.

(** ** main *)

(** [a < b] on strings: code points compared lexicographically. *)
Fixpoint str_ltb (a b : str) : bool :=
  match a, b with
  | _, [] => false
  | [], _ :: _ => true
  | x :: a', y :: b' => (x <? y) || ((x =? y) && str_ltb a' b')
  end.

Fixpoint insert_name (x : str) (l : list str) : list str :=
  match l with
  | [] => [x]
  | y :: l' => if str_ltb y x then y :: insert_name x l' else x :: l
  end.

(** [sorted(txt_files)] *)
Definition sorted (l : list str) : list str := fold_right insert_name [] l.

(** What the run prints, without the layout of the text: the message for no
    input, the banner with the number of files, the two error lines of an
    unreadable file, the section of a file with anomalies, the closing
    total. *)
Inductive event :=
| NoFilesFound
| FilesFound (n : nat)
| ReadFailed (name error : str)
| FileSection (name : str) (total_lines : nat) (anomalies : list anomaly)
| Total (with_anomalies checked : nat).

(** The loop [for txt_file in sorted(txt_files)]; the state is the console
    and [files_with_anomalies]. *)
Fixpoint main_loop (fs : filesystem) (files : list str)
    (console : list event) (files_with_anomalies : list (str * list anomaly))
  : list event * list (str * list anomaly) :=
  match files with
  | [] => (console, files_with_anomalies)
  | txt_file :: rest =>
      match analyze_file fs txt_file with
      | Error error =>
          main_loop fs rest (console ++ [ReadFailed txt_file error])
            files_with_anomalies
      | Scanned total_lines anomalies =>
          if negb (is_empty anomalies) then
            main_loop fs rest
              (console ++ [FileSection txt_file total_lines anomalies])
              (files_with_anomalies ++ [(txt_file, anomalies)])
          else main_loop fs rest console files_with_anomalies
      end
  end.

(** The run: the console, and the content of the detailed report when one
    is written (the files with anomalies, in order). *)
Record run := {
  console : list event;
  report : option (list (str * list anomaly))
}.

Definition main (fs : filesystem) (txt_files : list str) : run :=
  if is_empty txt_files then {| console := [NoFilesFound]; report := None |}
  else
    let '(out, files_with_anomalies) :=
      main_loop fs (sorted txt_files) [FilesFound (length txt_files)] [] in
    {| console := out ++ [Total (length files_with_anomalies) (length txt_files)];
       report := Some files_with_anomalies |}.

End WithTables.
End FindAnomalies.

(* ================================================================== *)
(** * scripts/create_summary.py *)
(* ================================================================== *)

Module CreateSummary.

(** The value of [files_data[filename]]: the line numbers parsed from the
    detailed report, per kind. *)
Record hits := {
  token_like : list Z;
  unusual_symbols : list Z;
  latin_in_russian : list Z;
  multiple_unusual_chars : list Z
}.

(** The dict [data], as its items in insertion order. *)
Definition report_data := list (str * hits).

Fixpoint insert_by_count (x : str * nat) (l : list (str * nat)) : list (str * nat) :=
  match l with
  | [] => [x]
  | y :: l' =>
      if Nat.ltb (snd x) (snd y) then y :: insert_by_count x l' else x :: l
  end.

(** [l.sort(key=lambda x: x[1], reverse=True)]: descending by count, files
    with equal counts in their original order. *)
Definition sort_by_count (l : list (str * nat)) : list (str * nat) :=
  fold_right insert_by_count [] l.

(** The files whose list [field] is not empty, with their counts. *)
Definition files_with_any (field : hits -> list Z) (data : report_data)
  : list (str * nat) :=
  flat_map (fun '(filename, anomalies) =>
              if negb (FindAnomalies.is_empty (field anomalies))
              then [(filename, length (field anomalies))] else [])
           data.

(** The files whose list [field] has more than [threshold] entries. *)
Definition files_above (threshold : nat) (field : hits -> list Z)
    (data : report_data) : list (str * nat) :=
  flat_map (fun '(filename, anomalies) =>
              if Nat.ltb threshold (length (field anomalies))
              then [(filename, length (field anomalies))] else [])
           data.

Definition files_with_tokens (data : report_data) :=
  sort_by_count (files_with_any token_like data).
Definition files_with_multiple_unusual (data : report_data) :=
  sort_by_count (files_with_any multiple_unusual_chars data).
Definition files_with_unusual_symbols (data : report_data) :=
  sort_by_count (files_above 100 unusual_symbols data).
Definition files_with_latin (data : report_data) :=
  sort_by_count (files_above 50 latin_in_russian data).

(** The line of one file in a section; [word] is the noun after the count. *)
Definition bullet (word : string) (entry : str * nat) : str :=
  u8 "  • " ++ fst entry ++ u8 ": " ++ str_of_nat (snd entry) ++ u8 " " ++ u8 word.

(** Sections 1 and 2 list every file. *)
Definition full_section (found : string) (word : string) (none : string)
    (files : list (str * nat)) : list str :=
  if negb (FindAnomalies.is_empty files) then
    [u8 found ++ str_of_nat (length files); []] ++ map (bullet word) files
  else [u8 none].

(** Sections 3 and 4 list the first 20 files and count the others. *)
Definition top20_section (files : list (str * nat)) : list str :=
  if negb (FindAnomalies.is_empty files) then
    [u8 "Найдено файлов: " ++ str_of_nat (length files); []]
    ++ map (bullet "случаев") (firstn 20 files)
    ++ (if Nat.ltb 20 (length files)
        then [u8 "  ... и еще " ++ str_of_nat (length files - 20) ++ u8 " файлов"]
        else [])
  else [u8 "  Аномалии не найдены"].

Definition rule (c : char) : str := repeat_str [c] 80.

(** The list [summary] of the lines of the report for non-empty [data]. *)
Definition summary_lines (data : report_data) : list str :=
  [rule 61; u8 "ИТОГОВЫЙ ОТЧЕТ ОБ АНОМАЛИЯХ В ТЕКСТОВЫХ ФАЙЛАХ"; rule 61; []]
  ++ [u8 "1. КРИТИЧНЫЕ АНОМАЛИИ: ТОКЕНЫ (base64/непонятные строки)"; rule 45]
  ++ full_section "Найдено файлов с токенами: " "токенов" "  Токены не найдены"
       (files_with_tokens data)
  ++ [[]]
  ++ [u8 "2. МНОЖЕСТВЕННЫЕ НЕОБЫЧНЫЕ СИМВОЛЫ"; rule 45]
  ++ full_section "Найдено файлов: " "случаев" "  Аномалии не найдены"
       (files_with_multiple_unusual data)
  ++ [[]]
  ++ [u8 "3. ФАЙЛЫ С БОЛЬШИМ КОЛИЧЕСТВОМ НЕОБЫЧНЫХ СИМВОЛОВ (>100)"; rule 45]
  ++ top20_section (files_with_unusual_symbols data)
  ++ [[]]
  ++ [u8 "4. ФАЙЛЫ С БОЛЬШИМ КОЛИЧЕСТВОМ ЛАТИНИЦЫ (>50)"; rule 45]
  ++ top20_section (files_with_latin data)
  ++ [[]]
  ++ [rule 61; u8 "ОБЩАЯ СТАТИСТИКА"; rule 61;
      u8 "Всего файлов с аномалиями: " ++ str_of_nat (length data);
      u8 "Файлов с токенами: " ++ str_of_nat (length (files_with_tokens data));
      u8 "Файлов с множественными необычными символами: "
        ++ str_of_nat (length (files_with_multiple_unusual data));
      u8 "Файлов с большим количеством необычных символов: "
        ++ str_of_nat (length (files_with_unusual_symbols data));
      u8 "Файлов с большим количеством латиницы: "
        ++ str_of_nat (length (files_with_latin data));
      [];
      u8 "ПРИМЕЧАНИЕ:";
      u8 "- Токены - это критичные аномалии (base64-строки, непонятные данные)";
      u8 "- Латиница в тексте может быть нормальной (имена собственные, цитаты)";
      u8 "- Необычные символы могут включать специальные пробелы, тире и т.д.";
      rule 61].

(** [create_summary], given the result [data] of [parse_anomalies_report()]
    ([None] when the detailed report does not exist): the lines written to
    summary_report.txt, or nothing when [not data]. *)
Definition create_summary (data : option report_data) : option (list str) :=
  match data with
  | None | Some [] => None
  | Some d => Some (summary_lines d)
  end.

End CreateSummary.

(* ================================================================== *)
(** * Properties of the line classifier *)
(* ================================================================== *)

Import FindAnomalies.

Definition detail_offset (d : detail) : nat :=
  match d with Pair i _ => i | Triple i _ _ => i end.

Definition detail_char (d : detail) : char :=
  match d with Pair _ c => c | Triple _ c _ => c end.

(** The key by which [analyze_file] tells records apart. *)
Definition key_of (a : anomaly) : line_key := (line_num a, a_type a).

(** ** Vocabulary of the specification *)

(** A character of the Cyrillic block U+0400..U+04FF. *)
Definition is_cyrillic (c : char) : bool := in_range 0x400 0x4FF c.

(** The maximal runs of ASCII letters of a line ("Latin-letter words");
    [cur] is the run being read, reversed. *)
Fixpoint latin_runs_from (cur : str) (s : str) : list str :=
  match s with
  | [] => if is_empty cur then [] else [rev cur]
  | c :: s' =>
      if ascii_letter c then latin_runs_from (c :: cur) s'
      else (if is_empty cur then [] else [rev cur]) ++ latin_runs_from [] s'
  end.

Definition latin_runs (line : str) : list str := latin_runs_from [] line.

(** Equality of two strings up to the case of their letters. *)
Definition eq_ignoring_case (a b : str) : bool :=
  str_eqb (map ref_tolower a) (map ref_tolower b).

(** Every Latin-letter word has at most 3 letters or is one of the listed
    abbreviations, whatever its case. *)
Definition only_short_or_abbreviated_words (line : str) : bool :=
  forallb (fun w => Nat.leb (length w) 3
                    || existsb (eq_ignoring_case w) common_abbrevs)
          (latin_runs line).

Definition has_kind (k : kind) (l : list anomaly) : bool :=
  existsb (fun a => kind_eqb (a_type a) k) l.

(** The number of records of a list with a given line number and kind. *)
Definition count_key (k : line_key) (l : list anomaly) : nat :=
  length (filter (fun a => key_eqb (key_of a) k) l).

(** The records of the lines numbered from [n], none left out. *)
Fixpoint all_records (ext : tables) (n : Z) (lines : list str) : list anomaly :=
  match lines with
  | [] => []
  | line :: rest =>
      find_anomalies_in_line ext line n ++ all_records ext (n + 1) rest
  end.

(** [w in s] for strings: [w] occurs in [s]. *)
Fixpoint is_prefix (w s : str) : bool :=
  match w, s with
  | [], _ => true
  | a :: w', b :: s' => (a =? b) && is_prefix w' s'
  | _ :: _, [] => false
  end.

Fixpoint occurs_in (w s : str) : bool :=
  is_prefix w s || match s with [] => false | _ :: s' => occurs_in w s' end.

(** The lines that follow the first line equal to [h]. *)
Fixpoint lines_after (h : str) (lines : list str) : list str :=
  match lines with
  | [] => []
  | l :: rest => if str_eqb l h then rest else lines_after h rest
  end.



(** Descending by count. *)
Definition by_count_desc (a b : str * nat) : Prop := (snd b <= snd a)%nat.


Section ClassifierFacts.
Variable ext : tables.
Local Abbreviation U := (overlay ext).

(** ** The regular expression engine *)

Lemma run_length_all ic cs s :
  forallb (in_cset U ic cs) s = true -> run_length U ic cs None s = length s.
Proof.
  induction s as [|c s IH]; simpl; intros H; [reflexivity|].
  apply andb_true_iff in H as [Hc Hs]. rewrite Hc, IH; auto.
Qed.

Lemma try_counts_top cont prev s lo k w t :
  (lo <= k)%nat ->
  cont (last_of prev (firstn k s)) (skipn k s) = Some (w, t) ->
  try_counts cont prev s lo k = Some (firstn k s ++ w, t).
Proof.
  intros Hlo Hc. apply Nat.leb_le in Hlo.
  destruct k; cbn [try_counts]; rewrite Hlo, Hc; reflexivity.
Qed.

Lemma ascii_covered c : c < 128 -> covered c = true.
Proof.
  intros H. unfold covered. apply orb_true_iff. left. apply N.ltb_lt. lia.
Qed.

Lemma in_range_spec lo hi c : in_range lo hi c = true <-> lo <= c <= hi.
Proof.
  unfold in_range. rewrite andb_true_iff, !N.leb_le. tauto.
Qed.

Lemma digit_in_class c :
  ascii_digit c = true -> in_cset U true (cls [ICat Digit]) c = true.
Proof.
  intros H. unfold in_cset, cls; simpl. rewrite orb_false_r.
  rewrite ascii_covered; [exact H|].
  apply in_range_spec in H. lia.
Qed.

(** A non-empty string of ASCII digits matches ^\d+$. *)
Lemma digits_match s :
  s <> [] -> forallb ascii_digit s = true ->
  re_match U {| ignorecase := true;
                nodes := [Bol; Rep (cls [ICat Digit]) 1 None; Eol] |} s = true.
Proof.
  intros Hne Hall. unfold re_match. simpl nodes. simpl ignorecase.
  cbn [match_here].
  assert (Hrun : run_length U true (cls [ICat Digit]) None s = length s).
  { apply run_length_all. rewrite forallb_forall in *. intros c Hc.
    apply digit_in_class. auto. }
  rewrite Hrun. erewrite try_counts_top.
  - reflexivity.
  - destruct s; [congruence|simpl; lia].
  - rewrite skipn_all. reflexivity.
Qed.

(** ** Chapter headings and empty lines *)

Lemma skipped_line (line : str) (n : Z) :
  is_empty (strip U line) || is_likely_chapter_title ext line = true ->
  find_anomalies_in_line ext line n = [].
Proof.
  intros H. unfold find_anomalies_in_line. rewrite H. reflexivity.
Qed.

Lemma chapter_title_by_pattern (line : str) (pattern : regex) :
  strip U line <> [] -> In pattern CHAPTER_PATTERNS ->
  re_match U pattern (strip U line) = true ->
  is_likely_chapter_title ext line = true.
Proof.
  intros Hne Hin Hm. unfold is_likely_chapter_title.
  destruct (strip U line) as [|c s]; [congruence|]. cbn [is_empty].
  assert (He : existsb (fun pattern => re_match U pattern (c :: s))
                       CHAPTER_PATTERNS = true).
  { apply existsb_exists. exists pattern. auto. }
  rewrite He. reflexivity.
Qed.

(** C3. A line whose trimmed content matches one of the chapter patterns, or
    is empty (the line is empty or all whitespace), or is shorter than 30
    characters, upper-case and alphabetic once its spaces are removed, gets
    no anomaly record at all, whatever its line number. *)
Theorem chapter_or_blank_line_has_no_anomaly (line : str) (n : Z) :
  (exists pattern, In pattern CHAPTER_PATTERNS
                   /\ re_match U pattern (strip U line) = true)
  \/ strip U line = []
  \/ ((length (strip U line) < 30)%nat
      /\ str_isupper U (strip U line) = true
      /\ str_isalpha U (remove_spaces (strip U line)) = true) ->
  find_anomalies_in_line ext line n = [].
Proof.
  intros H. apply skipped_line.
  destruct (strip U line) as [|c s] eqn:Hs; [reflexivity|].
  cbn [is_empty orb].
  destruct H as [[p [Hin Hm]] | [H | [Hlen [Hup Hal]]]].
  - apply chapter_title_by_pattern with p; rewrite ?Hs; auto; discriminate.
  - discriminate.
  - unfold is_likely_chapter_title. rewrite Hs. cbn [is_empty].
    apply Nat.ltb_lt in Hlen. rewrite Hlen, Hup, Hal. cbn [andb].
    destruct (existsb _ CHAPTER_PATTERNS); reflexivity.
Qed.

(** C8. A line whose trimmed content consists of ASCII decimal digits only
    is a chapter heading by the pattern ^\d+$, so it gets no anomaly record,
    whatever its length and its line number. *)
Theorem plain_number_line_has_no_anomaly (line : str) (n : Z) :
  forallb ascii_digit (strip U line) = true ->
  find_anomalies_in_line ext line n = [].
Proof.
  intros Hd. apply skipped_line.
  destruct (strip U line) as [|c s] eqn:Hs; [reflexivity|].
  cbn [is_empty orb].
  apply chapter_title_by_pattern
    with {| ignorecase := true;
            nodes := [Bol; Rep (cls [ICat Digit]) 1 None; Eol] |}.
  - rewrite Hs. discriminate.
  - unfold CHAPTER_PATTERNS. apply in_map. do 4 right. left. reflexivity.
  - rewrite Hs. apply digits_match; [discriminate | exact Hd].
Qed.

(** ** The records a line can get *)

Definition token_record (line : str) (n : Z) : anomaly :=
  {| a_type := token_like; line_num := n; chars := None;
     line_text := strip U line |}.

Definition latin_record (line : str) (n : Z) : anomaly :=
  {| a_type := latin_in_russian; line_num := n;
     chars := Some (map (fun '(i, c) => Pair i c)
                        (firstn 10 (latin_chars ext line)));
     line_text := strip U line |}.

Definition unusual_record (line : str) (n : Z) : anomaly :=
  {| a_type := unusual_symbols; line_num := n;
     chars := Some (map (fun '(i, c, h) => Triple i c h)
                        (firstn 10 (other_chars ext line)));
     line_text := strip U line |}.

Definition run_record (line : str) (n : Z) : anomaly :=
  {| a_type := multiple_unusual_chars; line_num := n; chars := None;
     line_text := strip U line |}.

(** [has_russian] of the source. *)
Definition has_russian (line : str) : bool :=
  existsb (fun c => mem c RUSSIAN_CHARS) line.

(** The conditions under which each record is appended. *)
Definition latin_condition (line : str) : bool :=
  negb (is_empty (suspicious_chars line)) && has_russian line
  && negb (is_empty (latin_chars ext line))
  && negb (is_normal_latin_usage ext line)
  && Nat.ltb 3 (length (latin_chars ext line)).

Definition unusual_condition (line : str) : bool :=
  negb (is_empty (suspicious_chars line)) && has_russian line
  && negb (is_empty (other_chars ext line)).

Definition run_condition (line : str) : bool :=
  re_search U unusual_run_re line.

(** The classifier, written as the list of the records whose conditions
    hold. *)
Lemma find_anomalies_in_line_eq (line : str) (n : Z) :
  find_anomalies_in_line ext line n =
  if is_empty (strip U line) || is_likely_chapter_title ext line then []
  else if is_base64_like ext (strip U line) then [token_record line n]
  else (if latin_condition line then [latin_record line n] else [])
       ++ (if unusual_condition line then [unusual_record line n] else [])
       ++ (if run_condition line then [run_record line n] else []).
Proof.
  unfold find_anomalies_in_line, latin_condition, unusual_condition,
    run_condition, has_russian.
  destruct (is_empty (strip U line) || is_likely_chapter_title ext line);
    [reflexivity|].
  destruct (is_base64_like ext (strip U line)); [reflexivity|].
  destruct (negb (is_empty (suspicious_chars line))); cbn [andb];
    [|reflexivity].
  destruct (existsb (fun c => mem c RUSSIAN_CHARS) line); cbn [andb];
    [|reflexivity].
  rewrite <- app_assoc. f_equal.
  destruct (negb (is_empty (latin_chars ext line))); cbn [andb];
    [|reflexivity].
  destruct (negb (is_normal_latin_usage ext line)); cbn [andb]; reflexivity.
Qed.

Lemma find_anomalies_cases (line : str) (n : Z) (a : anomaly) :
  In a (find_anomalies_in_line ext line n) ->
  (a = token_record line n /\ is_base64_like ext (strip U line) = true)
  \/ (a = latin_record line n /\ latin_condition line = true)
  \/ (a = unusual_record line n /\ unusual_condition line = true)
  \/ (a = run_record line n /\ run_condition line = true).
Proof.
  rewrite find_anomalies_in_line_eq.
  destruct (is_empty (strip U line) || is_likely_chapter_title ext line);
    [intros []|].
  destruct (is_base64_like ext (strip U line)).
  { intros [H|[]]. left. auto. }
  destruct (latin_condition line), (unusual_condition line),
    (run_condition line); cbn [app In]; intuition auto.
Qed.

(** ** The detail list ['chars'] *)

Lemma enumerate_from_nth (k : nat) (s : str) (i : nat) (c : char) :
  In (i, c) (enumerate_from k s) ->
  (k <= i)%nat /\ nth_error s (i - k) = Some c.
Proof.
  revert k. induction s as [|x s IH]; intros k; simpl; [intros []|].
  intros [H|H].
  - inversion H; subst. rewrite Nat.sub_diag. split; [lia|reflexivity].
  - apply IH in H as [Hle Hn]. split; [lia|].
    replace (i - k)%nat with (S (i - S k)) by lia. exact Hn.
Qed.

Lemma suspicious_chars_sound (line : str) (i : nat) (c : char) (o : N) :
  In (i, c, o) (suspicious_chars line) ->
  nth_error line i = Some c /\ mem c ALLOWED_CHARS = false /\ o = c.
Proof.
  unfold suspicious_chars. rewrite in_flat_map.
  intros [[j x] [Hin Hx]].
  destruct (mem x ALLOWED_CHARS) eqn:Hm; [destruct Hx|].
  destruct Hx as [Hx|[]]. inversion Hx; subst.
  apply enumerate_from_nth in Hin as [_ Hn]. rewrite Nat.sub_0_r in Hn. auto.
Qed.

(** [c.isalpha() and ord(c) < 128] holds of the ASCII letters only. *)
Lemma is_ascii_alpha_spec (c : char) : is_ascii_alpha ext c = ascii_letter c.
Proof.
  unfold is_ascii_alpha. cbn [isalpha overlay reference].
  destruct (c <? 128) eqn:Hc.
  - apply N.ltb_lt in Hc. rewrite ascii_covered by exact Hc.
    rewrite andb_true_r.
    assert (H1 : cyr_upper c = false).
    { unfold cyr_upper, in_range. apply andb_false_iff. left.
      apply N.leb_gt. lia. }
    assert (H2 : cyr_lower c = false).
    { unfold cyr_lower, in_range. apply andb_false_iff. left.
      apply N.leb_gt. lia. }
    rewrite H1, H2, !orb_false_r. reflexivity.
  - rewrite andb_false_r. apply N.ltb_ge in Hc. symmetry.
    unfold ascii_letter, ascii_upper, ascii_lower, in_range.
    apply orb_false_iff; split; apply andb_false_iff; right;
      apply N.leb_gt; lia.
Qed.

Lemma ascii_letter_below_128 (c : char) : ascii_letter c = true -> c < 128.
Proof.
  unfold ascii_letter, ascii_upper, ascii_lower.
  rewrite orb_true_iff, !in_range_spec. lia.
Qed.

Lemma latin_chars_sound (line : str) (i : nat) (c : char) :
  In (i, c) (latin_chars ext line) ->
  nth_error line i = Some c /\ mem c ALLOWED_CHARS = false
  /\ ascii_letter c = true.
Proof.
  unfold latin_chars. rewrite in_flat_map.
  intros [[[j x] o] [Hin Hx]].
  rewrite is_ascii_alpha_spec in Hx.
  destruct (ascii_letter x) eqn:Hl; [|destruct Hx].
  destruct Hx as [Hx|[]]. inversion Hx; subst.
  apply suspicious_chars_sound in Hin. tauto.
Qed.

Lemma other_chars_sound (line : str) (i : nat) (c : char) (h : str) :
  In (i, c, h) (other_chars ext line) ->
  nth_error line i = Some c /\ mem c ALLOWED_CHARS = false
  /\ ascii_letter c = false /\ mem c normal_symbols = false /\ h = hex c.
Proof.
  unfold other_chars. rewrite filter_In, in_flat_map.
  intros [[[[j x] o] [Hin Hx]] Hn].
  rewrite is_ascii_alpha_spec in Hx.
  destruct (ascii_letter x) eqn:Hl; [destruct Hx|].
  destruct Hx as [Hx|[]]. inversion Hx; subst.
  apply suspicious_chars_sound in Hin.
  apply negb_true_iff in Hn. tauto.
Qed.

Lemma firstn_In {A} (k : nat) (l : list A) (x : A) :
  In x (firstn k l) -> In x l.
Proof.
  revert l. induction k; intros [|y l]; simpl; try tauto.
  intros [H|H]; auto.
Qed.

(** C10. In a latin_in_russian or unusual_symbols record of a line, the list
    ['chars'] has at most 10 entries; an entry with offset [i] and character
    [c] has [line[i] = c] and [c] outside the allowed character set; [c] is
    an ASCII letter (so below 128) in a latin_in_russian record and is not
    an ASCII letter in an unusual_symbols record. *)
Theorem chars_entries_are_offending_characters (line : str) (n : Z) (a : anomaly) :
  In a (find_anomalies_in_line ext line n) ->
  a_type a = latin_in_russian \/ a_type a = unusual_symbols ->
  exists entries,
    chars a = Some entries
    /\ (length entries <= 10)%nat
    /\ forall d, In d entries ->
         nth_error line (detail_offset d) = Some (detail_char d)
         /\ mem (detail_char d) ALLOWED_CHARS = false
         /\ match a_type a with
            | latin_in_russian =>
                ascii_letter (detail_char d) = true /\ detail_char d < 128
            | _ => ascii_letter (detail_char d) = false
            end.
Proof.
  intros Hin Hk.
  apply find_anomalies_cases in Hin
    as [[-> _] | [[-> _] | [[-> _] | [-> _]]]]; cbn [a_type] in *.
  - destruct Hk; discriminate.
  - eexists. split; [reflexivity|]. split.
    + rewrite length_map. apply firstn_le_length.
    + intros d Hd. apply in_map_iff in Hd as [[i c] [<- Hic]].
      apply firstn_In, latin_chars_sound in Hic as (H1 & H2 & H3).
      cbn [detail_offset detail_char]. repeat split; auto.
      apply ascii_letter_below_128. exact H3.
  - eexists. split; [reflexivity|]. split.
    + rewrite length_map. apply firstn_le_length.
    + intros d Hd. apply in_map_iff in Hd as [[[i c] h] [<- Hic]].
      apply firstn_In, other_chars_sound in Hic as (H1 & H2 & H3 & _).
      cbn [detail_offset detail_char]. repeat split; auto.
  - destruct Hk; discriminate.
Qed.

(** ** Token-like lines *)

Lemma mem_In c l : mem c l = true <-> In c l.
Proof.
  unfold mem. rewrite existsb_exists. split.
  - intros [x [Hx He]]. apply N.eqb_eq in He. subst. exact Hx.
  - intros H. exists c. split; [exact H|apply N.eqb_refl].
Qed.

Lemma base64_char_bounds c : mem c base64_chars = true -> 43 <= c <= 122.
Proof.
  intros H. apply mem_In in H.
  assert (Hall : forallb (fun x => (43 <=? x) && (x <=? 122)) base64_chars = true)
    by (vm_compute; reflexivity).
  rewrite forallb_forall in Hall. apply Hall in H.
  apply andb_true_iff in H as [H1 H2]. apply N.leb_le in H1, H2. lia.
Qed.

Lemma printable_ascii_not_space c : 33 <= c < 128 -> isspace U c = false.
Proof.
  intros H. cbn [isspace overlay reference]. rewrite ascii_covered by lia.
  unfold in_range. apply orb_false_iff; split; apply andb_false_iff; right;
    apply N.leb_gt; lia.
Qed.

Lemma lstrip_fixed s :
  match s with [] => True | c :: _ => isspace U c = false end -> lstrip U s = s.
Proof. destruct s as [|c s]; simpl; intros H; [reflexivity|]. rewrite H. reflexivity. Qed.

Lemma strip_no_space s :
  forallb (fun c => negb (isspace U c)) s = true -> strip U s = s.
Proof.
  intros H. unfold strip, rstrip.
  assert (H1 : lstrip U s = s).
  { apply lstrip_fixed. destruct s; [exact I|]. simpl in H.
    apply andb_true_iff in H as [H _]. apply negb_true_iff in H. exact H. }
  rewrite H1.
  assert (H2 : lstrip U (rev s) = rev s).
  { apply lstrip_fixed. destruct (rev s) as [|c r] eqn:Hr; [exact I|].
    rewrite forallb_forall in H. apply negb_true_iff, H.
    apply in_rev. rewrite Hr. left. reflexivity. }
  rewrite H2. apply rev_involutive.
Qed.

Lemma try_counts_some cont prev s lo k r :
  try_counts cont prev s lo k = Some r ->
  exists j, (lo <= j <= k)%nat
            /\ cont (last_of prev (firstn j s)) (skipn j s) <> None.
Proof.
  induction k as [|k IH]; cbn [try_counts].
  - destruct (Nat.leb lo 0) eqn:Hlo.
    + destruct (cont _ _) as [[w t]|] eqn:Hc; [|discriminate].
      intros _. exists 0%nat. apply Nat.leb_le in Hlo. split; [lia|].
      rewrite Hc. discriminate.
    + discriminate.
  - destruct (Nat.leb lo (S k)) eqn:Hlo.
    + destruct (cont _ _) as [[w t]|] eqn:Hc.
      * intros _. exists (S k). apply Nat.leb_le in Hlo. split; [lia|].
        rewrite Hc. discriminate.
      * intros H. apply IH in H as [j [Hj Hc']]. exists j. split; [lia|auto].
    + intros H. apply IH in H as [j [Hj Hc']]. exists j. split; [lia|auto].
Qed.

Lemma run_length_prefix ic cs s j :
  (j <= run_length U ic cs None s)%nat ->
  forallb (in_cset U ic cs) (firstn j s) = true.
Proof.
  revert j. induction s as [|c s IH]; intros j; simpl.
  - intros H. destruct j; reflexivity.
  - destruct (in_cset U ic cs c) eqn:Hc.
    + destruct j; [reflexivity|]. simpl. intros H. rewrite Hc. apply IH. lia.
    + intros H. replace j with 0%nat by lia. reflexivity.
Qed.

Lemma at_eol_inv s c : at_eol s = true -> In c s -> c = 10.
Proof.
  destruct s as [|x [|y t]]; simpl; try discriminate.
  - intros _ [].
  - intros H [<-|[]]. apply N.eqb_eq. exact H.
Qed.

(** If ^cs{lo,}$ matches, every character is in the class, except for a final newline. *)
Lemma anchored_class_match ic cs lo s c :
  match_here U ic [Bol; Rep cs lo None; Eol] None s <> None ->
  In c s -> in_cset U ic cs c = true \/ c = 10.
Proof.
  cbn [match_here]. intros H Hin.
  destruct (try_counts _ _ _ _ _) as [r|] eqn:Ht; [|congruence].
  apply try_counts_some in Ht as [j [Hj Hc]].
  rewrite <- (firstn_skipn j s) in Hin. apply in_app_or in Hin as [Hin|Hin].
  - left. pose proof (run_length_prefix ic cs s j ltac:(lia)) as Hp.
    rewrite forallb_forall in Hp. auto.
  - right. destruct (at_eol (skipn j s)) eqn:He; [|congruence].
    eapply at_eol_inv; eauto.
Qed.

Lemma anchored_class_no_match ic cs lo s c :
  In c s -> in_cset U ic cs c = false -> c <> 10 ->
  re_match U {| ignorecase := ic; nodes := [Bol; Rep cs lo None; Eol] |} s = false.
Proof.
  intros Hin Hc Hn. unfold re_match. cbn [ignorecase nodes].
  destruct (match_here _ _ _ _ _) eqn:Hm; [|reflexivity].
  destruct (anchored_class_match ic cs lo s c) as [H|H]; congruence.
Qed.

Lemma ref_tolower_ascii c : c < 128 -> ref_tolower c < 160.
Proof.
  intros H. unfold ref_tolower.
  destruct (ascii_upper c) eqn:H1; [lia|].
  destruct (in_range 1024 1039 c) eqn:H2; [apply in_range_spec in H2; lia|].
  destruct (in_range 1040 1071 c) eqn:H3; [apply in_range_spec in H3; lia|].
  lia.
Qed.

Lemma tolower_ascii c : c < 128 -> tolower U c < 160.
Proof.
  intros H. cbn [tolower overlay reference]. rewrite ascii_covered by exact H.
  apply ref_tolower_ascii. exact H.
Qed.

(** A pattern that starts with a Cyrillic letter cannot match at an ASCII character. *)
Lemma cyrillic_head_no_match (xs : list char) rest c s :
  forallb (fun x => 160 <=? tolower U x) xs = true -> c < 128 ->
  re_match U {| ignorecase := true; nodes := Bol :: One (cls (chars_of xs)) :: rest |}
           (c :: s) = false.
Proof.
  intros Hx Hc. unfold re_match. cbn [ignorecase nodes match_here].
  assert (He : in_cset U true (cls (chars_of xs)) c = false).
  { unfold in_cset, cls, chars_of. cbn [negated items xorb].
    apply not_true_is_false. intros E. apply existsb_exists in E as [it [Hin E]].
    apply in_map_iff in Hin as [x [<- Hin]].
    cbn [in_item] in E. apply N.eqb_eq in E.
    rewrite forallb_forall in Hx. apply Hx in Hin. apply N.leb_le in Hin.
    pose proof (tolower_ascii c Hc). lia. }
  rewrite He. reflexivity.
Qed.

Lemma base64_not_chapter_pattern s :
  s <> [] -> forallb (fun c => mem c base64_chars) s = true ->
  mem 61 s || mem 47 s = true ->
  existsb (fun pattern => re_match U pattern s) CHAPTER_PATTERNS = false.
Proof.
  intros Hne Hall Hsep.
  assert (Hbad : exists c, In c s /\ (c = 61 \/ c = 47)).
  { apply orb_true_iff in Hsep as [H|H]; apply mem_In in H; eauto. }
  destruct Hbad as [c0 [Hin0 Hc0]].
  destruct s as [|c s']; [congruence|].
  assert (Hc : c < 128).
  { simpl in Hall. apply andb_true_iff in Hall as [Hc _].
    apply base64_char_bounds in Hc. lia. }
  let x := eval vm_compute in CHAPTER_PATTERNS in change CHAPTER_PATTERNS with x.
  cbn [existsb].
  rewrite (anchored_class_no_match true _ 1 (c :: s') c0 Hin0);
    [| destruct Hc0; subst; vm_compute; reflexivity | destruct Hc0; subst; discriminate].
  rewrite (anchored_class_no_match true _ 1 (c :: s') c0 Hin0);
    [| destruct Hc0; subst; vm_compute; reflexivity | destruct Hc0; subst; discriminate].
  change (One {| negated := false; items := [IChar 1043] |}) with (One (cls (chars_of [1043]))).
  change (One {| negated := false; items := [IChar 1063] |}) with (One (cls (chars_of [1063]))).
  change (One {| negated := false; items := [IChar 1043; IChar 1063] |}) with (One (cls (chars_of [1043; 1063]))).
  rewrite !cyrillic_head_no_match by (try exact Hc; vm_compute; reflexivity).
  reflexivity.
Qed.

Lemma base64_line_stripped (s : str) :
  forallb (fun c => mem c base64_chars) s = true -> strip U s = s.
Proof.
  intros H. apply strip_no_space. rewrite forallb_forall in *.
  intros c Hc. apply H, base64_char_bounds in Hc.
  rewrite printable_ascii_not_space by lia. reflexivity.
Qed.

(** X1. A line whose trimmed content has more than 40 characters, all of
    the base64 alphabet, with a [=] or a [/] among them, gets the token_like
    record and nothing else. *)
Lemma long_base64_line_is_token (line : str) (n : Z) :
  (40 < length (strip U line))%nat ->
  forallb (fun c => mem c base64_chars) (strip U line) = true ->
  mem 61 (strip U line) || mem 47 (strip U line) = true ->
  find_anomalies_in_line ext line n = [token_record line n].
Proof.
  intros Hlen Hall Hsep. rewrite find_anomalies_in_line_eq.
  assert (Hne : strip U line <> []).
  { intros E. rewrite E in Hlen. simpl in Hlen. lia. }
  assert (Ht : is_likely_chapter_title ext line = false).
  { unfold is_likely_chapter_title.
    rewrite base64_not_chapter_pattern by assumption.
    destruct (strip U line) as [|c s] eqn:Hs; [congruence|]. cbn [is_empty].
    assert (Hl : Nat.ltb (length (c :: s)) 30 = false)
      by (apply Nat.ltb_ge; lia).
    rewrite Hl. reflexivity. }
  assert (He : is_empty (strip U line) = false).
  { destruct (strip U line); [congruence|reflexivity]. }
  rewrite He, Ht. cbn [orb].
  assert (Hb : is_base64_like ext (strip U line) = true).
  { unfold is_base64_like. rewrite (base64_line_stripped _ Hall).
    assert (Hl : Nat.ltb (length (strip U line)) 40 = false)
      by (apply Nat.ltb_ge; lia).
    rewrite Hl, Hall, Hsep. apply Nat.ltb_lt in Hlen. rewrite Hlen.
    reflexivity. }
  rewrite Hb. reflexivity.
Qed.

(** C1 (the classifier misses it). The line of 39 letters A followed by [=]
    has a trimmed content of exactly 40 characters of the base64 alphabet
    with a [=] in it, and gets no record at all: [is_base64_like] lets 40
    characters through its first test ([len(text) < 40]) and rejects them
    in its last one ([len(text.strip()) > 40]). *)
Theorem forty_character_token_gets_no_record (n : Z) :
  let line := repeat_str (u8 "A") 39 ++ u8 "=" in
  length (strip U line) = 40%nat
  /\ forallb (fun c => mem c base64_chars) (strip U line) = true
  /\ mem 61 (strip U line) = true
  /\ find_anomalies_in_line ext line n = [].
Proof. vm_compute. repeat split. Qed.

(** ** The Cyrillic signal *)

(** X2. A line without any character of RUSSIAN_CHARS (Cyrillic letters
    and digits) gets neither a latin_in_russian nor an unusual_symbols
    record. *)
Lemma no_russian_char_no_charset_record (line : str) (n : Z) (a : anomaly) :
  has_russian line = false ->
  In a (find_anomalies_in_line ext line n) ->
  a_type a <> latin_in_russian /\ a_type a <> unusual_symbols.
Proof.
  intros Hr Hin.
  apply find_anomalies_cases in Hin
    as [[-> _] | [[-> Hc] | [[-> Hc] | [-> _]]]]; cbn [a_type].
  - split; discriminate.
  - unfold latin_condition in Hc. rewrite Hr, andb_false_r in Hc. discriminate.
  - unfold unusual_condition in Hc. rewrite Hr, andb_false_r in Hc.
    discriminate.
  - split; discriminate.
Qed.

(** C2 (the classifier reports it). The line [Hello world 1] has no Cyrillic
    character and gets a latin_in_russian record: [has_russian] looks the
    characters up in RUSSIAN_CHARS, which holds the ten digits too. *)
Theorem digit_line_without_cyrillic_gets_latin_record (n : Z) :
  let line := u8 "Hello world 1" in
  existsb is_cyrillic line = false
  /\ find_anomalies_in_line ext line n = [latin_record line n].
Proof. vm_compute. split; reflexivity. Qed.

(** ** The scenario of Latin letters in a Cyrillic sentence *)

(** C5, amended. The line [Привет XYZ мир] has 3 Latin letters, which is
    not more than 3, and gets no record, whatever the line number; with a
    fourth Latin letter, [Привет WXYZ мир] gets exactly one record, of kind
    latin_in_russian, with that line number and the 4 offsets and letters
    in ['chars']. *)
Theorem latin_scenario_needs_four_letters (n : Z) :
  find_anomalies_in_line ext (u8 "Привет XYZ мир") n = []
  /\ find_anomalies_in_line ext (u8 "Привет WXYZ мир") n =
     [ {| a_type := latin_in_russian; line_num := n;
          chars := Some [Pair 7 87; Pair 8 88; Pair 9 89; Pair 10 90];
          line_text := u8 "Привет WXYZ мир" |} ].
Proof. vm_compute. split; reflexivity. Qed.

(** ** Normal Latin usage *)

Lemma upper_of_letter (c l : char) :
  ref_tolower c = l -> ascii_lower l = true -> upper U c = [l - 32].
Proof.
  intros Hc Hl. apply in_range_spec in Hl.
  unfold ref_tolower in Hc.
  destruct (ascii_upper c) eqn:H1.
  - apply in_range_spec in H1. cbn [upper overlay reference].
    rewrite ascii_covered by lia. unfold ref_toupper.
    assert (E1 : ascii_lower c = false).
    { apply not_true_is_false. intros E. apply in_range_spec in E. lia. }
    assert (E2 : in_range 1104 1119 c = false).
    { apply not_true_is_false. intros E. apply in_range_spec in E. lia. }
    assert (E3 : in_range 1072 1103 c = false).
    { apply not_true_is_false. intros E. apply in_range_spec in E. lia. }
    rewrite E1, E2, E3. f_equal. lia.
  - destruct (in_range 1024 1039 c) eqn:H2; [apply in_range_spec in H2; lia|].
    destruct (in_range 1040 1071 c) eqn:H3; [apply in_range_spec in H3; lia|].
    subst l. cbn [upper overlay reference].
    rewrite ascii_covered by lia. unfold ref_toupper.
    assert (E1 : ascii_lower c = true) by (apply in_range_spec; lia).
    rewrite E1. reflexivity.
Qed.

(** A word equal to ISBN up to case is found in [common_abbrevs] once
    upper-cased. *)
Lemma isbn_is_an_abbreviation (w : str) :
  eq_ignoring_case w (u8 "ISBN") = true ->
  str_mem (str_upper U w) common_abbrevs = true.
Proof.
  unfold eq_ignoring_case.
  let x := eval vm_compute in (map ref_tolower (u8 "ISBN")) in
    change (map ref_tolower (u8 "ISBN")) with x.
  destruct w as [|c1 [|c2 [|c3 [|c4 [|c5 w]]]]]; cbn [map str_eqb];
    rewrite ?andb_false_r; try discriminate.
  rewrite !andb_true_iff, !N.eqb_eq. intros (H1 & H2 & H3 & H4 & _).
  unfold str_upper. cbn [flat_map].
  rewrite (upper_of_letter c1 _ H1), (upper_of_letter c2 _ H2),
    (upper_of_letter c3 _ H3), (upper_of_letter c4 _ H4)
    by (vm_compute; reflexivity).
  vm_compute. reflexivity.
Qed.

Lemma normal_latin_usage_by_words (line : str) :
  re_findall U latin_word_re line <> [] ->
  forallb (fun w => str_mem (str_upper U w) common_abbrevs
                    || Nat.leb (length w) 3)
          (re_findall U latin_word_re line) = true ->
  is_normal_latin_usage ext line = true.
Proof.
  intros Hne Hall. unfold is_normal_latin_usage.
  destruct (re_match U roman_numeral_re (strip U line)); [reflexivity|].
  destruct (re_match U parenthesized_re (strip U line)); [reflexivity|].
  rewrite Hall.
  destruct (re_findall U latin_word_re line); [congruence|]. reflexivity.
Qed.

Lemma has_kind_latin (line : str) (n : Z) :
  has_kind latin_in_russian (find_anomalies_in_line ext line n)
  = true ->
  latin_condition line = true.
Proof.
  unfold has_kind. rewrite existsb_exists. intros [a [Hin Hk]].
  apply find_anomalies_cases in Hin
    as [[-> _] | [[-> Hc] | [[-> _] | [-> _]]]]; cbn [a_type kind_eqb] in Hk;
    try discriminate.
  exact Hc.
Qed.

(** C9, amended. When the pattern \b[A-Za-z]+\b finds at least one word in
    the line and every word it finds has at most 3 letters or is ISBN up to
    case, the line gets no latin_in_russian record, however many Latin
    letters it holds and whatever its line number. *)
Theorem short_words_are_normal_latin_usage (line : str) (n : Z) :
  re_findall U latin_word_re line <> [] ->
  (forall w, In w (re_findall U latin_word_re line) ->
             (length w <= 3)%nat \/ eq_ignoring_case w (u8 "ISBN") = true) ->
  has_kind latin_in_russian (find_anomalies_in_line ext line n) = false.
Proof.
  intros Hne Hw.
  assert (Hn : is_normal_latin_usage ext line = true).
  { apply normal_latin_usage_by_words; [exact Hne|].
    apply forallb_forall. intros w Hwin. apply orb_true_iff.
    destruct (Hw w Hwin) as [H|H].
    - right. apply Nat.leb_le. exact H.
    - left. apply isbn_is_an_abbreviation. exact H. }
  apply not_true_is_false. intros Hk. apply has_kind_latin in Hk.
  unfold latin_condition in Hk. rewrite Hn in Hk. cbn [negb] in Hk.
  rewrite andb_false_r in Hk. discriminate.
Qed.

(** ** The scan of a file *)

Lemma kind_eqb_eq a b : kind_eqb a b = true <-> a = b.
Proof. destruct a, b; simpl; split; intros H; congruence. Qed.

Lemma key_eqb_eq a b : key_eqb a b = true <-> a = b.
Proof.
  destruct a as [n k], b as [m j]. unfold key_eqb. cbn [fst snd].
  rewrite andb_true_iff, Z.eqb_eq, kind_eqb_eq. split.
  - intros [-> ->]. reflexivity.
  - intros H. inversion H. auto.
Qed.

Lemma key_mem_In k seen : key_mem k seen = true <-> In k seen.
Proof.
  unfold key_mem. rewrite existsb_exists. split.
  - intros [x [Hx He]]. apply key_eqb_eq in He. subst. exact Hx.
  - intros H. exists k. split; [exact H|apply key_eqb_eq; reflexivity].
Qed.

Lemma keys_of_line line n :
  exists ks, NoDup ks /\ map key_of (find_anomalies_in_line ext line n) = map (pair n) ks.
Proof.
  rewrite find_anomalies_in_line_eq.
  destruct (_ || _). { exists []. split; constructor. }
  destruct (is_base64_like _ _).
  { exists [token_like]. split; [repeat constructor; simpl; tauto|reflexivity]. }
  exists ((if latin_condition line then [latin_in_russian] else [])
          ++ (if unusual_condition line then [unusual_symbols] else [])
          ++ (if run_condition line then [multiple_unusual_chars] else [])).
  split.
  - destruct (latin_condition line), (unusual_condition line),
      (run_condition line); cbn [app];
      repeat constructor; simpl; intuition discriminate.
  - destruct (latin_condition line), (unusual_condition line),
      (run_condition line); reflexivity.
Qed.

Lemma add_anomalies_fresh n anomalies ks all seen :
  NoDup ks -> map key_of anomalies = map (pair n) ks ->
  (forall k, In k ks -> ~ In (n, k) seen) ->
  fst (add_anomalies n anomalies (all, seen)) = all ++ anomalies
  /\ (forall x, In x (snd (add_anomalies n anomalies (all, seen))) ->
                In x seen \/ fst x = n).
Proof.
  revert ks all seen.
  induction anomalies as [|a l IH]; intros ks all seen Hnd Hk Hs.
  - simpl. rewrite app_nil_r. auto.
  - destruct ks as [|k ks]; [discriminate|]. cbn [map] in Hk.
    injection Hk as Hn Ht Hl. apply NoDup_cons_iff in Hnd as [Hnk Hnd'].
    unfold add_anomalies. cbn [fold_left].
    assert (Hfresh : key_mem (n, a_type a) seen = false).
    { apply not_true_is_false. intros E. apply key_mem_In in E.
      apply (Hs (a_type a)); [left; auto|exact E]. }
    rewrite Hfresh. cbn [negb].
    change (fold_left _ l ?st) with (add_anomalies n l st).
    destruct (IH ks (all ++ [a]) ((n, a_type a) :: seen) Hnd' Hl) as [H1 H2].
    { intros k' Hk' [E|E].
      - injection E as E. rewrite <- E, Ht in Hk'. contradiction.
      - apply (Hs k'); [right; exact Hk'|exact E]. }
    split.
    + rewrite H1, <- app_assoc. reflexivity.
    + intros x Hx. apply H2 in Hx as [[<-|Hx]|Hx]; auto.
Qed.

Lemma scan_lines_keeps_all lines : forall n all seen,
  (forall x, In x seen -> (fst x < n)%Z) ->
  fst (scan_lines ext n lines (all, seen)) = all ++ all_records ext n lines.
Proof.
  induction lines as [|line rest IH]; intros n all seen Hs; cbn [scan_lines all_records].
  - rewrite app_nil_r. reflexivity.
  - destruct (keys_of_line line n) as [ks [Hnd Hk]].
    destruct (add_anomalies_fresh n _ ks all seen Hnd Hk) as [H1 H2].
    { intros k _ Hin. apply Hs in Hin. cbn [fst] in Hin. lia. }
    destruct (add_anomalies n _ (all, seen)) as [all' seen'] eqn:Hadd.
    cbn [fst snd] in H1, H2. rewrite IH.
    + rewrite H1, <- app_assoc. reflexivity.
    + intros x Hx. apply H2 in Hx as [Hx|Hx]; [apply Hs in Hx|]; lia.
Qed.

Lemma all_records_line_numbers lines : forall n a,
  In a (all_records ext n lines) -> (n <= line_num a)%Z.
Proof.
  induction lines as [|line rest IH]; intros n a; cbn [all_records]; [intros []|].
  intros H. apply in_app_or in H as [H|H].
  - destruct (keys_of_line line n) as [ks [_ Hk]].
    apply (in_map key_of) in H. rewrite Hk in H.
    apply in_map_iff in H as [k [E _]]. inversion E. lia.
  - apply IH in H. lia.
Qed.

Lemma all_records_NoDup lines : forall n, NoDup (map key_of (all_records ext n lines)).
Proof.
  induction lines as [|line rest IH]; intros n; cbn [all_records]; [constructor|].
  rewrite map_app.
  destruct (keys_of_line line n) as [ks [Hnd Hk]].
  apply NoDup_app; [| apply IH |].  
  - rewrite Hk. apply NoDup_map_NoDup_ForallPairs; [|exact Hnd].
    intros x y _ _ E. injection E as E. exact E.
  - intros x Hx Hy. rewrite Hk in Hx. apply in_map_iff in Hx as [k [<- _]].
    apply in_map_iff in Hy as [a [E Ha]]. apply all_records_line_numbers in Ha.
    inversion E. lia.
Qed.

Lemma count_key_zero k l : ~ In k (map key_of l) -> count_key k l = 0%nat.
Proof.
  unfold count_key. induction l as [|x l IH]; cbn [map filter]; intros H;
    [reflexivity|].
  destruct (key_eqb (key_of x) k) eqn:E.
  - apply key_eqb_eq in E. exfalso. apply H. left. exact E.
  - apply IH. intros Hin. apply H. right. exact Hin.
Qed.

Lemma count_key_one l a :
  NoDup (map key_of l) -> In a l -> count_key (key_of a) l = 1%nat.
Proof.
  induction l as [|x l IH]; cbn [map]; intros Hnd Hin; [destruct Hin|].
  apply NoDup_cons_iff in Hnd as [Hx Hnd].
  unfold count_key. cbn [filter]. destruct Hin as [->|Hin].
  - assert (E : key_eqb (key_of a) (key_of a) = true)
      by (apply key_eqb_eq; reflexivity).
    rewrite E. cbn [length]. f_equal. apply count_key_zero. exact Hx.
  - destruct (key_eqb (key_of x) (key_of a)) eqn:E.
    + apply key_eqb_eq in E. exfalso. apply Hx. rewrite E.
      apply in_map. exact Hin.
    + apply IH; assumption.
Qed.

Lemma has_kind_record k line n :
  has_kind k (find_anomalies_in_line ext line n) = true ->
  exists a, In a (find_anomalies_in_line ext line n) /\ key_of a = (n, k).
Proof.
  unfold has_kind. rewrite existsb_exists. intros [a [Hin Hk]].
  apply kind_eqb_eq in Hk. exists a. split; [exact Hin|].
  destruct (keys_of_line line n) as [ks [_ Hks]].
  apply (in_map key_of) in Hin. rewrite Hks in Hin.
  apply in_map_iff in Hin as [k' [E _]].
  unfold key_of in *. injection E as E1 E2. rewrite <- E1, Hk. reflexivity.
Qed.

Lemma all_records_nth lines : forall n i line a,
  nth_error lines i = Some line ->
  In a (find_anomalies_in_line ext line (n + Z.of_nat i)) ->
  In a (all_records ext n lines).
Proof.
  induction lines as [|l rest IH]; intros n i line a Hn Hin.
  - destruct i; discriminate.
  - cbn [all_records]. apply in_or_app. destruct i as [|i].
    + injection Hn as ->. left. rewrite Z.add_0_r in Hin. exact Hin.
    + right. apply (IH (n + 1)%Z i line); [exact Hn|].
      replace (n + 1 + Z.of_nat i)%Z with (n + Z.of_nat (S i))%Z by lia.
      exact Hin.
Qed.

Lemma scan_eq lines :
  scan ext lines = Scanned (length lines) (all_records ext 1 lines).
Proof.
  unfold scan. f_equal.
  rewrite scan_lines_keeps_all; [reflexivity|]. intros x [].
Qed.

Lemma analyze_file_scanned fs filepath total anomalies :
  analyze_file ext fs filepath = Scanned total anomalies ->
  exists lines,
    (fs filepath utf_8 = Lines lines \/ fs filepath cp1251 = Lines lines)
    /\ total = length lines /\ anomalies = all_records ext 1 lines.
Proof.
  unfold analyze_file.
  destruct (fs filepath utf_8) as [lines|e|e] eqn:H8.
  - rewrite scan_eq. intros E. injection E as <- <-. exists lines. auto.
  - destruct (fs filepath cp1251) as [lines|e'|e'] eqn:H1; try discriminate.
    rewrite scan_eq. intros E. injection E as <- <-. exists lines. auto.
  - discriminate.
Qed.

(** C4. The anomaly list of a scanned file has at most one record for each
    pair of a line number and a kind; in particular a line that gets both an
    unusual_symbols and a multiple_unusual_chars record from the classifier
    has exactly one record of each of the two kinds in the list. *)
Theorem analyze_file_one_record_per_line_and_kind
    (fs : filesystem) (filepath : str) (total : nat) (anomalies : list anomaly) :
  analyze_file ext fs filepath = Scanned total anomalies ->
  NoDup (map key_of anomalies)
  /\ exists lines,
       (fs filepath utf_8 = Lines lines \/ fs filepath cp1251 = Lines lines)
       /\ forall i line,
            nth_error lines i = Some line ->
            has_kind unusual_symbols
              (find_anomalies_in_line ext line (Z.of_nat i + 1)) = true ->
            has_kind multiple_unusual_chars
              (find_anomalies_in_line ext line (Z.of_nat i + 1)) = true ->
            count_key (Z.of_nat i + 1, unusual_symbols)%Z anomalies = 1%nat
            /\ count_key (Z.of_nat i + 1, multiple_unusual_chars)%Z anomalies = 1%nat.
Proof.
  intros H. apply analyze_file_scanned in H as [lines [Hfs [_ ->]]].
  pose proof (all_records_NoDup lines 1) as Hnd.
  split; [exact Hnd|]. exists lines. split; [exact Hfs|].
  intros i line Hn Hu Hm.
  apply has_kind_record in Hu as [a [Ha Hka]].
  apply has_kind_record in Hm as [b [Hb Hkb]].
  rewrite <- Hka, <- Hkb.
  split; apply count_key_one; try exact Hnd;
    apply (all_records_nth lines 1 i line); try exact Hn;
    rewrite Z.add_comm; assumption.
Qed.

(** ** The run over the files *)

Lemma insert_name_In x l y : In y (insert_name x l) <-> y = x \/ In y l.
Proof.
  induction l as [|z l IH]; cbn [insert_name].
  - simpl. intuition auto.
  - destruct (str_ltb z x); cbn [In]; [rewrite IH|]; intuition auto.
Qed.

Lemma sorted_In l y : In y (sorted l) <-> In y l.
Proof.
  induction l as [|x l IH]; cbn [sorted fold_right]; [tauto|].
  fold (sorted l). rewrite insert_name_In, IH. cbn [In]. intuition auto.
Qed.

Lemma main_loop_spec fs files : forall out fwa,
  (forall f anomalies,
     In (f, anomalies) (snd (main_loop ext fs files out fwa)) <->
     In (f, anomalies) fwa
     \/ (In f files /\ anomalies <> []
         /\ exists total, analyze_file ext fs f = Scanned total anomalies))
  /\ (forall f e,
     In (ReadFailed f e) (fst (main_loop ext fs files out fwa)) <->
     In (ReadFailed f e) out
     \/ (In f files /\ analyze_file ext fs f = Error e)).
Proof.
  induction files as [|x files IH]; intros out fwa; cbn [main_loop].
  - cbn [fst snd In]. split; intros; split; intros H; auto;
      destruct H as [H|[[] _]]; exact H.
  - destruct (analyze_file ext fs x) as [err|total anoms] eqn:Hx.
    + destruct (IH (out ++ [ReadFailed x err]) fwa) as [H1 H2]. split.
      * intros f a. rewrite H1. cbn [In]. split.
        -- intros [H|(Hin & Hne & t & Ht)]; [left; exact H|right].
           split; [right; exact Hin|]. split; [exact Hne|eauto].
        -- intros [H|([<-|Hin] & Hne & t & Ht)]; [left; exact H| |].
           ++ congruence.
           ++ right. split; [exact Hin|]. split; [exact Hne|eauto].
      * intros f e. rewrite H2, in_app_iff. cbn [In]. split.
        -- intros [[H|[H|[]]]|[Hin He]]; auto.
           injection H as <- <-. right. auto.
        -- intros [H|[[<-|Hin] He]]; auto.
           left. right. left. congruence.
    + destruct anoms as [|a0 anoms]; cbn [is_empty negb].
      * destruct (IH out fwa) as [H1 H2]. split.
        -- intros f a. rewrite H1. cbn [In]. split.
           ++ intros [H|(Hin & Hne & t & Ht)]; [left; exact H|right].
              split; [right; exact Hin|]. split; [exact Hne|eauto].
           ++ intros [H|([<-|Hin] & Hne & t & Ht)]; [left; exact H| |].
              ** rewrite Hx in Ht. injection Ht as _ <-. congruence.
              ** right. split; [exact Hin|]. split; [exact Hne|eauto].
        -- intros f e. rewrite H2. cbn [In]. split.
           ++ intros [H|[Hin He]]; auto.
           ++ intros [H|[[<-|Hin] He]]; auto. congruence.
      * destruct (IH (out ++ [FileSection x total (a0 :: anoms)])
                     (fwa ++ [(x, a0 :: anoms)])) as [H1 H2]. split.
        -- intros f a. rewrite H1, in_app_iff. cbn [In]. split.
           ++ intros [[H|[H|[]]]|(Hin & Hne & t & Ht)]; auto.
              ** injection H as <- <-. right. split; [left; reflexivity|].
                 split; [discriminate|eauto].
              ** right. split; [right; exact Hin|]. split; [exact Hne|eauto].
           ++ intros [H|([<-|Hin] & Hne & t & Ht)]; auto.
              ** rewrite Hx in Ht. injection Ht as _ <-. auto.
              ** right. split; [exact Hin|]. split; [exact Hne|eauto].
        -- intros f e. rewrite H2, in_app_iff. cbn [In]. split.
           ++ intros [[H|[H|[]]]|[Hin He]]; auto. discriminate.
           ++ intros [H|[[<-|Hin] He]]; auto. congruence.
Qed.

(** C6. [analyze_file] reads the file as UTF-8; it tries code page 1251
    only after a decoding error of the first attempt; when the second
    attempt fails too, or the first fails otherwise, it returns an error
    with a message and no scan result.  In the run such a file is reported
    on the console and skipped: every other file is still scanned, and the
    report holds exactly the readable files with anomalies. *)
Theorem read_failure_skips_the_file_only (fs : filesystem) :
  (forall filepath lines,
     fs filepath utf_8 = Lines lines ->
     analyze_file ext fs filepath = scan ext lines)
  /\ (forall filepath e lines,
        fs filepath utf_8 = UnicodeDecodeError e ->
        fs filepath cp1251 = Lines lines ->
        analyze_file ext fs filepath = scan ext lines)
  /\ (forall filepath e e',
        fs filepath utf_8 = UnicodeDecodeError e ->
        fs filepath cp1251 = UnicodeDecodeError e'
        \/ fs filepath cp1251 = OtherException e' ->
        analyze_file ext fs filepath
        = Error (u8 "Не удалось прочитать файл: " ++ e'))
  /\ (forall filepath e,
        fs filepath utf_8 = OtherException e ->
        analyze_file ext fs filepath
        = Error (u8 "Ошибка при чтении файла: " ++ e))
  /\ (forall txt_files,
        txt_files <> [] ->
        exists files_with_anomalies,
          report (main ext fs txt_files) = Some files_with_anomalies
          /\ (forall f anomalies,
                In (f, anomalies) files_with_anomalies <->
                In f txt_files /\ anomalies <> []
                /\ exists total,
                     analyze_file ext fs f = Scanned total anomalies)
          /\ (forall f e,
                In (ReadFailed f e) (console (main ext fs txt_files)) <->
                In f txt_files /\ analyze_file ext fs f = Error e)).
Proof.
  repeat split.
  - intros filepath lines H. unfold analyze_file. rewrite H. reflexivity.
  - intros filepath e lines H H'. unfold analyze_file. rewrite H, H'.
    reflexivity.
  - intros filepath e e' H [H'|H']; unfold analyze_file; rewrite H, H';
      reflexivity.
  - intros filepath e H. unfold analyze_file. rewrite H. reflexivity.
  - intros txt_files Hne. unfold main.
    destruct txt_files as [|x l] eqn:Hl; [congruence|]. cbn [is_empty].
    rewrite <- Hl.
    destruct (main_loop_spec fs (sorted txt_files)
                [FilesFound (length txt_files)] []) as [H1 H2].
    destruct (main_loop ext fs (sorted txt_files) _ _) as [out fwa].
    cbn [fst snd] in H1, H2. exists fwa. cbn [report console].
    split; [reflexivity|]. split.
    + intros f a. rewrite H1, sorted_In. cbn [In]. tauto.
    + intros f e. rewrite in_app_iff, H2, sorted_In. cbn [In]. split.
      * intros [[[H|[]]|H]|[H|[]]]; try discriminate. exact H.
      * intros H. left. right. exact H.
Qed.
End ClassifierFacts.

(* ================================================================== *)
(** * Properties of the summary *)
(* ================================================================== *)

Module SummaryFacts.
Import CreateSummary.

Lemma insert_by_count_In x l e : In e (insert_by_count x l) <-> e = x \/ In e l.
Proof.
  induction l as [|y l IH]; cbn [insert_by_count].
  - simpl. intuition auto.
  - destruct (Nat.ltb (snd x) (snd y)); cbn [In]; [rewrite IH|]; intuition auto.
Qed.

Lemma sort_by_count_In l e : In e (sort_by_count l) <-> In e l.
Proof.
  induction l as [|x l IH]; cbn [sort_by_count fold_right]; [tauto|].
  fold (sort_by_count l). rewrite insert_by_count_In, IH. cbn [In]. intuition auto.
Qed.

Lemma insert_by_count_sorted x l :
  StronglySorted by_count_desc l -> StronglySorted by_count_desc (insert_by_count x l).
Proof.
  induction l as [|y l IH]; cbn [insert_by_count]; intros Hs.
  - constructor; constructor.
  - destruct (Nat.ltb (snd x) (snd y)) eqn:E.
    + apply StronglySorted_inv in Hs as [Hs Hy]. constructor; [auto|].
      apply Forall_forall. intros e He. apply insert_by_count_In in He as [->|He].
      * apply Nat.ltb_lt in E. unfold by_count_desc. lia.
      * rewrite Forall_forall in Hy. auto.
    + apply Nat.ltb_ge in E. constructor; [exact Hs|].
      apply StronglySorted_inv in Hs as [_ Hy].
      constructor; [exact E|].
      rewrite Forall_forall in *. intros e He. apply Hy in He.
      unfold by_count_desc in *. lia.
Qed.

Lemma sort_by_count_sorted l : StronglySorted by_count_desc (sort_by_count l).
Proof.
  induction l as [|x l IH]; cbn [sort_by_count fold_right]; [constructor|].
  apply insert_by_count_sorted. exact IH.
Qed.






(** ** Where a section stands in the summary *)

Lemma str_eqb_same (s t : str) : str_eqb s t = true -> s = t.
Proof.
  revert t. induction s as [|a s IH]; intros [|b t]; cbn [str_eqb];
    try discriminate; [reflexivity|].
  intros H. apply andb_true_iff in H as [H1 H2]. apply N.eqb_eq in H1.
  f_equal; auto.
Qed.

Lemma str_eqb_self (s : str) : str_eqb s s = true.
Proof.
  induction s as [|a s IH]; cbn [str_eqb]; [reflexivity|].
  rewrite N.eqb_refl. exact IH.
Qed.

Lemma lines_after_skips (h : str) (pre post : list str) :
  ~ In h pre -> lines_after h (pre ++ h :: post) = post.
Proof.
  induction pre as [|a pre IH]; cbn [app lines_after]; intros H.
  - rewrite str_eqb_self. reflexivity.
  - destruct (str_eqb a h) eqn:E.
    + apply str_eqb_same in E. exfalso. apply H. left. exact E.
    + apply IH. intros Hin. apply H. right. exact Hin.
Qed.




Lemma lines_after_third (h x y r : str) (A0 B0 B1 post : list str) :
  ~ In h (A0 ++ x :: B0 ++ y :: B1 ++ [r]) ->
  lines_after h (A0 ++ x :: B0 ++ y :: B1 ++ r :: h :: post) = post.
Proof.
  intros H.
  replace (A0 ++ x :: B0 ++ y :: B1 ++ r :: h :: post)
    with ((A0 ++ x :: B0 ++ y :: B1 ++ [r]) ++ h :: post).
  - apply lines_after_skips, H.
  - rewrite <- app_assoc. cbn [app]. rewrite <- app_assoc. cbn [app].
    rewrite <- app_assoc. reflexivity.
Qed.

(** A line is told from the lines of a list by its first character. *)
Lemma not_In_by_head (c : char) (h : str) (ls : list str) :
  hd 0 h = c -> Forall (fun l => hd 0 l <> c) ls -> ~ In h ls.
Proof.
  intros Hh HF Hin. rewrite Forall_forall in HF. exact (HF h Hin Hh).
Qed.

Lemma bullets_heads (c : char) (word : string) (files : list (str * nat)) :
  c <> 32 -> Forall (fun l => hd 0 l <> c) (map (bullet word) files).
Proof.
  intros H. apply Forall_forall. intros l Hl.
  apply in_map_iff in Hl as [e [<- _]].
  replace (hd 0 (bullet word e)) with 32 by reflexivity. congruence.
Qed.

Lemma top20_section_heads (c : char) (files : list (str * nat)) :
  c <> 0 -> c <> 32 -> c <> 1053 ->
  Forall (fun l => hd 0 l <> c) (top20_section files).
Proof.
  intros H0 H32 HN. unfold top20_section.
  destruct (negb (FindAnomalies.is_empty files)).
  - apply Forall_app. split.
    { apply Forall_cons;
        [replace (hd 0 (u8 "Найдено файлов: " ++ str_of_nat (length files)))
           with 1053 by reflexivity; congruence|].
      apply Forall_cons; [cbn [hd]; congruence|apply Forall_nil]. }
    apply Forall_app. split; [apply bullets_heads, H32|].
    destruct (Nat.ltb 20 (length files)); [|apply Forall_nil].
    apply Forall_cons; [|apply Forall_nil].
    replace (hd 0 (u8 "  ... и еще " ++ str_of_nat (length files - 20) ++ u8 " файлов"))
      with 32 by reflexivity.
    congruence.
  - apply Forall_cons; [|apply Forall_nil].
    replace (hd 0 (u8 "  Аномалии не найдены")) with 32 by reflexivity. congruence.
Qed.

Lemma full_section_heads (c : char) (found word none : string)
    (files : list (str * nat)) :
  c <> 0 -> c <> 32 -> c <> 1053 ->
  (forall r, hd 0 (u8 found ++ r) = 1053) -> hd 0 (u8 none) = 32 ->
  Forall (fun l => hd 0 l <> c) (full_section found word none files).
Proof.
  intros H0 H32 HN Hf Hn. unfold full_section.
  destruct (negb (FindAnomalies.is_empty files)).
  - apply Forall_app. split; [|apply bullets_heads, H32].
    apply Forall_cons; [rewrite Hf; congruence|].
    apply Forall_cons; [cbn [hd]; congruence|apply Forall_nil].
  - apply Forall_cons; [rewrite Hn; congruence|apply Forall_nil].
Qed.

(** The lines of the summary before the heading of section 3. *)
Definition before_section3 (data : report_data) : list str :=
  [rule 61; u8 "ИТОГОВЫЙ ОТЧЕТ ОБ АНОМАЛИЯХ В ТЕКСТОВЫХ ФАЙЛАХ"; rule 61; []]
  ++ [u8 "1. КРИТИЧНЫЕ АНОМАЛИИ: ТОКЕНЫ (base64/непонятные строки)"; rule 45]
  ++ full_section "Найдено файлов с токенами: " "токенов" "  Токены не найдены"
       (files_with_tokens data)
  ++ [[]]
  ++ [u8 "2. МНОЖЕСТВЕННЫЕ НЕОБЫЧНЫЕ СИМВОЛЫ"; rule 45]
  ++ full_section "Найдено файлов: " "случаев" "  Аномалии не найдены"
       (files_with_multiple_unusual data)
  ++ [[]].

(** The lines of the summary after the heading of the statistics. *)
Definition statistics_block (data : report_data) : list str :=
  [rule 61;
   u8 "Всего файлов с аномалиями: " ++ str_of_nat (length data);
   u8 "Файлов с токенами: " ++ str_of_nat (length (files_with_tokens data));
   u8 "Файлов с множественными необычными символами: "
     ++ str_of_nat (length (files_with_multiple_unusual data));
   u8 "Файлов с большим количеством необычных символов: "
     ++ str_of_nat (length (files_with_unusual_symbols data));
   u8 "Файлов с большим количеством латиницы: "
     ++ str_of_nat (length (files_with_latin data));
   [];
   u8 "ПРИМЕЧАНИЕ:";
   u8 "- Токены - это критичные аномалии (base64-строки, непонятные данные)";
   u8 "- Латиница в тексте может быть нормальной (имена собственные, цитаты)";
   u8 "- Необычные символы могут включать специальные пробелы, тире и т.д.";
   rule 61].

Lemma summary_lines_blocks (data : report_data) :
  summary_lines data
  = before_section3 data
    ++ u8 "3. ФАЙЛЫ С БОЛЬШИМ КОЛИЧЕСТВОМ НЕОБЫЧНЫХ СИМВОЛОВ (>100)"
    :: (rule 45 :: top20_section (files_with_unusual_symbols data) ++ [[]])
    ++ u8 "4. ФАЙЛЫ С БОЛЬШИМ КОЛИЧЕСТВОМ ЛАТИНИЦЫ (>50)"
    :: (rule 45 :: top20_section (files_with_latin data) ++ [[]])
    ++ rule 61 :: u8 "ОБЩАЯ СТАТИСТИКА" :: statistics_block data.
Proof.
  unfold summary_lines, before_section3, statistics_block.
  cbn [app]. rewrite <- !app_assoc. cbn [app]. rewrite <- !app_assoc. reflexivity.
Qed.

Ltac closed_head := let E := fresh in intros E; vm_compute in E; discriminate E.

Lemma before_section3_heads (c : char) (data : report_data) :
  c = 51 \/ c = 52 \/ c = 1054 ->
  Forall (fun l => hd 0 l <> c) (before_section3 data).
Proof.
  intros Hc. unfold before_section3.
  assert (H0 : c <> 0) by (destruct Hc as [-> | [-> | ->]]; discriminate).
  assert (H32 : c <> 32) by (destruct Hc as [-> | [-> | ->]]; discriminate).
  assert (HN : c <> 1053) by (destruct Hc as [-> | [-> | ->]]; discriminate).
  repeat (apply Forall_app; split);
    try (apply full_section_heads; [assumption..|intros r; reflexivity|reflexivity]);
    repeat (apply Forall_cons;
            [destruct Hc as [-> | [-> | ->]]; closed_head|]);
    apply Forall_nil.
Qed.

Lemma section_heads (c : char) (files : list (str * nat)) :
  c = 52 \/ c = 61 \/ c = 1054 ->
  Forall (fun l => hd 0 l <> c) (rule 45 :: top20_section files ++ [[]]).
Proof.
  intros Hc.
  assert (H0 : c <> 0) by (destruct Hc as [-> | [-> | ->]]; discriminate).
  assert (H32 : c <> 32) by (destruct Hc as [-> | [-> | ->]]; discriminate).
  assert (HN : c <> 1053) by (destruct Hc as [-> | [-> | ->]]; discriminate).
  apply Forall_cons; [destruct Hc as [-> | [-> | ->]]; closed_head|].
  apply Forall_app. split; [apply top20_section_heads; assumption|].
  apply Forall_cons; [cbn [hd]; congruence|apply Forall_nil].
Qed.



(** The statistics: the lines after their heading. *)
Lemma statistics_lines (data : report_data) :
  lines_after (u8 "ОБЩАЯ СТАТИСТИКА") (summary_lines data) = statistics_block data.
Proof.
  rewrite summary_lines_blocks. apply lines_after_third.
  apply (not_In_by_head 1054); [reflexivity|].
  apply Forall_app. split; [apply before_section3_heads; auto|].
  apply Forall_cons; [closed_head|].
  apply Forall_app. split; [apply section_heads; auto|].
  apply Forall_cons; [closed_head|].
  apply Forall_app. split; [apply section_heads; auto|].
  apply Forall_cons; [closed_head|apply Forall_nil].
Qed.


End SummaryFacts.

(* ================================================================== *)
(** * Worked instances *)
(* ================================================================== *)

(** A folder with a UTF-8 file, a file readable as code page 1251 only and
    a file that cannot be opened. *)
Definition sample_fs : filesystem :=
  fun filepath enc =>
    if str_eqb filepath (u8 "a.txt") then
      match enc with
      | utf_8 => Lines [u8 "ГЛАВА I"; u8 "привет @#$ мир"; u8 "Привет WXYZ мир"]
      | cp1251 => OtherException (u8 "not consulted")
      end
    else if str_eqb filepath (u8 "b.txt") then
      match enc with
      | utf_8 => UnicodeDecodeError (u8 "invalid start byte")
      | cp1251 => Lines [u8 "12"; u8 "abc1 def2 конец"]
      end
    else OtherException (u8 "Permission denied").

(** A report with one file above each threshold. *)
Definition small_report : CreateSummary.report_data :=
  [ (u8 "a.txt", CreateSummary.Build_hits [] (repeat 1%Z 101) [] []);
    (u8 "b.txt", CreateSummary.Build_hits [5%Z] (repeat 2%Z 3) (repeat 3%Z 51) []) ].

Lemma chapter_or_blank_line_witness :
  find_anomalies_in_line reference (u8 "  ГЛАВА IV  ") 12 = [].
Proof.
  apply chapter_or_blank_line_has_no_anomaly. left.
  eexists. split.
  - unfold CHAPTER_PATTERNS. cbn [map In]. right. left. reflexivity.
  - vm_compute. reflexivity.
Defined.

Lemma plain_number_line_witness :
  find_anomalies_in_line reference (u8 "   1234567890123456789012345678901234567890  ") 3 = [].
Proof.
  apply plain_number_line_has_no_anomaly. vm_compute. reflexivity.
Defined.

Lemma chars_entries_witness :
  exists entries,
    Some [Pair 7 87; Pair 8 88; Pair 9 89; Pair 10 90] = Some entries
    /\ (length entries <= 10)%nat
    /\ forall d, In d entries ->
         nth_error (u8 "Привет WXYZ мир") (detail_offset d) = Some (detail_char d)
         /\ mem (detail_char d) ALLOWED_CHARS = false
         /\ (ascii_letter (detail_char d) = true /\ detail_char d < 128).
Proof.
  apply (chars_entries_are_offending_characters reference
           (u8 "Привет WXYZ мир") 5
           {| a_type := latin_in_russian; line_num := 5;
              chars := Some [Pair 7 87; Pair 8 88; Pair 9 89; Pair 10 90];
              line_text := u8 "Привет WXYZ мир" |}).
  - vm_compute. left. reflexivity.
  - left. reflexivity.
Defined.

Lemma short_words_witness :
  has_kind latin_in_russian
    (find_anomalies_in_line reference (u8 "см. ISBN abc def xyz, далее @#$") 8) = false.
Proof.
  apply short_words_are_normal_latin_usage.
  - vm_compute. discriminate.
  - intros w Hw. vm_compute in Hw.
    destruct Hw as [<-|[<-|[<-|[<-|[]]]]].
    + right. vm_compute. reflexivity.
    + left. cbn [length]. lia.
    + left. cbn [length]. lia.
    + left. cbn [length]. lia.
Defined.

Lemma one_record_per_line_and_kind_witness :
  exists total anomalies,
    analyze_file reference sample_fs (u8 "a.txt") = Scanned total anomalies
    /\ length anomalies = 3%nat
    /\ NoDup (map key_of anomalies).
Proof.
  eexists. eexists. split; [vm_compute; reflexivity|].
  split; [reflexivity|].
  eapply proj1, (analyze_file_one_record_per_line_and_kind reference sample_fs (u8 "a.txt")).
  vm_compute. reflexivity.
Defined.

Lemma read_failure_witness :
  analyze_file reference sample_fs (u8 "a.txt")
    = scan reference [u8 "ГЛАВА I"; u8 "привет @#$ мир"; u8 "Привет WXYZ мир"]
  /\ analyze_file reference sample_fs (u8 "b.txt")
    = scan reference [u8 "12"; u8 "abc1 def2 конец"]
  /\ analyze_file reference sample_fs (u8 "c.txt")
    = Error (u8 "Ошибка при чтении файла: " ++ u8 "Permission denied")
  /\ exists files_with_anomalies,
       report (main reference sample_fs [u8 "c.txt"; u8 "b.txt"; u8 "a.txt"])
       = Some files_with_anomalies
       /\ (exists anomalies, In (u8 "b.txt", anomalies) files_with_anomalies).
Proof.
  destruct (read_failure_skips_the_file_only reference sample_fs)
    as (H1 & H2 & _ & H4 & H5).
  split; [apply H1; reflexivity|].
  split; [apply (H2 _ (u8 "invalid start byte")); reflexivity|].
  split; [apply H4; reflexivity|].
  destruct (H5 [u8 "c.txt"; u8 "b.txt"; u8 "a.txt"]) as (fwa & Hr & Hin & _);
    [discriminate|].
  exists fwa. split; [exact Hr|].
  eexists. apply Hin. split; [right; left; reflexivity|].
  split; [|eexists; vm_compute; reflexivity]. discriminate.
Defined.


(** C1..C10: the inputs on which a statement of the specification fails. *)

(** C5. The line of the scenario has 3 Latin letters and gets no record. *)
Lemma xyz_scenario_gets_no_record :
  find_anomalies_in_line reference (u8 "Привет XYZ мир") 1 = [].
Proof. vm_compute. reflexivity. Qed.


(** C9. Two lines whose Latin-letter words are all short or listed
    abbreviations and which get a latin_in_russian record all the same: in
    the first the words touch digits, so the pattern \b[A-Za-z]+\b finds no
    word at all; in the second the word is http, which is in the list in
    lower case and is looked up in upper case. *)
Lemma short_or_listed_words_get_latin_record :
  (only_short_or_abbreviated_words (u8 "abc1 def2 конец") = true
   /\ has_kind latin_in_russian
        (find_anomalies_in_line reference (u8 "abc1 def2 конец") 1) = true)
  /\ (only_short_or_abbreviated_words (u8 "привет http мир") = true
      /\ has_kind latin_in_russian
           (find_anomalies_in_line reference (u8 "привет http мир") 1) = true).
Proof. vm_compute. repeat split. Qed.

(* ================================================================== *)
(** * Further properties of the line classifier *)
(* ================================================================== *)

(** The pairs [(i, c)] of the ASCII letters of a line with their offsets. *)
Definition ascii_letter_positions (line : str) : list (nat * char) :=
  filter (fun '(i, c) => ascii_letter c) (enumerate_from 0 line).

(** The triples [(i, c, hex(ord(c)))] of the characters of a line that are
    neither allowed, nor ASCII letters, nor typographic symbols. *)
Definition odd_symbol_positions (line : str) : list (nat * char * str) :=
  map (fun '(i, c) => (i, c, hex c))
      (filter (fun '(i, c) => negb (mem c ALLOWED_CHARS)
                              && negb (ascii_letter c)
                              && negb (mem c normal_symbols))
              (enumerate_from 0 line)).

(** Three characters in a row that satisfy [p]. *)
Fixpoint has_run3 (p : char -> bool) (s : str) : bool :=
  match s with
  | a :: s' =>
      match s' with
      | b :: c :: _ => (p a && p b && p c) || has_run3 p s'
      | _ => false
      end
  | [] => false
  end.

Section RecordFacts.
Variable ext : tables.
Local Abbreviation U := (overlay ext).

(** A character that the run pattern counts: no word character, no
    whitespace, outside U+0400..U+04FF and none of the listed signs. *)
Definition is_unusual (c : char) : bool :=
  negb (isalnum U c || (c =? 95))
  && negb (isspace U c)
  && negb (in_range 0x400 0x4FF c)
  && negb (mem c (u8 ".,;:!?-" ++ [34] ++ u8 "()[]{}«»—–…°№§")).

(** The line is classified: neither blank nor a chapter heading. *)
Definition is_classified (line : str) : bool :=
  negb (is_empty (strip U line) || is_likely_chapter_title ext line).

Lemma ascii_letter_not_allowed (c : char) :
  ascii_letter c = true -> mem c ALLOWED_CHARS = false.
Proof.
  intros Hl. apply not_true_is_false. intros Hm. apply mem_In in Hm.
  assert (Hall : forallb (fun x => negb (ascii_letter x)) ALLOWED_CHARS = true)
    by (vm_compute; reflexivity).
  rewrite forallb_forall in Hall. apply Hall in Hm.
  rewrite Hl in Hm. discriminate.
Qed.

Lemma latin_chars_closed_form (line : str) :
  latin_chars ext line = ascii_letter_positions line.
Proof.
  unfold latin_chars, suspicious_chars, ascii_letter_positions.
  generalize 0%nat. induction line as [|c s IH]; intros k; cbn [enumerate_from flat_map filter];
    [reflexivity|].
  rewrite flat_map_app, IH.
  destruct (ascii_letter c) eqn:Hl.
  - rewrite (ascii_letter_not_allowed c Hl). cbn [flat_map app].
    rewrite is_ascii_alpha_spec, Hl. reflexivity.
  - destruct (mem c ALLOWED_CHARS); cbn [flat_map app]; [reflexivity|].
    rewrite is_ascii_alpha_spec, Hl. reflexivity.
Qed.

Lemma other_chars_closed_form (line : str) :
  other_chars ext line = odd_symbol_positions line.
Proof.
  unfold other_chars, suspicious_chars, odd_symbol_positions.
  generalize 0%nat.
  induction line as [|c s IH]; intros k; cbn [enumerate_from flat_map filter map];
    [reflexivity|].
  rewrite !flat_map_app, filter_app, IH.
  destruct (mem c ALLOWED_CHARS); cbn [flat_map app filter negb andb];
    [reflexivity|].
  rewrite is_ascii_alpha_spec.
  destruct (ascii_letter c); cbn [flat_map app filter negb andb];
    [reflexivity|].
  destruct (mem c normal_symbols); reflexivity.
Qed.

(** ** The run of unusual characters *)

Lemma unusual_class (c : char) :
  in_cset U false
    (ncls ([ICat Word; ICat Space; IRange 0x400 0x4FF]
           ++ chars_of (u8 ".,;:!?-" ++ [34] ++ u8 "()[]{}«»—–…°№§"))) c
  = is_unusual c.
Proof.
  unfold in_cset, ncls, is_unusual. cbn [negated items xorb].
  rewrite existsb_app. cbn [existsb in_item in_category]. rewrite orb_false_r.
  assert (E : forall l, existsb (fun it => in_item U false it c) (chars_of l)
                        = mem c l).
  { unfold chars_of, mem. induction l as [|x l IH];
      cbn [map existsb in_item]; [reflexivity|].
    rewrite IH, (N.eqb_sym x c). reflexivity. }
  rewrite E.
  destruct (isalnum U c || (c =? 95)), (isspace U c), (in_range 1024 1279 c),
    (mem c _); reflexivity.
Qed.

Lemma try_counts_total cont prev s lo k :
  (forall p t, cont p t <> None) ->
  try_counts cont prev s lo k <> None <-> (lo <= k)%nat.
Proof.
  intros Hc. split.
  - destruct (try_counts cont prev s lo k) as [r|] eqn:E; [|congruence].
    intros _. apply try_counts_some in E as [j [Hj _]]. lia.
  - intros Hle. destruct (cont (last_of prev (firstn k s)) (skipn k s))
      as [[w t]|] eqn:E; [|exfalso; eapply Hc; eauto].
    erewrite try_counts_top by eauto. discriminate.
Qed.

Lemma run_length_three ic cs s :
  (3 <= run_length U ic cs None s)%nat <->
  exists a b c t, s = a :: b :: c :: t
                  /\ in_cset U ic cs a = true /\ in_cset U ic cs b = true
                  /\ in_cset U ic cs c = true.
Proof.
  split.
  - destruct s as [|a [|b [|c t]]]; cbn [run_length option_map].
    + lia.
    + destruct (in_cset U ic cs a); lia.
    + destruct (in_cset U ic cs a); [|lia].
      destruct (in_cset U ic cs b); lia.
    + destruct (in_cset U ic cs a) eqn:Ha; [|lia].
      destruct (in_cset U ic cs b) eqn:Hb; [|lia].
      destruct (in_cset U ic cs c) eqn:Hc; [|lia].
      intros _. exists a, b, c, t. auto.
  - intros (a & b & c & t & -> & Ha & Hb & Hc).
    cbn [run_length option_map]. rewrite Ha, Hb, Hc. lia.
Qed.

Lemma has_run3_cons (p : char -> bool) (a b c : char) (t : str) :
  has_run3 p (a :: b :: c :: t) = (p a && p b && p c) || has_run3 p (b :: c :: t).
Proof. reflexivity. Qed.

Lemma search_run3 cs prev s :
  search_from U {| ignorecase := false; nodes := [Rep cs 3 None] |} prev s
  = has_run3 (in_cset U false cs) s.
Proof.
  revert prev. induction s as [|a s IH]; intros prev.
  - reflexivity.
  - cbn [search_from ignorecase nodes match_here]. rewrite IH.
    match goal with
    | |- context [try_counts ?k ?p ?s ?lo ?n] =>
        pose proof (try_counts_total k p s lo n) as Ht;
        destruct (try_counts k p s lo n) as [r|]
    end.
    + assert (H3 : (3 <= run_length U false cs None (a :: s))%nat).
      { apply Ht; [intros p t; discriminate|discriminate]. }
      apply run_length_three in H3 as (x & b & c & t & Hs & Ha & Hb & Hc).
      injection Hs as <- ->. rewrite has_run3_cons, Ha, Hb, Hc. reflexivity.
    + destruct s as [|b [|c t]]; [reflexivity|reflexivity|].
      rewrite has_run3_cons.
      destruct (in_cset U false cs a && in_cset U false cs b
                && in_cset U false cs c) eqn:Hp; [|reflexivity].
      exfalso.
      apply andb_true_iff in Hp as [Hp Hc]. apply andb_true_iff in Hp as [Ha Hb].
      assert (H3 : (3 <= run_length U false cs None (a :: b :: c :: t))%nat).
      { apply run_length_three. exists a, b, c, t. auto. }
      apply Ht in H3; [congruence|]. intros p t'. discriminate.
Qed.

(** The run pattern finds a match exactly when the line has three unusual
    characters in a row. *)
Lemma run_condition_closed_form (line : str) :
  run_condition ext line = has_run3 is_unusual line.
Proof.
  unfold run_condition, re_search, unusual_run_re. rewrite search_run3.
  induction line as [|a s IH]; [reflexivity|].
  destruct s as [|b [|c t]]; [reflexivity|reflexivity|].
  rewrite !has_run3_cons, IH, !unusual_class. reflexivity.
Qed.

(** ** Which records a line gets *)

Lemma classified_eq (line : str) (n : Z) :
  find_anomalies_in_line ext line n =
  if is_classified line then
    if is_base64_like ext (strip U line) then [token_record ext line n]
    else (if latin_condition ext line then [latin_record ext line n] else [])
         ++ (if unusual_condition ext line then [unusual_record ext line n] else [])
         ++ (if run_condition ext line then [run_record ext line n] else [])
  else [].
Proof.
  rewrite find_anomalies_in_line_eq. unfold is_classified.
  destruct (is_empty (strip U line) || is_likely_chapter_title ext line);
    reflexivity.
Qed.

Lemma enumerate_from_length (k : nat) (s : str) :
  length (enumerate_from k s) = length s.
Proof.
  revert k. induction s as [|c s IH]; intros k; simpl; [reflexivity|].
  rewrite IH. reflexivity.
Qed.

Lemma ascii_letter_positions_length (line : str) :
  length (ascii_letter_positions line) = length (filter ascii_letter line).
Proof.
  unfold ascii_letter_positions. generalize 0%nat.
  induction line as [|c s IH]; intros k; cbn [enumerate_from filter];
    [reflexivity|].
  destruct (ascii_letter c); cbn [length]; rewrite IH; reflexivity.
Qed.

Lemma suspicious_of_latin (line : str) :
  is_empty (latin_chars ext line) = false ->
  is_empty (suspicious_chars line) = false.
Proof.
  unfold latin_chars. destruct (suspicious_chars line); [discriminate|].
  reflexivity.
Qed.

Lemma suspicious_of_other (line : str) :
  is_empty (other_chars ext line) = false ->
  is_empty (suspicious_chars line) = false.
Proof.
  unfold other_chars. destruct (suspicious_chars line); [discriminate|].
  reflexivity.
Qed.

(** X3. A line gets a latin_in_russian record exactly when it is classified
    (neither blank nor a heading), is not token-like, holds a character of
    RUSSIAN_CHARS, has more than 3 ASCII letters and is not normal Latin
    usage. *)
Theorem latin_in_russian_emitted_exactly_when (line : str) (n : Z) :
  has_kind latin_in_russian (find_anomalies_in_line ext line n)
  = is_classified line
    && negb (is_base64_like ext (strip U line))
    && has_russian line
    && Nat.ltb 3 (length (filter ascii_letter line))
    && negb (is_normal_latin_usage ext line).
Proof.
  rewrite classified_eq.
  destruct (is_classified line); [|reflexivity].
  destruct (is_base64_like ext (strip U line)); [reflexivity|].
  cbn [andb negb].
  assert (E : latin_condition ext line
              = has_russian line
                && Nat.ltb 3 (length (filter ascii_letter line))
                && negb (is_normal_latin_usage ext line)).
  { unfold latin_condition.
    rewrite <- ascii_letter_positions_length, <- latin_chars_closed_form.
    destruct (is_empty (latin_chars ext line)) eqn:El.
    - destruct (latin_chars ext line); [|discriminate]. cbn [length Nat.ltb Nat.leb negb].
      rewrite !andb_false_r. reflexivity.
    - rewrite (suspicious_of_latin line El). cbn [negb andb].
      destruct (has_russian line), (is_normal_latin_usage ext line),
        (Nat.ltb 3 (length (latin_chars ext line))); reflexivity. }
  rewrite <- E. unfold has_kind.
  destruct (latin_condition ext line), (unusual_condition ext line),
    (run_condition ext line); reflexivity.
Qed.

(** X4. A line gets an unusual_symbols record exactly when it is classified,
    is not token-like, holds a character of RUSSIAN_CHARS and has a
    character that is neither allowed, nor an ASCII letter, nor one of the
    typographic symbols. *)
Theorem unusual_symbols_emitted_exactly_when (line : str) (n : Z) :
  has_kind unusual_symbols (find_anomalies_in_line ext line n)
  = is_classified line
    && negb (is_base64_like ext (strip U line))
    && has_russian line
    && negb (is_empty (odd_symbol_positions line)).
Proof.
  rewrite classified_eq.
  destruct (is_classified line); [|reflexivity].
  destruct (is_base64_like ext (strip U line)); [reflexivity|].
  cbn [andb negb].
  assert (E : unusual_condition ext line
              = has_russian line && negb (is_empty (odd_symbol_positions line))).
  { unfold unusual_condition. rewrite <- other_chars_closed_form.
    destruct (is_empty (other_chars ext line)) eqn:Eo.
    - rewrite !andb_false_r. reflexivity.
    - rewrite (suspicious_of_other line Eo). reflexivity. }
  rewrite <- E. unfold has_kind.
  destruct (latin_condition ext line), (unusual_condition ext line),
    (run_condition ext line); reflexivity.
Qed.

(** X5. A line gets a multiple_unusual_chars record exactly when it is
    classified, is not token-like and has three unusual characters in a
    row. *)
Theorem multiple_unusual_chars_emitted_exactly_when (line : str) (n : Z) :
  has_kind multiple_unusual_chars (find_anomalies_in_line ext line n)
  = is_classified line
    && negb (is_base64_like ext (strip U line))
    && has_run3 is_unusual line.
Proof.
  rewrite classified_eq, <- run_condition_closed_form.
  destruct (is_classified line); [|reflexivity].
  destruct (is_base64_like ext (strip U line)); [reflexivity|].
  unfold has_kind.
  destruct (latin_condition ext line), (unusual_condition ext line),
    (run_condition ext line); reflexivity.
Qed.

(** X6. The list ['chars'] of a latin_in_russian record holds the first 10
    ASCII letters of the line with their offsets, in order; the one of an
    unusual_symbols record holds the first 10 characters that are neither
    allowed, nor ASCII letters, nor typographic symbols, with their offsets
    and hexadecimal codes; the other records have no such list. *)
Theorem chars_lists_closed_form (line : str) (n : Z) (a : anomaly) :
  In a (find_anomalies_in_line ext line n) ->
  chars a =
  match a_type a with
  | latin_in_russian =>
      Some (map (fun '(i, c) => Pair i c)
                (firstn 10 (ascii_letter_positions line)))
  | unusual_symbols =>
      Some (map (fun '(i, c, h) => Triple i c h)
                (firstn 10 (odd_symbol_positions line)))
  | _ => None
  end.
Proof.
  intros Hin.
  apply find_anomalies_cases in Hin
    as [[-> _] | [[-> _] | [[-> _] | [-> _]]]];
    unfold token_record, latin_record, unusual_record, run_record;
    cbn [a_type chars].
  - reflexivity.
  - rewrite latin_chars_closed_form. reflexivity.
  - rewrite other_chars_closed_form. reflexivity.
  - reflexivity.
Qed.

Lemma record_fields (line : str) (n : Z) (a : anomaly) :
  In a (find_anomalies_in_line ext line n) ->
  line_num a = n /\ line_text a = strip U line /\ strip U line <> [].
Proof.
  intros Hin.
  assert (Hc : is_classified line = true).
  { rewrite classified_eq in Hin. destruct (is_classified line);
      [reflexivity|destruct Hin]. }
  assert (Hne : strip U line <> []).
  { unfold is_classified in Hc. intros E. rewrite E in Hc. discriminate. }
  apply find_anomalies_cases in Hin
    as [[-> _] | [[-> _] | [[-> _] | [-> _]]]];
    unfold token_record, latin_record, unusual_record, run_record;
    cbn [line_num line_text]; auto.
Qed.

(** X7. Every record of a line carries the line number passed in and the
    trimmed line, which is not empty. *)
Theorem record_carries_number_and_trimmed_line (line : str) (n : Z) (a : anomaly) :
  In a (find_anomalies_in_line ext line n) ->
  line_num a = n /\ line_text a = strip U line /\ strip U line <> [].
Proof. apply record_fields. Qed.

(** X8. A line that gets a token_like record gets no other record. *)
Theorem token_record_stands_alone (line : str) (n : Z) :
  has_kind token_like (find_anomalies_in_line ext line n) = true ->
  find_anomalies_in_line ext line n = [token_record ext line n].
Proof.
  rewrite classified_eq.
  destruct (is_classified line); [|discriminate].
  destruct (is_base64_like ext (strip U line)); [reflexivity|].
  unfold has_kind.
  destruct (latin_condition ext line), (unusual_condition ext line),
    (run_condition ext line); discriminate.
Qed.

(** X9. The kinds of the records of a line are token_like alone, or some of
    latin_in_russian, unusual_symbols and multiple_unusual_chars, each at
    most once and in this order. *)
Theorem kinds_in_fixed_order (line : str) (n : Z) :
  exists l u r : bool,
    map a_type (find_anomalies_in_line ext line n) = [token_like]
    \/ map a_type (find_anomalies_in_line ext line n)
       = (if l then [latin_in_russian] else [])
         ++ (if u then [unusual_symbols] else [])
         ++ (if r then [multiple_unusual_chars] else []).
Proof.
  rewrite classified_eq.
  destruct (is_classified line); [|exists false, false, false; right; reflexivity].
  destruct (is_base64_like ext (strip U line));
    [exists false, false, false; left; reflexivity|].
  exists (latin_condition ext line), (unusual_condition ext line),
    (run_condition ext line). right.
  destruct (latin_condition ext line), (unusual_condition ext line),
    (run_condition ext line); reflexivity.
Qed.

End RecordFacts.

Section HeadingFacts.
Variable ext : tables.
Local Abbreviation U := (overlay ext).

Lemma anchored_class_matches ic cs s :
  s <> [] -> forallb (in_cset U ic cs) s = true ->
  re_match U {| ignorecase := ic; nodes := [Bol; Rep cs 1 None; Eol] |} s = true.
Proof.
  intros Hne Hall. unfold re_match. cbn [nodes ignorecase match_here].
  rewrite (run_length_all ext ic cs s Hall). erewrite try_counts_top.
  - reflexivity.
  - destruct s; [congruence|simpl; lia].
  - rewrite skipn_all. reflexivity.
Qed.

Lemma roman_letter_in_class (c : char) :
  mem c (u8 "IVXLCDMivxlcdm") = true -> in_cset U true (cls roman) c = true.
Proof.
  intros H. apply mem_In in H.
  let l := eval vm_compute in (u8 "IVXLCDMivxlcdm") in
    change (u8 "IVXLCDMivxlcdm") with l in H.
  cbn [In] in H.
  repeat (destruct H as [<-|H]; [vm_compute; reflexivity|]). destruct H.
Qed.

(** X10. A line whose trimmed content consists of the letters I, V, X, L,
    C, D, M in either case is taken for a chapter heading: it gets no
    record. *)
Theorem roman_letters_line_has_no_anomaly (line : str) (n : Z) :
  forallb (fun c => mem c (u8 "IVXLCDMivxlcdm")) (strip U line) = true ->
  find_anomalies_in_line ext line n = [].
Proof.
  intros H. apply skipped_line.
  destruct (strip U line) as [|c s] eqn:Hs; [reflexivity|].
  cbn [is_empty orb].
  apply chapter_title_by_pattern
    with {| ignorecase := true; nodes := [Bol; Rep (cls roman) 1 None; Eol] |}.
  - rewrite Hs. discriminate.
  - unfold CHAPTER_PATTERNS. apply in_map. left. reflexivity.
  - rewrite Hs. apply anchored_class_matches; [discriminate|].
    rewrite forallb_forall in *. intros x Hx. apply roman_letter_in_class. auto.
Qed.

Lemma run_length_stops ic cs (ws : str) (d : char) (rest : str) :
  forallb (in_cset U ic cs) ws = true -> in_cset U ic cs d = false ->
  run_length U ic cs None (ws ++ d :: rest) = length ws.
Proof.
  induction ws as [|w ws IH]; cbn [app run_length option_map forallb length];
    intros Hw Hd.
  - rewrite Hd. reflexivity.
  - apply andb_true_iff in Hw as [Hw Hws]. rewrite Hw, IH by assumption.
    reflexivity.
Qed.

Lemma numeral_char_facts (d : char) :
  ascii_digit d || mem d (u8 "IVXLCDMivxlcdm") = true ->
  in_cset U true (cls (roman ++ [ICat Digit])) d = true
  /\ in_cset U true (cls [ICat Space]) d = false.
Proof.
  intros H. apply orb_true_iff in H as [H|H].
  - assert (Hb : 48 <= d <= 57) by (apply in_range_spec; exact H).
    split.
    + unfold in_cset, cls. cbn [negated items xorb]. rewrite existsb_app.
      cbn [existsb in_item in_category isdecimal overlay reference].
      rewrite ascii_covered by lia. rewrite H, orb_true_r. reflexivity.
    + unfold in_cset, cls. cbn [negated items xorb existsb in_item in_category].
      rewrite orb_false_r. apply printable_ascii_not_space. lia.
  - apply mem_In in H.
    let l := eval vm_compute in (u8 "IVXLCDMivxlcdm") in
      change (u8 "IVXLCDMivxlcdm") with l in H.
    cbn [In] in H.
    repeat (destruct H as [<-|H]; [split; vm_compute; reflexivity|]). destruct H.
Qed.

(** X11. A line whose trimmed content begins with the letter Г or Ч (in
    either case), then optional whitespace, then an ASCII digit or a
    Roman-numeral letter is taken for a chapter heading whatever follows:
    it gets no record. *)
Theorem abbreviated_heading_prefix_has_no_anomaly
    (line : str) (n : Z) (g : char) (ws : str) (d : char) (rest : str) :
  strip U line = g :: ws ++ d :: rest ->
  mem g (u8 "ГЧгч") = true ->
  forallb (isspace U) ws = true ->
  ascii_digit d || mem d (u8 "IVXLCDMivxlcdm") = true ->
  find_anomalies_in_line ext line n = [].
Proof.
  intros Hs Hg Hws Hd. apply skipped_line.
  rewrite Hs. cbn [is_empty orb].
  apply chapter_title_by_pattern
    with {| ignorecase := true;
            nodes := [Bol; One (cls (chars_of (u8 "ГЧ")));
                      Rep (cls [ICat Space]) 0 None;
                      Rep (cls (roman ++ [ICat Digit])) 1 None] |}.
  - rewrite Hs. discriminate.
  - unfold CHAPTER_PATTERNS. apply in_map. do 3 right. left. reflexivity.
  - rewrite Hs. unfold re_match. cbn [nodes ignorecase match_here].
    assert (Hgc : in_cset U true (cls (chars_of (u8 "ГЧ"))) g = true).
    { apply mem_In in Hg.
      let l := eval vm_compute in (u8 "ГЧгч") in
        change (u8 "ГЧгч") with l in Hg.
      cbn [In] in Hg.
      repeat (destruct Hg as [<-|Hg]; [vm_compute; reflexivity|]). destruct Hg. }
    rewrite Hgc.
    destruct (numeral_char_facts d Hd) as [Hd1 Hd2].
    assert (Hsp : forallb (in_cset U true (cls [ICat Space])) ws = true).
    { rewrite forallb_forall in *. intros x Hx.
      unfold in_cset, cls. cbn [negated items xorb existsb in_item in_category].
      rewrite orb_false_r. auto. }
    rewrite (run_length_stops true _ ws d rest Hsp Hd2).
    assert (Hin : try_counts (match_here U true []) (last_of (Some g) (firstn (length ws) (ws ++ d :: rest)))
                    (skipn (length ws) (ws ++ d :: rest)) 1
                    (run_length U true (cls (roman ++ [ICat Digit])) None
                       (skipn (length ws) (ws ++ d :: rest))) <> None).
    { apply try_counts_total; [intros p t; discriminate|].
      rewrite skipn_app, skipn_all, Nat.sub_diag. cbn [skipn app run_length option_map].
      rewrite Hd1. lia. }
    match type of Hin with
    | ?t <> None => destruct t as [[w t']|] eqn:Et; [|congruence]
    end.
    erewrite try_counts_top; [reflexivity|lia|].
    cbn [match_here]. exact Et.
Qed.

End HeadingFacts.

(* ================================================================== *)
(** * Further properties of the scan and of the run *)
(* ================================================================== *)


Section ScanFacts.
Variable ext : tables.
Local Abbreviation U := (overlay ext).

Lemma all_records_bounds lines : forall n a,
  In a (all_records ext n lines) ->
  (n <= line_num a < n + Z.of_nat (length lines))%Z.
Proof.
  induction lines as [|line rest IH]; intros n a; cbn [all_records];
    [intros []|].
  intros H. apply in_app_or in H as [H|H].
  - apply record_fields in H as [-> _].
    cbn [length]. lia.
  - apply IH in H. cbn [length]. lia.
Qed.

Lemma all_records_sorted lines : forall n,
  StronglySorted (fun a b => (line_num a <= line_num b)%Z)
                 (all_records ext n lines).
Proof.
  induction lines as [|line rest IH]; intros n; cbn [all_records];
    [constructor|].
  assert (Hgen : forall l,
            (forall a, In a l -> line_num a = n) ->
            StronglySorted (fun a b => (line_num a <= line_num b)%Z)
                           (l ++ all_records ext (n + 1) rest)).
  { induction l as [|x l IHl]; intros Hl; cbn [app]; [apply IH|].
    constructor.
    - apply IHl. intros a Ha. apply Hl. right. exact Ha.
    - apply Forall_forall. intros b Hb. rewrite (Hl x (or_introl eq_refl)).
      apply in_app_or in Hb as [Hb|Hb].
      + rewrite (Hl b (or_intror Hb)). lia.
      + apply all_records_bounds in Hb. lia. }
  apply Hgen. intros a Ha.
  apply record_fields in Ha as [Ha _]. exact Ha.
Qed.

(** X12. The removal of duplicates in [analyze_file] never removes
    anything: the anomaly list of a scanned file is the concatenation of the
    records of its lines, numbered from 1, and ['total_lines'] is the number
    of lines read. *)
Theorem scan_keeps_every_record
    (fs : filesystem) (filepath : str) (total : nat) (anomalies : list anomaly) :
  analyze_file ext fs filepath = Scanned total anomalies ->
  exists lines,
    (fs filepath utf_8 = Lines lines \/ fs filepath cp1251 = Lines lines)
    /\ total = length lines
    /\ anomalies = all_records ext 1 lines.
Proof. apply analyze_file_scanned. Qed.

(** X13. In the anomaly list of a scanned file the line numbers lie between
    1 and ['total_lines'] and never decrease. *)
Theorem records_are_in_line_order
    (fs : filesystem) (filepath : str) (total : nat) (anomalies : list anomaly) :
  analyze_file ext fs filepath = Scanned total anomalies ->
  (forall a, In a anomalies -> (1 <= line_num a <= Z.of_nat total)%Z)
  /\ StronglySorted (fun a b => (line_num a <= line_num b)%Z) anomalies.
Proof.
  intros H. apply analyze_file_scanned in H as (lines & _ & -> & ->).
  split.
  - intros a Ha. apply all_records_bounds in Ha. lia.
  - apply all_records_sorted.
Qed.

Lemma all_records_unclassified lines : forall n,
  (forall line, In line lines -> is_classified ext line = false) ->
  all_records ext n lines = [].
Proof.
  induction lines as [|line rest IH]; intros n H; cbn [all_records];
    [reflexivity|].
  rewrite IH by (intros l Hl; apply H; right; exact Hl).
  rewrite classified_eq, (H line (or_introl eq_refl)). reflexivity.
Qed.

(** X14. A file in which every line is blank or a chapter heading is
    scanned with an empty anomaly list and all its lines counted. *)
Theorem headings_only_file_has_no_anomaly
    (fs : filesystem) (filepath : str) (lines : list str) :
  fs filepath utf_8 = Lines lines ->
  (forall line, In line lines -> is_classified ext line = false) ->
  analyze_file ext fs filepath = Scanned (length lines) [].
Proof.
  intros Hfs Hl. unfold analyze_file. rewrite Hfs, scan_eq.
  rewrite all_records_unclassified by exact Hl. reflexivity.
Qed.

(** ** The order of the report *)

Lemma str_ltb_irrefl (a : str) : str_ltb a a = false.
Proof.
  induction a as [|x a IH]; cbn [str_ltb]; [reflexivity|].
  rewrite N.ltb_irrefl, N.eqb_refl, IH. reflexivity.
Qed.







End ScanFacts.

(* ================================================================== *)
(** * Further properties of the summary *)
(* ================================================================== *)

Module MoreSummaryFacts.
Import CreateSummary.

Definition has_count (c : nat) (e : str * nat) : bool := Nat.eqb (snd e) c.

Lemma insert_by_count_filter (c : nat) (x : str * nat) (l : list (str * nat)) :
  StronglySorted by_count_desc l ->
  filter (has_count c) (insert_by_count x l)
  = filter (has_count c) (x :: l).
Proof.
  induction l as [|y l IH]; cbn [insert_by_count]; intros Hs; [reflexivity|].
  destruct (Nat.ltb (snd x) (snd y)) eqn:E; [|reflexivity].
  apply Nat.ltb_lt in E. apply StronglySorted_inv in Hs as [Hs _].
  cbn [filter]. rewrite (IH Hs). cbn [filter]. unfold has_count.
  destruct (Nat.eqb (snd x) c) eqn:Ex, (Nat.eqb (snd y) c) eqn:Ey;
    try reflexivity.
  apply Nat.eqb_eq in Ex, Ey. lia.
Qed.

(** X16. The sort of a file list of the summary is stable: the files with a
    given count keep the order they had. *)
Theorem sort_by_count_is_stable (l : list (str * nat)) (c : nat) :
  filter (has_count c) (sort_by_count l) = filter (has_count c) l.
Proof.
  induction l as [|x l IH]; cbn [sort_by_count fold_right]; [reflexivity|].
  fold (sort_by_count l).
  rewrite insert_by_count_filter by apply SummaryFacts.sort_by_count_sorted.
  cbn [filter]. rewrite IH. reflexivity.
Qed.

Lemma insert_by_count_length (x : str * nat) (l : list (str * nat)) :
  length (insert_by_count x l) = S (length l).
Proof.
  induction l as [|y l IH]; cbn [insert_by_count]; [reflexivity|].
  destruct (Nat.ltb (snd x) (snd y)); cbn [length]; [rewrite IH|]; reflexivity.
Qed.

Lemma sort_by_count_length (l : list (str * nat)) :
  length (sort_by_count l) = length l.
Proof.
  induction l as [|x l IH]; cbn [sort_by_count fold_right]; [reflexivity|].
  fold (sort_by_count l). rewrite insert_by_count_length, IH. reflexivity.
Qed.

Lemma files_with_any_In field data f c :
  In (f, c) (files_with_any field data) <->
  exists h, In (f, h) data /\ c = length (field h) /\ field h <> [].
Proof.
  unfold files_with_any. rewrite in_flat_map. split.
  - intros [[g h] [Hin He]].
    destruct (field h) as [|z zs] eqn:E; cbn [FindAnomalies.is_empty negb] in He;
      [destruct He|].
    destruct He as [He|[]]. injection He as <- <-.
    exists h. rewrite E. repeat split; [exact Hin|discriminate].
  - intros [h [Hin [-> Hc]]]. exists (f, h). split; [exact Hin|].
    destruct (field h); [congruence|]. left. reflexivity.
Qed.

Lemma full_section_lists found word none files e :
  In e files -> In (bullet word e) (full_section found word none files).
Proof.
  intros H. unfold full_section.
  destruct files as [|x l]; [destruct H|]. cbn [FindAnomalies.is_empty negb].
  apply in_or_app. right. apply in_map. exact H.
Qed.

(** X17. Sections 1 and 2 of the summary name every file that has a
    token_like hit, respectively a multiple_unusual_chars hit, with the
    number of hits. *)
Theorem token_and_run_sections_name_every_file
    (data : report_data) (f : str) (h : hits) :
  In (f, h) data ->
  (token_like h <> [] ->
   In (bullet "токенов" (f, length (token_like h))) (summary_lines data))
  /\ (multiple_unusual_chars h <> [] ->
      In (bullet "случаев" (f, length (multiple_unusual_chars h)))
         (summary_lines data)).
Proof.
  intros Hin. split; intros Hne.
  - unfold summary_lines. do 2 (apply in_or_app; right). apply in_or_app; left.
    apply full_section_lists. unfold files_with_tokens.
    apply SummaryFacts.sort_by_count_In, files_with_any_In. eauto.
  - unfold summary_lines. do 5 (apply in_or_app; right). apply in_or_app; left.
    apply full_section_lists. unfold files_with_multiple_unusual.
    apply SummaryFacts.sort_by_count_In, files_with_any_In. eauto.
Qed.

Lemma flat_map_count {A B} (p : A -> bool) (g : A -> B) (l : list A) :
  length (flat_map (fun x => if p x then [g x] else []) l)
  = length (filter p l).
Proof.
  induction l as [|x l IH]; cbn [flat_map filter]; [reflexivity|].
  destruct (p x); cbn [app length]; rewrite IH; reflexivity.
Qed.

Lemma file_lists_lengths (data : report_data) :
  length (files_with_tokens data)
  = length (filter (fun e => negb (FindAnomalies.is_empty (token_like (snd e)))) data)
  /\ length (files_with_multiple_unusual data)
     = length (filter (fun e => negb (FindAnomalies.is_empty
                                        (multiple_unusual_chars (snd e)))) data)
  /\ length (files_with_unusual_symbols data)
     = length (filter (fun e => Nat.ltb 100 (length (unusual_symbols (snd e)))) data)
  /\ length (files_with_latin data)
     = length (filter (fun e => Nat.ltb 50 (length (latin_in_russian (snd e)))) data).
Proof.
  unfold files_with_tokens, files_with_multiple_unusual,
    files_with_unusual_symbols, files_with_latin, files_with_any, files_above.
  rewrite !sort_by_count_length.
  repeat split.
  - rewrite <- (flat_map_count _ (fun e => (fst e, length (token_like (snd e))))).
    f_equal. apply flat_map_ext. intros [f h]. reflexivity.
  - rewrite <- (flat_map_count _ (fun e => (fst e, length (multiple_unusual_chars (snd e))))).
    f_equal. apply flat_map_ext. intros [f h]. reflexivity.
  - rewrite <- (flat_map_count _ (fun e => (fst e, length (unusual_symbols (snd e))))).
    f_equal. apply flat_map_ext. intros [f h]. reflexivity.
  - rewrite <- (flat_map_count _ (fun e => (fst e, length (latin_in_russian (snd e))))).
    f_equal. apply flat_map_ext. intros [f h]. reflexivity.
Qed.

(** X18. The four file lists of the summary have as many entries as there
    are files with a token, with a run of unusual characters, with more
    than 100 unusual_symbols hits and with more than 50 latin_in_russian
    hits, and these are the numbers the summary prints: the lines that
    follow the heading of the statistics are a rule, the number of files of
    the report and these four numbers, each after its label. *)
Theorem statistics_count_the_files (data : report_data) :
  (length (files_with_tokens data)
   = length (filter (fun e => negb (FindAnomalies.is_empty (token_like (snd e)))) data)
   /\ length (files_with_multiple_unusual data)
      = length (filter (fun e => negb (FindAnomalies.is_empty
                                         (multiple_unusual_chars (snd e)))) data)
   /\ length (files_with_unusual_symbols data)
      = length (filter (fun e => Nat.ltb 100 (length (unusual_symbols (snd e)))) data)
   /\ length (files_with_latin data)
      = length (filter (fun e => Nat.ltb 50 (length (latin_in_russian (snd e)))) data))
  /\ firstn 6 (lines_after (u8 "ОБЩАЯ СТАТИСТИКА") (summary_lines data))
     = [ rule 61;
         u8 "Всего файлов с аномалиями: " ++ str_of_nat (length data);
         u8 "Файлов с токенами: "
           ++ str_of_nat
                (length (filter (fun e => negb (FindAnomalies.is_empty
                                                  (token_like (snd e)))) data));
         u8 "Файлов с множественными необычными символами: "
           ++ str_of_nat
                (length (filter (fun e => negb (FindAnomalies.is_empty
                                                  (multiple_unusual_chars (snd e))))
                                data));
         u8 "Файлов с большим количеством необычных символов: "
           ++ str_of_nat
                (length (filter (fun e => Nat.ltb 100 (length (unusual_symbols (snd e))))
                                data));
         u8 "Файлов с большим количеством латиницы: "
           ++ str_of_nat
                (length (filter (fun e => Nat.ltb 50 (length (latin_in_russian (snd e))))
                                data)) ].
Proof.
  pose proof (file_lists_lengths data) as Hl.
  split; [exact Hl|].
  destruct Hl as (H1 & H2 & H3 & H4).
  rewrite SummaryFacts.statistics_lines. unfold SummaryFacts.statistics_block.
  cbn [firstn]. rewrite H1, H2, H3, H4. reflexivity.
Qed.

End MoreSummaryFacts.

(* ================================================================== *)
(** * Worked instances of the further properties *)
(* ================================================================== *)

(** A folder with one file of headings and blank lines. *)
Definition headings_fs : filesystem :=
  fun _ enc =>
    match enc with
    | utf_8 => Lines [u8 "ГЛАВА I"; u8 "   "; u8 "ЧАСТЬ II"; []]
    | cp1251 => OtherException []
    end.

Lemma long_base64_line_witness :
  find_anomalies_in_line reference (repeat_str (u8 "A") 44 ++ u8 "==") 9
  = [token_record reference (repeat_str (u8 "A") 44 ++ u8 "==") 9].
Proof.
  apply long_base64_line_is_token.
  - vm_compute. lia.
  - vm_compute. reflexivity.
  - vm_compute. reflexivity.
Defined.

Lemma no_russian_char_witness :
  multiple_unusual_chars <> latin_in_russian
  /\ multiple_unusual_chars <> unusual_symbols.
Proof.
  apply (no_russian_char_no_charset_record reference (u8 "@#$ abc") 4
           {| a_type := multiple_unusual_chars; line_num := 4; chars := None;
              line_text := u8 "@#$ abc" |}).
  - vm_compute. reflexivity.
  - vm_compute. left. reflexivity.
Defined.

Lemma chars_lists_witness :
  Some [Pair 7 87; Pair 8 88; Pair 9 89; Pair 10 90]
  = Some (map (fun '(i, c) => Pair i c)
              (firstn 10 (ascii_letter_positions (u8 "Привет WXYZ мир")))).
Proof.
  apply (chars_lists_closed_form reference (u8 "Привет WXYZ мир") 5
           {| a_type := latin_in_russian; line_num := 5;
              chars := Some [Pair 7 87; Pair 8 88; Pair 9 89; Pair 10 90];
              line_text := u8 "Привет WXYZ мир" |}).
  vm_compute. left. reflexivity.
Defined.

Lemma record_carries_witness :
  let line := u8 "  Привет WXYZ мир  " in
  let a := {| a_type := latin_in_russian; line_num := 5;
              chars := Some [Pair 9 87; Pair 10 88; Pair 11 89; Pair 12 90];
              line_text := u8 "Привет WXYZ мир" |} in
  line_num a = 5%Z
  /\ line_text a = strip (overlay reference) line
  /\ strip (overlay reference) line <> [].
Proof.
  intros line a.
  apply (record_carries_number_and_trimmed_line reference line 5 a).
  vm_compute. left. reflexivity.
Defined.

Lemma token_record_alone_witness :
  find_anomalies_in_line reference (repeat_str (u8 "ab1/") 11) 2
  = [token_record reference (repeat_str (u8 "ab1/") 11) 2].
Proof.
  apply token_record_stands_alone. vm_compute. reflexivity.
Defined.

Lemma roman_letters_line_witness :
  find_anomalies_in_line reference (u8 "  mix  ") 7 = [].
Proof.
  apply roman_letters_line_has_no_anomaly. vm_compute. reflexivity.
Defined.

Lemma abbreviated_heading_witness :
  find_anomalies_in_line reference (u8 "ч 1 @#$ abcdef") 7 = [].
Proof.
  apply (abbreviated_heading_prefix_has_no_anomaly reference _ 7
           1095 [32] 49 (u8 " @#$ abcdef")).
  - vm_compute. reflexivity.
  - vm_compute. reflexivity.
  - vm_compute. reflexivity.
  - vm_compute. reflexivity.
Defined.

Lemma scan_keeps_every_record_witness :
  exists lines,
    (sample_fs (u8 "b.txt") utf_8 = Lines lines
     \/ sample_fs (u8 "b.txt") cp1251 = Lines lines)
    /\ 2%nat = length lines
    /\ [latin_record reference (u8 "abc1 def2 конец") 2]
       = all_records reference 1 lines.
Proof.
  apply (scan_keeps_every_record reference sample_fs (u8 "b.txt")).
  vm_compute. reflexivity.
Defined.

Lemma records_in_line_order_witness :
  exists anomalies,
    analyze_file reference sample_fs (u8 "a.txt") = Scanned 3 anomalies
    /\ (forall a, In a anomalies -> (1 <= line_num a <= Z.of_nat 3)%Z)
    /\ StronglySorted (fun a b => (line_num a <= line_num b)%Z) anomalies.
Proof.
  eexists. split; [vm_compute; reflexivity|].
  apply (records_are_in_line_order reference sample_fs (u8 "a.txt")).
  vm_compute. reflexivity.
Defined.

Lemma headings_only_file_witness :
  analyze_file reference headings_fs (u8 "chapters.txt") = Scanned 4 [].
Proof.
  apply (headings_only_file_has_no_anomaly reference headings_fs
           (u8 "chapters.txt")
           [u8 "ГЛАВА I"; u8 "   "; u8 "ЧАСТЬ II"; []]).
  - reflexivity.
  - intros line [<-|[<-|[<-|[<-|[]]]]]; vm_compute; reflexivity.
Defined.


Lemma token_and_run_sections_witness :
  In (CreateSummary.bullet "токенов" (u8 "b.txt", 1%nat))
     (CreateSummary.summary_lines small_report).
Proof.
  destruct (MoreSummaryFacts.token_and_run_sections_name_every_file small_report
              (u8 "b.txt")
              (CreateSummary.Build_hits [5%Z] (repeat 2%Z 3) (repeat 3%Z 51) []))
    as [H _].
  - right. left. reflexivity.
  - apply H. discriminate.
Defined.

(* ================================================================== *)
(** * The detailed report: written by main, read back by create_summary *)
(* ================================================================== *)

Module Report.

(** ** Strings and dicts *)

(** [s.replace(old, new)] for a non-empty [old]: the occurrences of [old]
    from left to right, without overlap.  [skip] counts the characters of
    the occurrence just replaced that are still to be passed over. *)
Fixpoint replace_from (old new : str) (s : str) (skip : nat) : str :=
  match s with
  | [] => []
  | c :: s' =>
      match skip with
      | S k => replace_from old new s' k
      | O =>
          if is_prefix old s
          then new ++ replace_from old new s' (pred (length old))
          else c :: replace_from old new s' 0
      end
  end.

Definition replace (old new s : str) : str := replace_from old new s 0.

(** [str(n)] for an integer. *)
Definition str_of_Z (n : Z) : str :=
  match n with
  | Zneg p => 45 :: str_of_N (Npos p)
  | _ => str_of_N (Z.to_N n)
  end.

(** The name of a kind, the value of ['type']. *)
Definition kind_name (k : kind) : str :=
  match k with
  | token_like => u8 "token_like"
  | latin_in_russian => u8 "latin_in_russian"
  | unusual_symbols => u8 "unusual_symbols"
  | multiple_unusual_chars => u8 "multiple_unusual_chars"
  end.

(** The dict [by_type], as its items in insertion order:
    [if a_type not in by_type: by_type[a_type] = []] and
    [by_type[a_type].append(anomaly)]. *)
Fixpoint by_type_append (by_type : list (kind * list anomaly)) (a : anomaly)
  : list (kind * list anomaly) :=
  match by_type with
  | [] => [(a_type a, [a])]
  | (k, l) :: rest =>
      if kind_eqb k (a_type a) then (k, l ++ [a]) :: rest
      else (k, l) :: by_type_append rest a
  end.

Definition by_type_of (anomalies : list anomaly) : list (kind * list anomaly) :=
  fold_left by_type_append anomalies [].

Fixpoint insert_item (x : kind * list anomaly) (l : list (kind * list anomaly))
  : list (kind * list anomaly) :=
  match l with
  | [] => [x]
  | y :: l' =>
      if str_ltb (kind_name (fst y)) (kind_name (fst x))
      then y :: insert_item x l' else x :: l
  end.

(** [sorted(by_type.items())]: the keys are distinct, so the items are
    ordered by their names. *)
Definition sorted_items (by_type : list (kind * list anomaly))
  : list (kind * list anomaly) :=
  fold_right insert_item [] by_type.

Section Writer.
(** [repr] of the list ['chars'], as the f-string prints it. *)
Variable repr_chars : list detail -> str.

(** The arguments of [f.write] for one anomaly. *)
Definition anomaly_writes (a : anomaly) : list str :=
  [ [10] ++ u8 "Строка " ++ str_of_Z (line_num a) ++ u8 ":" ++ [10];
    line_text a ++ [10] ]
  ++ match chars a with
     | Some l => [u8 "Подозрительные символы: " ++ repr_chars l ++ [10]]
     | None => []
     end.

Definition type_writes (item : kind * list anomaly) : list str :=
  let '(a_type, type_anomalies) := item in
  [ [10] ++ u8 "Тип: " ++ kind_name a_type ++ u8 " ("
      ++ str_of_nat (length type_anomalies) ++ u8 " случаев)" ++ [10];
    repeat_str [45] 80 ++ [10] ]
  ++ flat_map anomaly_writes type_anomalies.

Definition file_writes (entry : str * list anomaly) : list str :=
  let '(filename, anomalies) := entry in
  [ [10] ++ repeat_str [61] 80 ++ [10];
    u8 "Файл: " ++ filename ++ [10];
    u8 "Всего аномалий: " ++ str_of_nat (length anomalies) ++ [10];
    repeat_str [61] 80 ++ [10; 10] ]
  ++ flat_map type_writes (sorted_items (by_type_of anomalies)).

(** The text of anomalies_report.txt. *)
Definition report_text (files_with_anomalies : list (str * list anomaly)) : str :=
  concat ([ u8 "ОТЧЕТ ОБ АНОМАЛИЯХ В ТЕКСТОВЫХ ФАЙЛАХ" ++ [10];
            repeat_str [61] 80 ++ [10; 10] ]
          ++ flat_map file_writes files_with_anomalies).

End Writer.

(** ** parse_anomalies_report *)

(** The lines of a text file as the iteration over the file yields them,
    with universal newlines: a line ends after [\n], [\r] or [\r\n], and
    its ending is read as [\n].  [after_cr] tells that the last character
    was [\r]; [cur] is the line being read, reversed. *)
Fixpoint lines_from (after_cr : bool) (cur : str) (s : str) : list str :=
  match s with
  | [] => if is_empty cur then [] else [rev cur]
  | c :: s' =>
      if c =? 10 then
        if after_cr then lines_from false cur s'
        else rev (10 :: cur) :: lines_from false [] s'
      else if c =? 13 then rev (10 :: cur) :: lines_from true [] s'
      else lines_from false (c :: cur) s'
  end.

Definition file_lines (text : str) : list str := lines_from false [] text.

(** The dict [files_data], as its items in insertion order. *)
Definition files_data := CreateSummary.report_data.

Definition empty_hits : CreateSummary.hits := CreateSummary.Build_hits [] [] [] [].

(** [files_data[filename] = value] *)
Fixpoint dict_set (d : files_data) (filename : str) (value : CreateSummary.hits)
  : files_data :=
  match d with
  | [] => [(filename, value)]
  | (k, v) :: rest =>
      if str_eqb k filename then (k, value) :: rest
      else (k, v) :: dict_set rest filename value
  end.

(** [d[current_type].append(line_num)] on the dict of one file; a key other
    than the four kinds raises KeyError ([None]). *)
Definition append_hit (h : CreateSummary.hits) (current_type : str) (line_num : Z)
  : option CreateSummary.hits :=
  let '(CreateSummary.Build_hits t u l m) := h in
  if str_eqb current_type (u8 "token_like")
  then Some (CreateSummary.Build_hits (t ++ [line_num]) u l m)
  else if str_eqb current_type (u8 "unusual_symbols")
  then Some (CreateSummary.Build_hits t (u ++ [line_num]) l m)
  else if str_eqb current_type (u8 "latin_in_russian")
  then Some (CreateSummary.Build_hits t u (l ++ [line_num]) m)
  else if str_eqb current_type (u8 "multiple_unusual_chars")
  then Some (CreateSummary.Build_hits t u l (m ++ [line_num]))
  else None.

(** [files_data[current_file][current_type].append(line_num)]; a missing
    key raises KeyError ([None]). *)
Fixpoint dict_append (d : files_data) (current_file current_type : str)
    (line_num : Z) : option files_data :=
  match d with
  | [] => None
  | (k, v) :: rest =>
      if str_eqb k current_file then
        match append_hit v current_type line_num with
        | Some v' => Some ((k, v') :: rest)
        | None => None
        end
      else
        match dict_append rest current_file current_type line_num with
        | Some rest' => Some ((k, v) :: rest')
        | None => None
        end
  end.

Section Parser.
Variable ext : tables.
Local Abbreviation U := (overlay ext).
(** The value of a decimal digit outside ASCII, as [int] reads it. *)
Variable digit_value_ext : char -> N.

Definition digit_value (c : char) : N :=
  if ascii_digit c then c - 48 else digit_value_ext c.

(** [int(s)] for a string of decimal digits. *)
Definition int_of_digits (s : str) : Z :=
  Z.of_N (fold_left (fun acc c => acc * 10 + digit_value c) s 0).

(** The text of the one group of a pattern [pre (cs{lo,}) post], where
    [pre] is made of literals: the repetition gives back characters until
    [post] matches. *)
Fixpoint group_counts (cont : option char -> str -> option (str * str))
    (prev : option char) (s : str) (lo k : nat) : option str :=
  let attempt :=
    if Nat.leb lo k then
      match cont (last_of prev (firstn k s)) (skipn k s) with
      | Some _ => Some (firstn k s)
      | None => None
      end
    else None in
  match attempt with
  | Some g => Some g
  | None =>
      match k with
      | O => None
      | S k' => group_counts cont prev s lo k'
      end
  end.

(** [re.match(pattern, s)] and [match.group(1)]. *)
Definition match_group (pre : list node) (cs : cset) (lo : nat)
    (post : list node) (s : str) : option str :=
  match match_here U false pre None s with
  | Some (w, t) =>
      group_counts (match_here U false post) (last_of None w) t lo
                   (run_length U false cs None t)
  | None => None
  end.

(** Тип: (\w+) \(\d+ случаев\) *)
Definition type_line_group (line : str) : option str :=
  match_group (lits (u8 "Тип: ")) (cls [ICat Word]) 1
    (lits (u8 " (") ++ [Rep (cls [ICat Digit]) 1 None] ++ lits (u8 " случаев)"))
    line.

(** Строка (\d+): *)
Definition line_number_group (line : str) : option str :=
  match_group (lits (u8 "Строка ")) (cls [ICat Digit]) 1 (lits (u8 ":")) line.

(** The variables of the loop; [None] is the initial value of
    [current_file] and [current_type]. *)
Record parser_state := {
  data : files_data;
  current_file : option str;
  current_type : option str
}.

(** The truth value of a variable that is [None] or a string. *)
Definition truthy (v : option str) : bool :=
  match v with
  | Some (_ :: _) => true
  | _ => false
  end.

(** One turn of the loop [for line in f]; [None] when KeyError is raised. *)
Definition parse_line (st : parser_state) (raw : str) : option parser_state :=
  let line := strip U raw in
  if is_prefix (u8 "Файл:") line then
    let filename := strip U (replace (u8 "Файл:") [] line) in
    Some {| data := dict_set (data st) filename empty_hits;
            current_file := Some filename;
            current_type := current_type st |}
  else if is_prefix (u8 "Тип:") line then
    match type_line_group line with
    | Some g => Some {| data := data st; current_file := current_file st;
                        current_type := Some g |}
    | None => Some st
    end
  else if is_prefix (u8 "Строка ") line then
    match line_number_group line with
    | Some g =>
        if truthy (current_file st) && truthy (current_type st) then
          match current_file st, current_type st with
          | Some f, Some t =>
              match dict_append (data st) f t (int_of_digits g) with
              | Some d => Some {| data := d; current_file := current_file st;
                                  current_type := current_type st |}
              | None => None
              end
          | _, _ => Some st
          end
        else Some st
    | None => Some st
    end
  else Some st.

Fixpoint parse_lines (st : parser_state) (lines : list str) : option parser_state :=
  match lines with
  | [] => Some st
  | raw :: rest =>
      match parse_line st raw with
      | Some st' => parse_lines st' rest
      | None => None
      end
  end.

(** What a call of [parse_anomalies_report] gives. *)
Inductive parse_result :=
| NoReport                       (* the file does not exist: None *)
| KeyError                       (* an unknown kind in the file *)
| Parsed (d : files_data).

(** [parse_anomalies_report()], given the text of anomalies_report.txt when
    the file exists. *)
Definition parse_anomalies_report (report_file : option str) : parse_result :=
  match report_file with
  | None => NoReport
  | Some text =>
      match parse_lines {| data := []; current_file := None; current_type := None |}
                        (file_lines text) with
      | Some st => Parsed (data st)
      | None => KeyError
      end
  end.

End Parser.
End Report.

(** The line numbers of the records of a kind, in order. *)
Definition line_numbers_of (k : kind) (anomalies : list anomaly) : list Z :=
  map line_num (filter (fun a => kind_eqb (a_type a) k) anomalies).

(** What the summary knows of the records of a file. *)
Definition hits_of (anomalies : list anomaly) : CreateSummary.hits :=
  CreateSummary.Build_hits
    (line_numbers_of token_like anomalies)
    (line_numbers_of unusual_symbols anomalies)
    (line_numbers_of latin_in_russian anomalies)
    (line_numbers_of multiple_unusual_chars anomalies).

(* ================================================================== *)
(** * The report read back *)
(* ================================================================== *)

Section StripFacts.
Variable ext : tables.
Local Abbreviation U := (overlay ext).

Lemma lstrip_app (s t : str) :
  lstrip U (s ++ t) = match lstrip U s with
                      | [] => lstrip U t
                      | l => l ++ t
                      end.
Proof.
  induction s as [|c s IH]; cbn [app lstrip]; [destruct (lstrip U t); reflexivity|].
  destruct (isspace U c); [exact IH|reflexivity].
Qed.

Lemma newline_is_space : isspace U 10 = true.
Proof. reflexivity. Qed.

(** The end of line does not count for [strip]. *)
Lemma strip_newline (s : str) : strip U (s ++ [10]) = strip U s.
Proof.
  unfold strip, rstrip. rewrite lstrip_app.
  destruct (lstrip U s) as [|c r] eqn:E.
  - cbn [lstrip]. rewrite newline_is_space. reflexivity.
  - rewrite rev_app_distr. cbn [rev app lstrip].
    rewrite newline_is_space. reflexivity.
Qed.

Lemma lstrip_length (s : str) : (length (lstrip U s) <= length s)%nat.
Proof.
  induction s as [|c s IH]; cbn [lstrip length]; [lia|].
  destruct (isspace U c); cbn [length]; lia.
Qed.

Lemma strip_length (s : str) : (length (strip U s) <= length (lstrip U s))%nat.
Proof.
  unfold strip, rstrip. rewrite length_rev.
  pose proof (lstrip_length (rev (lstrip U s))) as H.
  rewrite length_rev in H. exact H.
Qed.

(** A string that [strip] leaves as it is has no space at either end. *)
Lemma stripped_ends (s : str) :
  strip U s = s -> lstrip U s = s /\ lstrip U (rev s) = rev s.
Proof.
  intros H.
  assert (H1 : lstrip U s = s).
  { destruct s as [|c r]; [reflexivity|]. cbn [lstrip].
    destruct (isspace U c) eqn:E; [|reflexivity]. exfalso.
    pose proof (strip_length (c :: r)) as Hl. rewrite H in Hl.
    cbn [lstrip] in Hl. rewrite E in Hl.
    pose proof (lstrip_length r). cbn [length] in Hl. lia. }
  split; [exact H1|].
  unfold strip, rstrip in H. rewrite H1 in H.
  rewrite <- H at 2. rewrite rev_involutive. reflexivity.
Qed.

(** A stripped, non-empty end keeps what stands before it. *)
Lemma strip_keeps (c : char) (m t : str) :
  isspace U c = false -> t <> [] -> strip U t = t ->
  strip U (c :: m ++ t) = c :: m ++ t.
Proof.
  intros Hc Hne Ht. apply stripped_ends in Ht as [_ Hr].
  unfold strip, rstrip. cbn [lstrip]. rewrite Hc.
  change (c :: m ++ t) with ((c :: m) ++ t). rewrite rev_app_distr, lstrip_app, Hr.
  destruct (rev t) as [|x r] eqn:E.
  - exfalso. apply Hne. rewrite <- (rev_involutive t), E. reflexivity.
  - rewrite <- E, <- rev_app_distr. apply rev_involutive.
Qed.

(** [strip] keeps a first character that is no space. *)
Lemma strip_head (c : char) (s : str) :
  isspace U c = false -> exists r, strip U (c :: s) = c :: r.
Proof.
  intros Hc. unfold strip, rstrip. cbn [lstrip]. rewrite Hc.
  cbn [rev]. rewrite lstrip_app.
  destruct (lstrip U (rev s)) as [|x l].
  - cbn [lstrip]. rewrite Hc. exists []. reflexivity.
  - exists (rev (x :: l)). rewrite rev_app_distr. reflexivity.
Qed.

Lemma strip_after_space (s : str) : strip U (32 :: s) = strip U s.
Proof. reflexivity. Qed.

End StripFacts.

(** ** Decimal numbers *)

Section DecimalFacts.
Variable digit_value_ext : char -> N.

Definition digits_value (s : str) : N :=
  fold_left (fun acc c => acc * 10 + Report.digit_value digit_value_ext c) s 0.

Lemma digits_value_snoc (s : str) (d : N) :
  d < 10 -> digits_value (s ++ [48 + d]) = digits_value s * 10 + d.
Proof.
  intros Hd. unfold digits_value. rewrite fold_left_app. cbn [fold_left].
  unfold Report.digit_value.
  assert (E : ascii_digit (48 + d) = true) by (apply in_range_spec; lia).
  rewrite E. f_equal. lia.
Qed.

Lemma one_digit (d : N) :
  d < 10 ->
  [48 + d] <> [] /\ forallb ascii_digit [48 + d] = true
  /\ digits_value [48 + d] = d.
Proof.
  intros Hd. split; [discriminate|]. split.
  - cbn [forallb]. rewrite andb_true_r. apply in_range_spec. lia.
  - change [48 + d] with ([] ++ [48 + d]).
    rewrite digits_value_snoc by exact Hd. reflexivity.
Qed.

Lemma dec_digits_step (fuel : nat) (n : N) (acc : str) :
  dec_digits (S fuel) n acc
  = if n <? 10 then (48 + n mod 10) :: acc
    else dec_digits fuel (n / 10) ((48 + n mod 10) :: acc).
Proof. reflexivity. Qed.

Lemma dec_digits_spec (fuel : nat) : forall (n : N) (acc : str),
  n < 10 ^ N.of_nat (S fuel) ->
  exists ds, dec_digits (S fuel) n acc = ds ++ acc
             /\ ds <> [] /\ forallb ascii_digit ds = true
             /\ digits_value ds = n.
Proof.
  induction fuel as [|f IH]; intros n acc Hn;
    pose proof (N.mod_lt n 10 ltac:(lia)) as Hm;
    pose proof (N.div_mod n 10 ltac:(lia)) as Hdm;
    rewrite dec_digits_step;
    set (d := n mod 10) in *; clearbody d.
  - change (10 ^ N.of_nat 1) with 10 in Hn.
    assert (E : (n <? 10) = true) by (apply N.ltb_lt; exact Hn). rewrite E.
    assert (n = d).
    { rewrite (N.div_small n 10) in Hdm by exact Hn. lia. }
    subst n. exists [48 + d]. split; [reflexivity|]. apply one_digit. exact Hm.
  - destruct (n <? 10) eqn:E.
    + apply N.ltb_lt in E. assert (n = d).
      { rewrite (N.div_small n 10) in Hdm by exact E. lia. }
      subst n. exists [48 + d]. split; [reflexivity|]. apply one_digit. exact Hm.
    + destruct (IH (n / 10) ((48 + d) :: acc)) as (ds & Hd & Hne & Hall & Hv).
      { apply N.Div0.div_lt_upper_bound.
        rewrite Nat2N.inj_succ, N.pow_succ_r' in Hn. exact Hn. }
      exists (ds ++ [48 + d]). repeat split.
      * rewrite Hd, <- app_assoc. reflexivity.
      * destruct ds; discriminate.
      * rewrite forallb_app, Hall. apply one_digit. exact Hm.
      * rewrite digits_value_snoc by exact Hm. rewrite Hv.
        set (q := n / 10) in *. clearbody q. lia.
Qed.

Lemma log2_fuel (n : N) : n < 10 ^ N.of_nat (S (N.to_nat (N.log2 n))).
Proof.
  rewrite Nat2N.inj_succ, N2Nat.id.
  apply N.lt_le_trans with (2 ^ N.succ (N.log2 n)).
  - destruct n as [|p]; [cbn; lia|]. apply N.log2_spec. lia.
  - apply N.pow_le_mono_l. lia.
Qed.

(** The decimal digits of a number: ASCII digits, at least one, and [int]
    reads the number back. *)
Lemma str_of_N_spec (n : N) :
  str_of_N n <> [] /\ forallb ascii_digit (str_of_N n) = true
  /\ digits_value (str_of_N n) = n.
Proof.
  unfold str_of_N.
  destruct (dec_digits_spec _ n [] (log2_fuel n)) as (ds & Hd & Hne & Hall & Hv).
  rewrite Hd, app_nil_r. auto.
Qed.

Lemma str_of_Z_spec (n : Z) :
  (0 <= n)%Z ->
  Report.str_of_Z n <> [] /\ forallb ascii_digit (Report.str_of_Z n) = true
  /\ Report.int_of_digits digit_value_ext (Report.str_of_Z n) = n.
Proof.
  intros Hn. unfold Report.str_of_Z, Report.int_of_digits.
  destruct (str_of_N_spec (Z.to_N n)) as (H1 & H2 & H3).
  destruct n as [|p|p]; [| |lia];
    (split; [exact H1|]; split; [exact H2|]);
    fold (digits_value (str_of_N (Z.to_N 0))) in *;
    try fold (digits_value (str_of_N (Z.to_N (Z.pos p)))); rewrite H3; reflexivity.
Qed.

End DecimalFacts.

(** ** The lines of the report *)

(** A string without line ending inside. *)
Definition one_line (s : str) : Prop := mem 10 s = false /\ mem 13 s = false.

Definition nl (l : str) : str := l ++ [10].

Section ReportLines.
Variable repr_chars : list detail -> str.

Definition anomaly_lines (a : anomaly) : list str :=
  [ []; u8 "Строка " ++ Report.str_of_Z (line_num a) ++ u8 ":"; line_text a ]
  ++ match chars a with
     | Some l => [u8 "Подозрительные символы: " ++ repr_chars l]
     | None => []
     end.

Definition type_lines (item : kind * list anomaly) : list str :=
  [ []; u8 "Тип: " ++ Report.kind_name (fst item) ++ u8 " ("
          ++ str_of_nat (length (snd item)) ++ u8 " случаев)";
    repeat_str [45] 80 ]
  ++ flat_map anomaly_lines (snd item).

Definition section_lines (entry : str * list anomaly) : list str :=
  [ []; repeat_str [61] 80; u8 "Файл: " ++ fst entry;
    u8 "Всего аномалий: " ++ str_of_nat (length (snd entry));
    repeat_str [61] 80; [] ]
  ++ flat_map type_lines (Report.sorted_items (Report.by_type_of (snd entry))).

Definition report_lines (files_with_anomalies : list (str * list anomaly))
  : list str :=
  [ u8 "ОТЧЕТ ОБ АНОМАЛИЯХ В ТЕКСТОВЫХ ФАЙЛАХ"; repeat_str [61] 80; [] ]
  ++ flat_map section_lines files_with_anomalies.

Lemma concat_flat_map_lines {A} (w ls : A -> list str) (l : list A) :
  (forall x, concat (w x) = concat (map nl (ls x))) ->
  concat (flat_map w l) = concat (map nl (flat_map ls l)).
Proof.
  intros H. induction l as [|x l IH]; cbn [flat_map]; [reflexivity|].
  rewrite map_app, !concat_app, H, IH. reflexivity.
Qed.

Lemma app_eq2 {A} (a b c d : list A) : a = c -> b = d -> a ++ b = c ++ d.
Proof. intros -> ->. reflexivity. Qed.

Lemma anomaly_text (a : anomaly) :
  concat (Report.anomaly_writes repr_chars a) = concat (map nl (anomaly_lines a)).
Proof.
  unfold Report.anomaly_writes, anomaly_lines, nl.
  destruct (chars a); cbn [app map concat]; rewrite <- ?app_assoc;
    cbn [app]; rewrite <- ?app_assoc; reflexivity.
Qed.

Lemma type_text (item : kind * list anomaly) :
  concat (Report.type_writes repr_chars item) = concat (map nl (type_lines item)).
Proof.
  destruct item as [k g]. unfold Report.type_writes, type_lines.
  cbv beta iota. cbn [fst snd].
  rewrite map_app, !concat_app.
  apply app_eq2; [|apply concat_flat_map_lines, anomaly_text].
  unfold nl. cbn [app map concat]. rewrite <- ?app_assoc.
  cbn [app]. rewrite <- ?app_assoc. reflexivity.
Qed.

Lemma section_text (entry : str * list anomaly) :
  concat (Report.file_writes repr_chars entry)
  = concat (map nl (section_lines entry)).
Proof.
  destruct entry as [f anoms]. unfold Report.file_writes, section_lines.
  cbv beta iota. cbn [fst snd]. rewrite map_app, !concat_app.
  apply app_eq2; [|apply concat_flat_map_lines, type_text].
  unfold nl. cbn [app map concat]. rewrite <- ?app_assoc.
  cbn [app]. rewrite <- ?app_assoc. reflexivity.
Qed.

(** The text of the report is its lines, each followed by a line feed. *)
Lemma report_text_lines (fwa : list (str * list anomaly)) :
  Report.report_text repr_chars fwa = concat (map nl (report_lines fwa)).
Proof.
  unfold Report.report_text, report_lines.
  rewrite map_app, !concat_app.
  apply app_eq2; [|apply concat_flat_map_lines, section_text].
  unfold nl. cbn [app map concat]. rewrite <- ?app_assoc.
  cbn [app]. rewrite <- ?app_assoc. reflexivity.
Qed.

End ReportLines.

Lemma mem_app (c : char) (a b : str) : mem c (a ++ b) = mem c a || mem c b.
Proof. unfold mem. apply existsb_app. Qed.

Lemma lines_from_line (l : str) : forall (cur rest : str),
  one_line l ->
  Report.lines_from false cur (l ++ 10 :: rest)
  = (rev cur ++ l ++ [10]) :: Report.lines_from false [] rest.
Proof.
  induction l as [|c l IH]; intros cur rest [H10 H13].
  - cbn [app Report.lines_from]. rewrite N.eqb_refl. cbn [rev].
    reflexivity.
  - cbn [mem existsb] in H10, H13. unfold mem in IH.
    apply orb_false_iff in H10 as [Hc10 H10]. apply orb_false_iff in H13 as [Hc13 H13].
    cbn [app Report.lines_from].
    rewrite (N.eqb_sym c 10), Hc10, (N.eqb_sym c 13), Hc13.
    rewrite IH by (split; assumption).
    cbn [rev]. rewrite <- app_assoc. reflexivity.
Qed.

(** Lines without line ending inside are read back as written. *)
Lemma file_lines_of_lines (ls : list str) :
  Forall one_line ls -> Report.file_lines (concat (map nl ls)) = map nl ls.
Proof.
  unfold Report.file_lines. induction ls as [|l ls IH]; intros H; [reflexivity|].
  apply Forall_cons_iff in H as [Hl Hls].
  cbn [map concat]. unfold nl at 1. rewrite <- app_assoc. cbn [app].
  rewrite lines_from_line by exact Hl. rewrite IH by exact Hls. reflexivity.
Qed.

(** ** The lines as the parser sees them *)

Ltac literal s :=
  let v := eval vm_compute in (u8 s) in change (u8 s) with v in *.

Section LineFacts.
Variable ext : tables.
Local Abbreviation U := (overlay ext).
Variable digit_value_ext : char -> N.

Lemma lstrip_keeps_head (c : char) (s : str) :
  isspace U c = false -> lstrip U (c :: s) = c :: s.
Proof. intros H. cbn [lstrip]. rewrite H. reflexivity. Qed.

Lemma strip_fixed_ends (s : str) :
  lstrip U s = s -> lstrip U (rev s) = rev s -> strip U s = s.
Proof.
  intros H1 H2. unfold strip, rstrip. rewrite H1, H2. apply rev_involutive.
Qed.

Lemma last_of_cons (prev : option char) (c : char) (w : str) :
  last_of (Some c) w = last_of prev (c :: w).
Proof.
  unfold last_of. cbn [rev]. destruct (rev w); reflexivity.
Qed.

Lemma last_of_app (prev : option char) (w v : str) :
  last_of (last_of prev w) v = last_of prev (w ++ v).
Proof.
  unfold last_of. rewrite rev_app_distr.
  destruct (rev v); cbn [app]; reflexivity.
Qed.

(** Literals match themselves. *)
Lemma match_here_lits (w : str) : forall (r : list node) (prev : option char) (s : str),
  match_here U false (lits w ++ r) prev (w ++ s)
  = match match_here U false r (last_of prev w) s with
    | Some (m, t) => Some (w ++ m, t)
    | None => None
    end.
Proof.
  induction w as [|c w IH]; intros r prev s.
  - cbn [lits map app]. unfold last_of. cbn [rev].
    destruct (match_here U false r prev s) as [[m t]|]; reflexivity.
  - cbn [lits map app match_here]. fold (lits w).
    assert (E : in_cset U false {| negated := false; items := [IChar c] |} c = true).
    { unfold in_cset. cbn [negated items existsb in_item xorb].
      rewrite N.eqb_refl. reflexivity. }
    unfold lit at 1. rewrite E, IH, (last_of_cons prev).
    destruct (match_here U false r (last_of prev (c :: w)) s) as [[m t]|];
      reflexivity.
Qed.

Lemma match_here_lits_end (w : str) (prev : option char) (s : str) :
  match_here U false (lits w) prev (w ++ s) = Some (w, s).
Proof.
  rewrite <- (app_nil_r (lits w)), match_here_lits. cbn [match_here].
  rewrite app_nil_r. reflexivity.
Qed.

Lemma group_counts_top cont prev s lo k r :
  (lo <= k)%nat ->
  cont (last_of prev (firstn k s)) (skipn k s) = Some r ->
  Report.group_counts cont prev s lo k = Some (firstn k s).
Proof.
  intros Hlo Hc. apply Nat.leb_le in Hlo.
  destruct k; cbn [Report.group_counts]; rewrite Hlo, Hc; reflexivity.
Qed.

Lemma firstn_exact {A} (a b : list A) : firstn (length a) (a ++ b) = a.
Proof.
  rewrite firstn_app, Nat.sub_diag, firstn_all. cbn [firstn].
  apply app_nil_r.
Qed.

Lemma skipn_exact {A} (a b : list A) : skipn (length a) (a ++ b) = b.
Proof.
  rewrite skipn_app, Nat.sub_diag, skipn_all. reflexivity.
Qed.

Lemma digit_class (c : char) :
  in_cset U false (cls [ICat Digit]) c = isdecimal U c.
Proof.
  unfold in_cset, cls. cbn [negated items existsb in_item in_category xorb].
  apply orb_false_r.
Qed.

Lemma digits_in_class (ds : str) :
  forallb ascii_digit ds = true ->
  forallb (in_cset U false (cls [ICat Digit])) ds = true.
Proof.
  intros H. rewrite forallb_forall in *. intros c Hc.
  rewrite digit_class. specialize (H c Hc).
  cbn [isdecimal overlay reference]. rewrite ascii_covered; [exact H|].
  apply in_range_spec in H. lia.
Qed.

(** A group of digits followed by a character that is no digit. *)
Lemma digits_then (ds : str) (d : char) (rest : str) (post : list node)
    (prev : option char) (r : str * str) :
  ds <> [] -> forallb ascii_digit ds = true -> isdecimal U d = false ->
  match_here U false post (last_of prev ds) (d :: rest) = Some r ->
  match_here U false (Rep (cls [ICat Digit]) 1 None :: post) prev
             (ds ++ d :: rest)
  = Some (ds ++ fst r, snd r).
Proof.
  intros Hne Hds Hd Hpost. cbn [match_here].
  rewrite (run_length_stops ext false _ ds d rest (digits_in_class ds Hds))
    by (rewrite digit_class; exact Hd).
  destruct r as [m t].
  erewrite try_counts_top.
  - rewrite firstn_exact. reflexivity.
  - destruct ds; [congruence|cbn [length]; lia].
  - rewrite firstn_exact, skipn_exact. exact Hpost.
Qed.

Lemma str_of_nat_digits (n : nat) :
  str_of_nat n <> [] /\ forallb ascii_digit (str_of_nat n) = true.
Proof.
  unfold str_of_nat.
  destruct (str_of_N_spec digit_value_ext (N.of_nat n)) as (H1 & H2 & _). auto.
Qed.

Lemma kind_name_word (k : kind) :
  forallb (in_cset U false (cls [ICat Word])) (Report.kind_name k) = true.
Proof. destruct k; vm_compute; reflexivity. Qed.

(** The group of a line [Тип: name (n случаев)] is the name. *)
Lemma type_line_group_of (k : kind) (n : nat) :
  Report.type_line_group ext
    (u8 "Тип: " ++ Report.kind_name k ++ u8 " (" ++ str_of_nat n
       ++ u8 " случаев)")
  = Some (Report.kind_name k).
Proof.
  destruct (str_of_nat_digits n) as [Hne Hds].
  unfold Report.type_line_group, Report.match_group.
  rewrite match_here_lits_end.
  literal " ("%string. literal " случаев)"%string. cbn [app].
  rewrite (run_length_stops ext false _ (Report.kind_name k) 32 _ (kind_name_word k))
    by (vm_compute; reflexivity).
  erewrite group_counts_top.
  - rewrite firstn_exact. reflexivity.
  - destruct k; vm_compute; lia.
  - rewrite firstn_exact, skipn_exact.
    change (lits [32; 40] ++ [Rep (cls [ICat Digit]) 1 None]
              ++ lits [32; 1089; 1083; 1091; 1095; 1072; 1077; 1074; 41])
      with (lits [32; 40] ++ (Rep (cls [ICat Digit]) 1 None
              :: lits [32; 1089; 1083; 1091; 1095; 1072; 1077; 1074; 41])).
    change (32 :: 40 :: str_of_nat n ++ [32; 1089; 1083; 1091; 1095; 1072; 1077; 1074; 41])
      with ([32; 40] ++ (str_of_nat n ++ 32 :: [1089; 1083; 1091; 1095; 1072; 1077; 1074; 41])).
    rewrite match_here_lits.
    erewrite digits_then; [reflexivity|exact Hne|exact Hds|vm_compute; reflexivity|].
    change (32 :: [1089; 1083; 1091; 1095; 1072; 1077; 1074; 41])
      with ([32; 1089; 1083; 1091; 1095; 1072; 1077; 1074; 41] ++ []).
    apply match_here_lits_end.
Qed.

(** The group of a line [Строка n:] is the number. *)
Lemma line_number_group_of (ds : str) :
  ds <> [] -> forallb ascii_digit ds = true ->
  Report.line_number_group ext (u8 "Строка " ++ ds ++ u8 ":") = Some ds.
Proof.
  intros Hne Hds.
  unfold Report.line_number_group, Report.match_group.
  rewrite match_here_lits_end. literal ":"%string.
  rewrite (run_length_stops ext false _ ds 58 [] (digits_in_class ds Hds))
    by (vm_compute; reflexivity).
  erewrite group_counts_top.
  - rewrite firstn_exact. reflexivity.
  - destruct ds; [congruence|cbn [length]; lia].
  - rewrite firstn_exact, skipn_exact.
    change [58] with ([58] ++ []). apply match_here_lits_end.
Qed.

End LineFacts.

(** ** The parser, line by line *)

(** [d[kind].append(n)] on the dict of one file. *)
Definition add_hit (k : kind) (h : CreateSummary.hits) (n : Z) : CreateSummary.hits :=
  match k with
  | token_like =>
      CreateSummary.Build_hits (CreateSummary.token_like h ++ [n])
        (CreateSummary.unusual_symbols h) (CreateSummary.latin_in_russian h)
        (CreateSummary.multiple_unusual_chars h)
  | unusual_symbols =>
      CreateSummary.Build_hits (CreateSummary.token_like h)
        (CreateSummary.unusual_symbols h ++ [n]) (CreateSummary.latin_in_russian h)
        (CreateSummary.multiple_unusual_chars h)
  | latin_in_russian =>
      CreateSummary.Build_hits (CreateSummary.token_like h)
        (CreateSummary.unusual_symbols h) (CreateSummary.latin_in_russian h ++ [n])
        (CreateSummary.multiple_unusual_chars h)
  | multiple_unusual_chars =>
      CreateSummary.Build_hits (CreateSummary.token_like h)
        (CreateSummary.unusual_symbols h) (CreateSummary.latin_in_russian h)
        (CreateSummary.multiple_unusual_chars h ++ [n])
  end.

(** [d[kind]] *)
Definition get_hits (k : kind) (h : CreateSummary.hits) : list Z :=
  match k with
  | token_like => CreateSummary.token_like h
  | unusual_symbols => CreateSummary.unusual_symbols h
  | latin_in_russian => CreateSummary.latin_in_russian h
  | multiple_unusual_chars => CreateSummary.multiple_unusual_chars h
  end.

(** A file name that the report and its parser keep as it is. *)
Definition name_survives (ext : tables) (f : str) : Prop :=
  f <> [] /\ strip (overlay ext) f = f /\ one_line f
  /\ occurs_in (u8 "Файл:") f = false.

(** A line of text that the parser does not take for one of its markers. *)
Definition text_survives (ext : tables) (t : str) : Prop :=
  strip (overlay ext) t = t /\ one_line t
  /\ is_prefix (u8 "Файл:") t = false
  /\ is_prefix (u8 "Тип:") t = false
  /\ is_prefix (u8 "Строка ") t = false.

Definition record_survives (ext : tables) (a : anomaly) : Prop :=
  (0 <= line_num a)%Z /\ text_survives ext (line_text a).

Section ParseFacts.
Variable ext : tables.
Local Abbreviation U := (overlay ext).
Variable digit_value_ext : char -> N.
Variable repr_chars : list detail -> str.

Local Abbreviation parse_line := (Report.parse_line ext digit_value_ext).
Local Abbreviation parse_lines := (Report.parse_lines ext digit_value_ext).

Lemma is_prefix_head (x c : char) (w r : str) :
  x <> c -> is_prefix (x :: w) (c :: r) = false.
Proof.
  intros H. cbn [is_prefix]. apply N.eqb_neq in H. rewrite H. reflexivity.
Qed.

Lemma parse_line_inert (st : Report.parser_state) (raw : str) :
  is_prefix (u8 "Файл:") (strip U raw) = false ->
  is_prefix (u8 "Тип:") (strip U raw) = false ->
  is_prefix (u8 "Строка ") (strip U raw) = false ->
  parse_line st raw = Some st.
Proof.
  intros H1 H2 H3. unfold Report.parse_line. rewrite H1, H2, H3. reflexivity.
Qed.

Lemma parse_line_empty (st : Report.parser_state) : parse_line st (nl []) = Some st.
Proof. apply parse_line_inert; reflexivity. Qed.

Lemma parse_line_other_head (st : Report.parser_state) (c : char) (s : str) :
  isspace U c = false -> c <> 1060 -> c <> 1058 -> c <> 1057 ->
  parse_line st (nl (c :: s)) = Some st.
Proof.
  intros Hc H1 H2 H3. unfold nl.
  apply parse_line_inert; rewrite strip_newline;
    destruct (strip_head ext c s Hc) as [r ->].
  - literal "Файл:"%string. apply is_prefix_head. congruence.
  - literal "Тип:"%string. apply is_prefix_head. congruence.
  - literal "Строка "%string. apply is_prefix_head. congruence.
Qed.

Lemma parse_line_text (st : Report.parser_state) (t : str) :
  text_survives ext t -> parse_line st (nl t) = Some st.
Proof.
  intros (Hs & _ & H1 & H2 & H3). unfold nl.
  apply parse_line_inert; rewrite strip_newline, Hs; assumption.
Qed.

Lemma replace_absent (old new s : str) :
  occurs_in old s = false -> Report.replace_from old new s 0 = s.
Proof.
  induction s as [|c s IH]; intros H; [reflexivity|].
  cbn [occurs_in] in H. apply orb_false_iff in H as [H1 H2].
  cbn [Report.replace_from]. rewrite H1, IH by exact H2. reflexivity.
Qed.

Lemma file_line_stripped (f : str) :
  name_survives ext f -> strip U (nl (u8 "Файл: " ++ f)) = u8 "Файл: " ++ f.
Proof.
  intros (Hne & Hs & _ & _). unfold nl. rewrite strip_newline.
  apply stripped_ends in Hs as [_ Hr].
  apply strip_fixed_ends.
  - literal "Файл: "%string. cbn [app]. apply lstrip_keeps_head. reflexivity.
  - rewrite rev_app_distr, lstrip_app, Hr.
    destruct (rev f) as [|x r] eqn:E; [|reflexivity].
    exfalso. apply Hne. rewrite <- (rev_involutive f), E. reflexivity.
Qed.

Lemma parse_file_line (st : Report.parser_state) (f : str) :
  name_survives ext f ->
  parse_line st (nl (u8 "Файл: " ++ f))
  = Some {| Report.data := Report.dict_set (Report.data st) f Report.empty_hits;
            Report.current_file := Some f;
            Report.current_type := Report.current_type st |}.
Proof.
  intros Hf. unfold Report.parse_line. rewrite (file_line_stripped f Hf).
  destruct Hf as (Hne & Hs & _ & Hocc).
  assert (E1 : is_prefix (u8 "Файл:") (u8 "Файл: " ++ f) = true)
    by (vm_compute; reflexivity).
  rewrite E1.
  assert (E2 : Report.replace (u8 "Файл:") [] (u8 "Файл: " ++ f) = 32 :: f).
  { unfold Report.replace. literal "Файл: "%string. literal "Файл:"%string.
    cbn [app Report.replace_from is_prefix length pred].
    rewrite !N.eqb_refl. cbn [andb app].
    assert (E : (1060 =? 32) = false) by reflexivity. rewrite E. cbn [andb].
    rewrite replace_absent by exact Hocc. reflexivity. }
  rewrite E2, strip_after_space, Hs. reflexivity.
Qed.

Lemma type_line_stripped (k : kind) (n : nat) :
  strip U (nl (u8 "Тип: " ++ Report.kind_name k ++ u8 " (" ++ str_of_nat n
                 ++ u8 " случаев)"))
  = u8 "Тип: " ++ Report.kind_name k ++ u8 " (" ++ str_of_nat n ++ u8 " случаев)".
Proof.
  unfold nl. rewrite strip_newline. apply strip_fixed_ends.
  - literal "Тип: "%string. cbn [app]. apply lstrip_keeps_head. reflexivity.
  - rewrite !rev_app_distr.
    let v := eval vm_compute in (rev (u8 " случаев)")) in
      change (rev (u8 " случаев)")) with v.
    rewrite <- !app_assoc. cbn [app]. apply lstrip_keeps_head. reflexivity.
Qed.

Lemma parse_type_line (st : Report.parser_state) (k : kind) (n : nat) :
  parse_line st (nl (u8 "Тип: " ++ Report.kind_name k ++ u8 " ("
                       ++ str_of_nat n ++ u8 " случаев)"))
  = Some {| Report.data := Report.data st;
            Report.current_file := Report.current_file st;
            Report.current_type := Some (Report.kind_name k) |}.
Proof.
  unfold Report.parse_line. rewrite type_line_stripped.
  rewrite (type_line_group_of ext digit_value_ext k n).
  assert (E1 : is_prefix (u8 "Файл:")
                 (u8 "Тип: " ++ Report.kind_name k ++ u8 " (" ++ str_of_nat n
                    ++ u8 " случаев)") = false) by (vm_compute; reflexivity).
  assert (E2 : is_prefix (u8 "Тип:")
                 (u8 "Тип: " ++ Report.kind_name k ++ u8 " (" ++ str_of_nat n
                    ++ u8 " случаев)") = true) by (vm_compute; reflexivity).
  rewrite E1, E2. reflexivity.
Qed.

Lemma number_line_stripped (ds : str) :
  strip U (nl (u8 "Строка " ++ ds ++ u8 ":")) = u8 "Строка " ++ ds ++ u8 ":".
Proof.
  unfold nl. rewrite strip_newline. apply strip_fixed_ends.
  - literal "Строка "%string. cbn [app]. apply lstrip_keeps_head. reflexivity.
  - rewrite !rev_app_distr. literal ":"%string. cbn [rev app].
    apply lstrip_keeps_head. reflexivity.
Qed.

Lemma str_eqb_eq (a b : str) : str_eqb a b = true <-> a = b.
Proof.
  revert b. induction a as [|x a IH]; intros [|y b]; cbn [str_eqb];
    try (split; congruence).
  rewrite andb_true_iff, N.eqb_eq, IH. split.
  - intros [-> ->]. reflexivity.
  - intros E. injection E as -> ->. auto.
Qed.

Lemma append_hit_kind (h : CreateSummary.hits) (k : kind) (n : Z) :
  Report.append_hit h (Report.kind_name k) n = Some (add_hit k h n).
Proof. destruct h, k; reflexivity. Qed.

Lemma dict_set_fresh (done : Report.files_data) (f : str) (v : CreateSummary.hits) :
  ~ In f (map fst done) -> Report.dict_set done f v = done ++ [(f, v)].
Proof.
  induction done as [|[k h] done IH]; intros H; [reflexivity|].
  cbn [Report.dict_set app]. cbn [map fst In] in H.
  destruct (str_eqb k f) eqn:E.
  - apply str_eqb_eq in E. exfalso. apply H. left. exact E.
  - rewrite IH; [reflexivity|]. intros Hin. apply H. right. exact Hin.
Qed.

Lemma dict_append_last (done : Report.files_data) (f : str)
    (h : CreateSummary.hits) (k : kind) (n : Z) :
  ~ In f (map fst done) ->
  Report.dict_append (done ++ [(f, h)]) f (Report.kind_name k) n
  = Some (done ++ [(f, add_hit k h n)]).
Proof.
  induction done as [|[g hg] done IH]; intros H.
  - cbn [app Report.dict_append].
    assert (E : str_eqb f f = true) by (apply str_eqb_eq; reflexivity).
    rewrite E, append_hit_kind. reflexivity.
  - cbn [app Report.dict_append]. cbn [map fst In] in H.
    destruct (str_eqb g f) eqn:E.
    + apply str_eqb_eq in E. exfalso. apply H. left. exact E.
    + rewrite IH; [reflexivity|]. intros Hin. apply H. right. exact Hin.
Qed.

Lemma kind_name_truthy (k : kind) : Report.truthy (Some (Report.kind_name k)) = true.
Proof. destruct k; reflexivity. Qed.

Lemma parse_number_line (done : Report.files_data) (f : str)
    (h : CreateSummary.hits) (k : kind) (n : Z) :
  f <> [] -> ~ In f (map fst done) -> (0 <= n)%Z ->
  parse_line {| Report.data := done ++ [(f, h)];
                Report.current_file := Some f;
                Report.current_type := Some (Report.kind_name k) |}
             (nl (u8 "Строка " ++ Report.str_of_Z n ++ u8 ":"))
  = Some {| Report.data := done ++ [(f, add_hit k h n)];
            Report.current_file := Some f;
            Report.current_type := Some (Report.kind_name k) |}.
Proof.
  intros Hne Hf Hn. unfold Report.parse_line. rewrite number_line_stripped.
  destruct (str_of_Z_spec digit_value_ext n Hn) as (Hd1 & Hd2 & Hd3).
  rewrite (line_number_group_of ext _ Hd1 Hd2).
  assert (E1 : is_prefix (u8 "Файл:") (u8 "Строка " ++ Report.str_of_Z n ++ u8 ":")
               = false) by (vm_compute; reflexivity).
  assert (E2 : is_prefix (u8 "Тип:") (u8 "Строка " ++ Report.str_of_Z n ++ u8 ":")
               = false) by (vm_compute; reflexivity).
  assert (E3 : is_prefix (u8 "Строка ") (u8 "Строка " ++ Report.str_of_Z n ++ u8 ":")
               = true) by (vm_compute; reflexivity).
  rewrite E1, E2, E3. cbn [Report.current_file Report.current_type Report.data].
  rewrite kind_name_truthy.
  assert (E4 : Report.truthy (Some f) = true) by (destruct f; [congruence|reflexivity]).
  rewrite E4. cbn [andb]. rewrite Hd3, dict_append_last by exact Hf. reflexivity.
Qed.

End ParseFacts.

(** ** The parser over the sections of the report *)

(** The records of the groups with a given kind, in the order of the groups. *)
Definition group_records (k : kind) (gs : list (kind * list anomaly)) : list anomaly :=
  concat (map snd (filter (fun item => kind_eqb (fst item) k) gs)).

(** What the parser has gathered for a file after its groups. *)
Definition gathered (gs : list (kind * list anomaly)) (h : CreateSummary.hits)
  : CreateSummary.hits :=
  fold_left (fun h item => fold_left (add_hit (fst item)) (map line_num (snd item)) h)
            gs h.

Section GroupFacts.

Lemma group_records_cons (k : kind) (item : kind * list anomaly)
    (gs : list (kind * list anomaly)) :
  group_records k (item :: gs)
  = (if kind_eqb (fst item) k then snd item else []) ++ group_records k gs.
Proof.
  unfold group_records. cbn [filter].
  destruct (kind_eqb (fst item) k); reflexivity.
Qed.

Lemma group_records_absent (k : kind) (gs : list (kind * list anomaly)) :
  ~ In k (map fst gs) -> group_records k gs = [].
Proof.
  induction gs as [|item gs IH]; intros H; [reflexivity|].
  rewrite group_records_cons. cbn [map In] in H.
  destruct (kind_eqb (fst item) k) eqn:E.
  - apply kind_eqb_eq in E. exfalso. apply H. left. exact E.
  - apply IH. intros Hin. apply H. right. exact Hin.
Qed.

Lemma by_type_append_keys (d : list (kind * list anomaly)) (a : anomaly) (k : kind) :
  In k (map fst (Report.by_type_append d a)) <-> In k (map fst d) \/ k = a_type a.
Proof.
  induction d as [|[k' l] d IH]; cbn [Report.by_type_append map fst In].
  - intuition auto.
  - destruct (kind_eqb k' (a_type a)) eqn:E; cbn [map fst In].
    + apply kind_eqb_eq in E. subst k'. intuition auto.
    + rewrite IH. intuition auto.
Qed.

Lemma by_type_append_NoDup (d : list (kind * list anomaly)) (a : anomaly) :
  NoDup (map fst d) -> NoDup (map fst (Report.by_type_append d a)).
Proof.
  induction d as [|[k' l] d IH]; cbn [Report.by_type_append map fst]; intros H.
  - constructor; [intros []|constructor].
  - apply NoDup_cons_iff in H as [Hk Hd].
    destruct (kind_eqb k' (a_type a)) eqn:E; cbn [map fst].
    + constructor; assumption.
    + constructor; [|apply IH; exact Hd].
      rewrite by_type_append_keys. intros [Hin | ->]; [contradiction|].
      assert (E' : kind_eqb (a_type a) (a_type a) = true)
        by (apply kind_eqb_eq; reflexivity).
      congruence.
Qed.

Lemma by_type_append_records (k : kind) (d : list (kind * list anomaly)) (a : anomaly) :
  NoDup (map fst d) ->
  group_records k (Report.by_type_append d a)
  = group_records k d ++ (if kind_eqb (a_type a) k then [a] else []).
Proof.
  induction d as [|[k' l] d IH]; cbn [Report.by_type_append map fst]; intros H.
  - rewrite group_records_cons. cbn [fst snd]. rewrite app_nil_r. reflexivity.
  - apply NoDup_cons_iff in H as [Hk Hd].
    destruct (kind_eqb k' (a_type a)) eqn:E.
    + apply kind_eqb_eq in E. subst k'. rewrite !group_records_cons. cbn [fst snd].
      destruct (kind_eqb (a_type a) k) eqn:Ek.
      * apply kind_eqb_eq in Ek. subst k.
        rewrite (group_records_absent _ d Hk), !app_nil_r. reflexivity.
      * rewrite app_nil_r. reflexivity.
    + rewrite !group_records_cons. cbn [fst snd]. rewrite (IH Hd), app_assoc.
      reflexivity.
Qed.

Lemma by_type_fold (k : kind) (anomalies : list anomaly) :
  forall d, NoDup (map fst d) ->
  NoDup (map fst (fold_left Report.by_type_append anomalies d))
  /\ group_records k (fold_left Report.by_type_append anomalies d)
     = group_records k d
       ++ filter (fun a => kind_eqb (a_type a) k) anomalies.
Proof.
  induction anomalies as [|a l IH]; intros d Hd; cbn [fold_left filter].
  - rewrite app_nil_r. auto.
  - destruct (IH (Report.by_type_append d a) (by_type_append_NoDup d a Hd))
      as [H1 H2].
    split; [exact H1|]. rewrite H2, by_type_append_records by exact Hd.
    rewrite <- app_assoc. destruct (kind_eqb (a_type a) k); reflexivity.
Qed.

Lemma insert_item_keys (x : kind * list anomaly) (l : list (kind * list anomaly))
    (k : kind) :
  In k (map fst (Report.insert_item x l)) <-> k = fst x \/ In k (map fst l).
Proof.
  induction l as [|y l IH]; cbn [Report.insert_item map In].
  - intuition auto.
  - destruct (str_ltb _ _); cbn [map In]; [rewrite IH|]; intuition auto.
Qed.

Lemma insert_item_records (k : kind) (x : kind * list anomaly)
    (l : list (kind * list anomaly)) :
  ~ In (fst x) (map fst l) ->
  group_records k (Report.insert_item x l) = group_records k (x :: l).
Proof.
  induction l as [|y l IH]; intros H; [reflexivity|].
  cbn [Report.insert_item]. cbn [map In] in H.
  destruct (str_ltb _ _); [|reflexivity].
  rewrite group_records_cons, IH by (intros Hin; apply H; right; exact Hin).
  rewrite !group_records_cons.
  destruct (kind_eqb (fst y) k) eqn:Ey, (kind_eqb (fst x) k) eqn:Ex;
    cbn [app]; try reflexivity.
  apply kind_eqb_eq in Ey, Ex. exfalso. apply H. left. congruence.
Qed.

Lemma sorted_items_spec (k : kind) (d : list (kind * list anomaly)) :
  NoDup (map fst d) ->
  group_records k (Report.sorted_items d) = group_records k d
  /\ forall k', In k' (map fst (Report.sorted_items d)) <-> In k' (map fst d).
Proof.
  induction d as [|x d IH]; cbn [Report.sorted_items fold_right map]; intros H.
  - split; [reflexivity|tauto].
  - apply NoDup_cons_iff in H as [Hx Hd]. destruct (IH Hd) as [H1 H2].
    fold (Report.sorted_items d). split.
    + rewrite insert_item_records by (rewrite H2; exact Hx).
      rewrite !group_records_cons, H1. reflexivity.
    + intros k'. rewrite insert_item_keys, H2. cbn [In]. intuition auto.
Qed.

(** The groups written for a file hold, kind by kind, its records of that
    kind in their order. *)
Lemma written_groups (k : kind) (anomalies : list anomaly) :
  group_records k (Report.sorted_items (Report.by_type_of anomalies))
  = filter (fun a => kind_eqb (a_type a) k) anomalies.
Proof.
  unfold Report.by_type_of.
  destruct (by_type_fold k anomalies [] (NoDup_nil _)) as [H1 H2].
  destruct (sorted_items_spec k _ H1) as [H3 _]. rewrite H3, H2. reflexivity.
Qed.

Lemma add_hits_get (k k' : kind) (nums : list Z) : forall h,
  get_hits k (fold_left (add_hit k') nums h)
  = get_hits k h ++ (if kind_eqb k' k then nums else []).
Proof.
  induction nums as [|n nums IH]; intros h; cbn [fold_left].
  - destruct (kind_eqb k' k); rewrite app_nil_r; reflexivity.
  - rewrite IH. destruct k, k'; cbn [get_hits add_hit kind_eqb
      CreateSummary.token_like CreateSummary.unusual_symbols
      CreateSummary.latin_in_russian CreateSummary.multiple_unusual_chars];
      rewrite <- ?app_assoc; reflexivity.
Qed.

Lemma gathered_get (k : kind) (gs : list (kind * list anomaly)) : forall h,
  get_hits k (gathered gs h) = get_hits k h ++ map line_num (group_records k gs).
Proof.
  unfold gathered. induction gs as [|item gs IH]; intros h; cbn [fold_left].
  - rewrite app_nil_r. reflexivity.
  - rewrite IH, add_hits_get, group_records_cons, map_app, <- app_assoc.
    destruct (kind_eqb (fst item) k); reflexivity.
Qed.

(** After the groups of a file the parser holds the line numbers of its
    records, kind by kind. *)
Lemma gathered_hits (anomalies : list anomaly) :
  gathered (Report.sorted_items (Report.by_type_of anomalies)) Report.empty_hits
  = hits_of anomalies.
Proof.
  pose proof (fun k => gathered_get k
                (Report.sorted_items (Report.by_type_of anomalies))
                Report.empty_hits) as H.
  pose proof (H token_like) as Ht. pose proof (H unusual_symbols) as Hu.
  pose proof (H latin_in_russian) as Hl. pose proof (H multiple_unusual_chars) as Hm.
  rewrite written_groups in Ht, Hu, Hl, Hm.
  destruct (gathered _ _) as [t u l m]. cbn [get_hits CreateSummary.token_like
    CreateSummary.unusual_symbols CreateSummary.latin_in_russian
    CreateSummary.multiple_unusual_chars Report.empty_hits app] in Ht, Hu, Hl, Hm.
  unfold hits_of, line_numbers_of. congruence.
Qed.

Lemma group_member (gs : list (kind * list anomaly)) (k : kind)
    (g : list anomaly) (a : anomaly) :
  In (k, g) gs -> In a g -> In a (group_records k gs).
Proof.
  intros Hg Ha. unfold group_records. apply in_concat. exists g. split; [|exact Ha].
  apply in_map_iff. exists (k, g). split; [reflexivity|].
  apply filter_In. split; [exact Hg|]. apply kind_eqb_eq. reflexivity.
Qed.

Lemma written_group_member (anomalies : list anomaly) (k : kind)
    (g : list anomaly) (a : anomaly) :
  In (k, g) (Report.sorted_items (Report.by_type_of anomalies)) ->
  In a g -> In a anomalies.
Proof.
  intros Hg Ha. pose proof (group_member _ k g a Hg Ha) as H.
  rewrite written_groups in H. apply filter_In in H as [H _]. exact H.
Qed.

End GroupFacts.

Section ParseRun.
Variable ext : tables.
Local Abbreviation U := (overlay ext).
Variable digit_value_ext : char -> N.
Variable repr_chars : list detail -> str.

Local Abbreviation parse_line := (Report.parse_line ext digit_value_ext).
Local Abbreviation parse_lines := (Report.parse_lines ext digit_value_ext).

Lemma parse_lines_app (l1 l2 : list str) : forall st,
  parse_lines st (l1 ++ l2)
  = match parse_lines st l1 with
    | Some st' => parse_lines st' l2
    | None => None
    end.
Proof.
  induction l1 as [|x l1 IH]; intros st; cbn [app Report.parse_lines];
    [reflexivity|].
  destruct (parse_line st x); [apply IH|reflexivity].
Qed.

Lemma parse_rule (st : Report.parser_state) (c : char) :
  isspace U c = false -> c <> 1060 -> c <> 1058 -> c <> 1057 ->
  parse_line st (nl (repeat_str [c] 80)) = Some st.
Proof.
  intros Hc H1 H2 H3. cbn [repeat_str app].
  apply parse_line_other_head; assumption.
Qed.

Lemma parse_anomaly (done : Report.files_data) (f : str)
    (h : CreateSummary.hits) (k : kind) (a : anomaly) :
  f <> [] -> ~ In f (map fst done) -> record_survives ext a ->
  parse_lines {| Report.data := done ++ [(f, h)];
                 Report.current_file := Some f;
                 Report.current_type := Some (Report.kind_name k) |}
              (map nl (anomaly_lines repr_chars a))
  = Some {| Report.data := done ++ [(f, add_hit k h (line_num a))];
            Report.current_file := Some f;
            Report.current_type := Some (Report.kind_name k) |}.
Proof.
  intros Hne Hf [Hn Ht]. unfold anomaly_lines.
  cbn [app map Report.parse_lines].
  rewrite parse_line_empty.
  rewrite parse_number_line by assumption.
  rewrite (parse_line_text ext digit_value_ext _ _ Ht).
  destruct (chars a) as [l|]; cbn [map Report.parse_lines]; [|reflexivity].
  literal "Подозрительные символы: "%string. cbn [app].
  rewrite parse_line_other_head; [reflexivity|reflexivity|discriminate..].
Qed.

Lemma parse_anomalies (done : Report.files_data) (f : str) (k : kind)
    (g : list anomaly) : forall (h : CreateSummary.hits),
  f <> [] -> ~ In f (map fst done) ->
  (forall a, In a g -> record_survives ext a) ->
  parse_lines {| Report.data := done ++ [(f, h)];
                 Report.current_file := Some f;
                 Report.current_type := Some (Report.kind_name k) |}
              (map nl (flat_map (anomaly_lines repr_chars) g))
  = Some {| Report.data := done ++ [(f, fold_left (add_hit k) (map line_num g) h)];
            Report.current_file := Some f;
            Report.current_type := Some (Report.kind_name k) |}.
Proof.
  induction g as [|a g IH]; intros h Hne Hf Hg; [reflexivity|].
  cbn [flat_map map fold_left]. rewrite map_app, parse_lines_app.
  rewrite parse_anomaly; [|assumption|assumption|apply Hg; left; reflexivity].
  apply IH; [assumption|assumption|]. intros b Hb. apply Hg. right. exact Hb.
Qed.

Lemma parse_group (done : Report.files_data) (f : str) (h : CreateSummary.hits)
    (t0 : option str) (item : kind * list anomaly) :
  f <> [] -> ~ In f (map fst done) ->
  (forall a, In a (snd item) -> record_survives ext a) ->
  parse_lines {| Report.data := done ++ [(f, h)];
                 Report.current_file := Some f;
                 Report.current_type := t0 |}
              (map nl (type_lines repr_chars item))
  = Some {| Report.data :=
              done ++ [(f, fold_left (add_hit (fst item))
                                     (map line_num (snd item)) h)];
            Report.current_file := Some f;
            Report.current_type := Some (Report.kind_name (fst item)) |}.
Proof.
  intros Hne Hf Hg. unfold type_lines.
  rewrite map_app, parse_lines_app. cbn [map Report.parse_lines].
  rewrite parse_line_empty, parse_type_line.
  cbn [Report.data Report.current_file].
  rewrite parse_rule; [|reflexivity|discriminate..].
  apply parse_anomalies; assumption.
Qed.

Lemma parse_groups (done : Report.files_data) (f : str)
    (gs : list (kind * list anomaly)) : forall (h : CreateSummary.hits) (t0 : option str),
  f <> [] -> ~ In f (map fst done) ->
  (forall k g a, In (k, g) gs -> In a g -> record_survives ext a) ->
  exists t1,
    parse_lines {| Report.data := done ++ [(f, h)];
                   Report.current_file := Some f;
                   Report.current_type := t0 |}
                (map nl (flat_map (type_lines repr_chars) gs))
    = Some {| Report.data := done ++ [(f, gathered gs h)];
              Report.current_file := Some f;
              Report.current_type := t1 |}.
Proof.
  induction gs as [|item gs IH]; intros h t0 Hne Hf Hg.
  - exists t0. reflexivity.
  - cbn [flat_map]. rewrite map_app, parse_lines_app.
    rewrite parse_group; [|assumption|assumption|].
    + unfold gathered. cbn [fold_left]. apply IH; [assumption|assumption|].
      intros k g a Hin Ha. apply (Hg k g a); [right; exact Hin|exact Ha].
    + intros a Ha. destruct item as [k g]. apply (Hg k g a); [left; reflexivity|exact Ha].
Qed.

Lemma parse_section (st : Report.parser_state) (f : str) (anomalies : list anomaly) :
  name_survives ext f -> ~ In f (map fst (Report.data st)) ->
  (forall a, In a anomalies -> record_survives ext a) ->
  exists t1,
    parse_lines st (map nl (section_lines repr_chars (f, anomalies)))
    = Some {| Report.data := Report.data st ++ [(f, hits_of anomalies)];
              Report.current_file := Some f;
              Report.current_type := t1 |}.
Proof.
  intros Hf Hfresh Ha. unfold section_lines. cbn [fst snd].
  rewrite map_app, parse_lines_app. cbn [map Report.parse_lines].
  rewrite parse_line_empty.
  rewrite parse_rule; [|reflexivity|discriminate..].
  rewrite parse_file_line by exact Hf.
  literal "Всего аномалий: "%string. cbn [app].
  rewrite parse_line_other_head; [|reflexivity|discriminate..].
  rewrite parse_rule; [|reflexivity|discriminate..].
  rewrite parse_line_empty.
  cbn [Report.data Report.current_type].
  rewrite dict_set_fresh by exact Hfresh.
  destruct Hf as (Hne & _).
  destruct (parse_groups (Report.data st) f
              (Report.sorted_items (Report.by_type_of anomalies))
              Report.empty_hits (Report.current_type st) Hne Hfresh) as [t1 Ht].
  { intros k g a Hg Hin. apply Ha. eapply written_group_member; eauto. }
  exists t1. rewrite <- gathered_hits. exact Ht.
Qed.

Lemma parse_sections (fwa : list (str * list anomaly)) : forall st,
  NoDup (map fst (Report.data st) ++ map fst fwa) ->
  (forall f anomalies, In (f, anomalies) fwa ->
     name_survives ext f /\ forall a, In a anomalies -> record_survives ext a) ->
  exists st',
    parse_lines st (map nl (flat_map (section_lines repr_chars) fwa)) = Some st'
    /\ Report.data st'
       = Report.data st ++ map (fun e => (fst e, hits_of (snd e))) fwa.
Proof.
  induction fwa as [|[f anomalies] fwa IH]; intros st Hnd Hok.
  - exists st. rewrite app_nil_r. auto.
  - cbn [flat_map]. rewrite map_app, parse_lines_app.
    destruct (Hok f anomalies (or_introl eq_refl)) as [Hf Ha].
    cbn [map fst] in Hnd.
    destruct (parse_section st f anomalies Hf) as [t1 Ht].
    { apply NoDup_remove_2 in Hnd. intros Hin. apply Hnd.
      apply in_or_app. left. exact Hin. }
    { exact Ha. }
    rewrite Ht.
    destruct (IH {| Report.data := Report.data st ++ [(f, hits_of anomalies)];
                    Report.current_file := Some f;
                    Report.current_type := t1 |}) as [st' [H1 H2]].
    { cbn [Report.data]. rewrite map_app, <- app_assoc. exact Hnd. }
    { intros g b Hin. apply Hok. right. exact Hin. }
    exists st'. split; [exact H1|]. rewrite H2. cbn [Report.data map fst snd].
    rewrite <- app_assoc. reflexivity.
Qed.

(** *** The lines of the report have no line ending inside *)

Lemma one_line_app (a b : str) : one_line a -> one_line b -> one_line (a ++ b).
Proof.
  intros [A1 A2] [B1 B2]. split; rewrite mem_app; [rewrite A1, B1|rewrite A2, B2];
    reflexivity.
Qed.

Lemma digits_one_line (ds : str) : forallb ascii_digit ds = true -> one_line ds.
Proof.
  intros H. split; apply not_true_is_false; intros Hm; apply mem_In in Hm;
    rewrite forallb_forall in H; apply H in Hm; discriminate.
Qed.

Lemma kind_name_one_line (k : kind) : one_line (Report.kind_name k).
Proof. destruct k; split; reflexivity. Qed.

Hypothesis repr_one_line : forall l, one_line (repr_chars l).

Lemma anomaly_lines_clean (a : anomaly) :
  record_survives ext a -> Forall one_line (anomaly_lines repr_chars a).
Proof.
  intros [Hn (_ & Ht & _)]. unfold anomaly_lines.
  destruct (str_of_Z_spec digit_value_ext _ Hn) as (_ & Hd & _).
  apply Forall_app. split.
  - apply Forall_cons; [split; reflexivity|].
    apply Forall_cons.
    { apply one_line_app; [split; reflexivity|].
      apply one_line_app; [apply digits_one_line; exact Hd|split; reflexivity]. }
    apply Forall_cons; [exact Ht|apply Forall_nil].
  - destruct (chars a); constructor; [|constructor].
    apply one_line_app; [split; reflexivity|apply repr_one_line].
Qed.

Lemma Forall_flat_map_lines {A} (ls : A -> list str) (l : list A) :
  (forall x, In x l -> Forall one_line (ls x)) ->
  Forall one_line (flat_map ls l).
Proof.
  intros H. induction l as [|x l IH]; cbn [flat_map]; [constructor|].
  apply Forall_app. split; [apply H; left; reflexivity|].
  apply IH. intros y Hy. apply H. right. exact Hy.
Qed.

Lemma rule_one_line (c : char) : c <> 10 -> c <> 13 -> one_line (repeat_str [c] 80).
Proof.
  intros H1 H2. split; apply not_true_is_false; intros Hm; apply mem_In in Hm;
    cbn [repeat_str app In] in Hm; intuition congruence.
Qed.

Lemma type_lines_clean (item : kind * list anomaly) :
  (forall a, In a (snd item) -> record_survives ext a) ->
  Forall one_line (type_lines repr_chars item).
Proof.
  intros Ha. unfold type_lines. apply Forall_app. split.
  - destruct (str_of_nat_digits digit_value_ext (length (snd item))) as [_ Hd].
    apply Forall_cons; [split; reflexivity|].
    apply Forall_cons.
    { apply one_line_app; [split; reflexivity|].
      apply one_line_app; [apply kind_name_one_line|].
      apply one_line_app; [split; reflexivity|].
      apply one_line_app; [apply digits_one_line; exact Hd|split; reflexivity]. }
    apply Forall_cons; [apply rule_one_line; discriminate|apply Forall_nil].
  - apply Forall_flat_map_lines. intros a Hin.
    apply anomaly_lines_clean, Ha, Hin.
Qed.

Lemma section_lines_clean (f : str) (anomalies : list anomaly) :
  name_survives ext f ->
  (forall a, In a anomalies -> record_survives ext a) ->
  Forall one_line (section_lines repr_chars (f, anomalies)).
Proof.
  intros (_ & _ & Hf & _) Ha. unfold section_lines. cbn [fst snd].
  apply Forall_app. split.
  - destruct (str_of_nat_digits digit_value_ext (length anomalies)) as [_ Hd].
    apply Forall_cons; [split; reflexivity|].
    apply Forall_cons; [apply rule_one_line; discriminate|].
    apply Forall_cons; [apply one_line_app; [split; reflexivity|exact Hf]|].
    apply Forall_cons.
    { apply one_line_app; [split; reflexivity|apply digits_one_line; exact Hd]. }
    apply Forall_cons; [apply rule_one_line; discriminate|].
    apply Forall_cons; [split; reflexivity|apply Forall_nil].
  - apply Forall_flat_map_lines. intros [k g] Hin. apply type_lines_clean.
    cbn [snd]. intros a Hg. apply Ha. eapply written_group_member; eauto.
Qed.

Lemma report_lines_clean (fwa : list (str * list anomaly)) :
  (forall f anomalies, In (f, anomalies) fwa ->
     name_survives ext f /\ forall a, In a anomalies -> record_survives ext a) ->
  Forall one_line (report_lines repr_chars fwa).
Proof.
  intros Hok. unfold report_lines. apply Forall_app. split.
  - apply Forall_cons; [split; reflexivity|].
    apply Forall_cons; [apply rule_one_line; discriminate|].
    apply Forall_cons; [split; reflexivity|apply Forall_nil].
  - apply Forall_flat_map_lines. intros [f anomalies] Hin.
    destruct (Hok f anomalies Hin). apply section_lines_clean; assumption.
Qed.

Lemma report_parsed (fwa : list (str * list anomaly)) :
  NoDup (map fst fwa) ->
  (forall f anomalies, In (f, anomalies) fwa ->
     name_survives ext f /\ forall a, In a anomalies -> record_survives ext a) ->
  Report.parse_anomalies_report ext digit_value_ext
    (Some (Report.report_text repr_chars fwa))
  = Report.Parsed (map (fun e => (fst e, hits_of (snd e))) fwa).
Proof.
  intros Hnd Hok. unfold Report.parse_anomalies_report.
  rewrite report_text_lines, file_lines_of_lines by (apply report_lines_clean; exact Hok).
  unfold report_lines. rewrite map_app, parse_lines_app.
  cbn [map Report.parse_lines].
  literal "ОТЧЕТ ОБ АНОМАЛИЯХ В ТЕКСТОВЫХ ФАЙЛАХ"%string.
  rewrite parse_line_other_head; [|reflexivity|discriminate..].
  rewrite parse_rule; [|reflexivity|discriminate..].
  rewrite parse_line_empty.
  destruct (parse_sections fwa
              {| Report.data := []; Report.current_file := None;
                 Report.current_type := None |}) as [st' [H1 H2]].
  { cbn [Report.data map app]. exact Hnd. }
  { exact Hok. }
  rewrite H1, H2. reflexivity.
Qed.

End ParseRun.

(** X19. The detailed report written by main is read back by
    parse_anomalies_report as it was written: when the file names are
    distinct, no name and no reported line is changed by [strip] or holds a
    line ending, a name does not contain the marker [Файл:], no reported
    line begins with one of the markers [Файл:], [Тип:] and [Строка ], and
    the line numbers are not negative, the parser returns, for every file of
    the report in order, the line numbers of its records kind by kind, and
    raises no KeyError. *)
Theorem report_is_read_back_as_written
    (ext : tables) (digit_value_ext : char -> N)
    (repr_chars : list detail -> str) (fwa : list (str * list anomaly)) :
  (forall l, one_line (repr_chars l)) ->
  NoDup (map fst fwa) ->
  (forall f anomalies, In (f, anomalies) fwa ->
     name_survives ext f /\ forall a, In a anomalies -> record_survives ext a) ->
  Report.parse_anomalies_report ext digit_value_ext
    (Some (Report.report_text repr_chars fwa))
  = Report.Parsed (map (fun e => (fst e, hits_of (snd e))) fwa).
Proof. intros Hr. apply report_parsed. exact Hr. Qed.

(** X20. Grouping the records of a file by kind for the report loses and
    repeats nothing: for every kind, the groups of that kind written for
    the file hold exactly the records of that kind, in their order. *)
Theorem groups_hold_every_record_once (k : kind) (anomalies : list anomaly) :
  group_records k (Report.sorted_items (Report.by_type_of anomalies))
  = filter (fun a => kind_eqb (a_type a) k) anomalies.
Proof. apply written_groups. Qed.

(** X21. From the run to the summary: under the conditions of X19, a file of
    the run with at least one token_like record is named in section 1 of
    the summary built from the parsed report, with the number of its
    token_like records. *)
Theorem summary_names_token_files_of_the_run
    (ext : tables) (digit_value_ext : char -> N)
    (repr_chars : list detail -> str) (fwa : list (str * list anomaly))
    (d : CreateSummary.report_data) (f : str) (anomalies : list anomaly) :
  (forall l, one_line (repr_chars l)) ->
  NoDup (map fst fwa) ->
  (forall f anomalies, In (f, anomalies) fwa ->
     name_survives ext f /\ forall a, In a anomalies -> record_survives ext a) ->
  Report.parse_anomalies_report ext digit_value_ext
    (Some (Report.report_text repr_chars fwa)) = Report.Parsed d ->
  In (f, anomalies) fwa ->
  has_kind token_like anomalies = true ->
  In (CreateSummary.bullet "токенов"
        (f, length (filter (fun a => kind_eqb (a_type a) token_like) anomalies)))
     (CreateSummary.summary_lines d).
Proof.
  intros Hr Hnd Hok Hp Hin Hk.
  rewrite (report_parsed ext digit_value_ext repr_chars Hr fwa Hnd Hok) in Hp.
  injection Hp as <-.
  pose proof (MoreSummaryFacts.files_with_any_In CreateSummary.token_like
                (map (fun e => (fst e, hits_of (snd e))) fwa) f
                (length (filter (fun a => kind_eqb (a_type a) token_like) anomalies)))
    as Hany.
  unfold CreateSummary.summary_lines.
  do 2 (apply in_or_app; right). apply in_or_app; left.
  apply MoreSummaryFacts.full_section_lists.
  unfold CreateSummary.files_with_tokens.
  apply SummaryFacts.sort_by_count_In, Hany.
  exists (hits_of anomalies). split.
  - apply in_map_iff. exists (f, anomalies). auto.
  - cbn [hits_of CreateSummary.token_like]. unfold line_numbers_of.
    rewrite length_map. split; [reflexivity|].
    unfold has_kind in Hk. apply existsb_exists in Hk as [a [Ha Hka]].
    intros E. apply map_eq_nil in E.
    assert (Hf : In a (filter (fun a => kind_eqb (a_type a) token_like) anomalies))
      by (apply filter_In; auto).
    rewrite E in Hf. destruct Hf.
Qed.

(** ** Worked instance: a report of two files *)

Definition sample_repr (l : list detail) : str := u8 "[...]".

Definition sample_entries : list (str * list anomaly) :=
  [ (u8 "a.txt",
     [ {| a_type := unusual_symbols; line_num := 2;
          chars := Some [Triple 7 64 (u8 "0x40")];
          line_text := u8 "привет @#$ мир" |};
       {| a_type := multiple_unusual_chars; line_num := 2; chars := None;
          line_text := u8 "привет @#$ мир" |};
       {| a_type := unusual_symbols; line_num := 14;
          chars := Some [Triple 0 35 (u8 "0x23")];
          line_text := u8 "# конец" |} ]);
    (u8 "b.txt",
     [ {| a_type := token_like; line_num := 120; chars := None;
          line_text := repeat_str (u8 "ab1/") 11 |} ]) ].

Ltac survives :=
  repeat match goal with
         | |- _ /\ _ => split
         | |- (_ <= _)%Z => lia
         | |- _ <> _ => discriminate
         | |- _ = _ => vm_compute; reflexivity
         end.

Lemma sample_entries_survive (f : str) (anomalies : list anomaly) :
  In (f, anomalies) sample_entries ->
  name_survives reference f
  /\ forall a, In a anomalies -> record_survives reference a.
Proof.
  intros Hin. unfold sample_entries in Hin. cbn [In] in Hin.
  destruct Hin as [E|[E|[]]]; injection E as <- <-.
  - split; [unfold name_survives, one_line; survives|].
    intros a Ha. cbn [In] in Ha.
    destruct Ha as [<-|[<-|[<-|[]]]];
      unfold record_survives, text_survives, one_line; cbn [line_num line_text];
      survives.
  - split; [unfold name_survives, one_line; survives|].
    intros a Ha. cbn [In] in Ha.
    destruct Ha as [<-|[]];
      unfold record_survives, text_survives, one_line; cbn [line_num line_text];
      survives.
Qed.

Lemma sample_names_distinct : NoDup (map fst sample_entries).
Proof.
  cbn [map fst sample_entries].
  constructor; [intros [H|[]]; vm_compute in H; discriminate H|].
  constructor; [intros []|constructor].
Qed.

Lemma report_read_back_witness :
  Report.parse_anomalies_report reference (fun _ => 0)
    (Some (Report.report_text sample_repr sample_entries))
  = Report.Parsed (map (fun e => (fst e, hits_of (snd e))) sample_entries).
Proof.
  apply report_is_read_back_as_written.
  - intros l. split; reflexivity.
  - exact sample_names_distinct.
  - exact sample_entries_survive.
Defined.

Lemma summary_names_token_files_witness :
  In (CreateSummary.bullet "токенов" (u8 "b.txt", 1%nat))
     (CreateSummary.summary_lines
        (map (fun e => (fst e, hits_of (snd e))) sample_entries)).
Proof.
  apply (summary_names_token_files_of_the_run reference (fun _ => 0)
           sample_repr sample_entries _ (u8 "b.txt")
           [ {| a_type := token_like; line_num := 120; chars := None;
                line_text := repeat_str (u8 "ab1/") 11 |} ]).
  - intros l. split; reflexivity.
  - exact sample_names_distinct.
  - exact sample_entries_survive.
  - vm_compute. reflexivity.
  - right. left. reflexivity.
  - reflexivity.
Defined.

(* ================================================================== *)
(** * scripts/create_gephi_graph.py: the names of the files *)
(* ================================================================== *)

Module GephiGraph.

(** [s.split(sep, maxsplit)] for a one-character separator; [cur] is the
    part being read, reversed. *)
Fixpoint split_from (sep : char) (maxsplit : nat) (cur : str) (s : str) : list str :=
  match s with
  | [] => [rev cur]
  | c :: s' =>
      match maxsplit with
      | O => [rev cur ++ s]
      | S m =>
          if c =? sep then rev cur :: split_from sep m [] s'
          else split_from sep maxsplit (c :: cur) s'
      end
  end.

Definition split (sep : char) (maxsplit : nat) (s : str) : list str :=
  split_from sep maxsplit [] s.

(** The dict returned by [parse_filename]. *)
Record work := {
  year : str;
  author : str;
  title : str;
  filename : str
}.

Definition parse_filename (filename : str) : option work :=
  let name := Report.replace (u8 ".txt") [] filename in
  let parts := split 95 2 name in
  if Nat.ltb (length parts) 3 then None
  else Some {| year := nth 0 parts [];
               author := nth 1 parts [];
               title := nth 2 parts [];
               filename := filename |}.

End GephiGraph.

(** [sep.join(parts)] *)
Fixpoint join (sep : char) (parts : list str) : str :=
  match parts with
  | [] => []
  | p :: rest =>
      match rest with
      | [] => p
      | _ => p ++ sep :: join sep rest
      end
  end.

(** The number of occurrences of a character. *)
Definition count_char (c : char) (s : str) : nat :=
  length (filter (N.eqb c) s).

Section SplitFacts.
Import GephiGraph.

Lemma split_from_nonempty (sep : char) (m : nat) (cur s : str) :
  split_from sep m cur s <> [].
Proof.
  revert m cur. induction s as [|c s IH]; intros m cur; cbn [split_from];
    [discriminate|].
  destruct m; [discriminate|]. destruct (c =? sep); [discriminate|apply IH].
Qed.

Lemma join_cons (sep : char) (p : str) (rest : list str) :
  rest <> [] -> join sep (p :: rest) = p ++ sep :: join sep rest.
Proof. destruct rest; [congruence|reflexivity]. Qed.

Lemma split_from_join (sep : char) (s : str) : forall (m : nat) (cur : str),
  join sep (split_from sep m cur s) = rev cur ++ s.
Proof.
  induction s as [|c s IH]; intros m cur; cbn [split_from].
  - cbn [join]. rewrite app_nil_r. reflexivity.
  - destruct m as [|m]; [reflexivity|].
    destruct (c =? sep) eqn:E.
    + apply N.eqb_eq in E. subst c.
      rewrite join_cons by apply split_from_nonempty.
      rewrite IH. reflexivity.
    + rewrite IH. cbn [rev]. rewrite <- app_assoc. reflexivity.
Qed.

Lemma split_from_length (sep : char) (s : str) : forall (m : nat) (cur : str),
  length (split_from sep m cur s) = S (Nat.min m (count_char sep s)).
Proof.
  unfold count_char.
  induction s as [|c s IH]; intros m cur; cbn [split_from filter].
  - rewrite Nat.min_0_r. reflexivity.
  - destruct m as [|m]; [reflexivity|].
    rewrite (N.eqb_sym sep c).
    destruct (c =? sep); cbn [length]; rewrite IH; reflexivity.
Qed.

Lemma mem_rev (c : char) (s : str) : mem c (rev s) = mem c s.
Proof.
  destruct (mem c s) eqn:E.
  - apply mem_In. apply mem_In in E. apply in_rev. rewrite rev_involutive. exact E.
  - apply not_true_is_false. intros H. apply mem_In, in_rev in H.
    apply mem_In in H. congruence.
Qed.

Lemma split_from_parts (sep : char) (s : str) : forall (m : nat) (cur : str) (p : str),
  mem sep cur = false ->
  In p (removelast (split_from sep m cur s)) -> mem sep p = false.
Proof.
  induction s as [|c s IH]; intros m cur p Hcur; cbn [split_from].
  - intros [].
  - destruct m as [|m]; [intros []|].
    destruct (c =? sep) eqn:E.
    + pose proof (split_from_nonempty sep m [] s) as Hne.
      cbn [removelast]. destruct (split_from sep m [] s) eqn:Es; [congruence|].
      rewrite <- Es. intros [<-|Hin].
      * rewrite mem_rev. exact Hcur.
      * apply (IH m [] p); [reflexivity|exact Hin].
    + apply IH. cbn [mem existsb]. unfold mem in Hcur. rewrite Hcur.
      rewrite N.eqb_sym, E. reflexivity.
Qed.

(** X22. When parse_filename accepts a file name, the name without its
    [.txt] is the year, the author and the title joined by underscores,
    neither the year nor the author holds an underscore, and the file name
    is kept as given. *)
Theorem parse_filename_parts (f : str) (w : work) :
  parse_filename f = Some w ->
  Report.replace (u8 ".txt") [] f
  = year w ++ [95] ++ author w ++ [95] ++ title w
  /\ mem 95 (year w) = false /\ mem 95 (author w) = false
  /\ filename w = f.
Proof.
  unfold parse_filename, split.
  pose proof (split_from_join 95 (Report.replace (u8 ".txt") [] f) 2 []) as Hj.
  pose proof (split_from_length 95 (Report.replace (u8 ".txt") [] f) 2 []) as Hl.
  pose proof (split_from_parts 95 (Report.replace (u8 ".txt") [] f) 2 []) as Hp.
  destruct (split_from 95 2 [] (Report.replace (u8 ".txt") [] f))
    as [|y [|a [|t [|x rest]]]]; cbn [length Nat.ltb Nat.leb];
    try discriminate.
  - intros E. injection E as <-. cbn [year author title filename nth].
    cbn [join rev app] in Hj. split; [symmetry; exact Hj|].
    split; [apply Hp; [reflexivity|left; reflexivity]|].
    split; [apply Hp; [reflexivity|right; left; reflexivity]|reflexivity].
  - cbn [length] in Hl. lia.
Qed.

(** X23. parse_filename rejects a file name exactly when the name without
    its [.txt] has fewer than two underscores. *)
Theorem parse_filename_rejects (f : str) :
  parse_filename f = None <->
  (count_char 95%N (Report.replace (u8 ".txt") [] f) < 2)%nat.
Proof.
  unfold parse_filename, split.
  rewrite split_from_length.
  destruct (Nat.ltb _ 3) eqn:E.
  - apply Nat.ltb_lt in E. split; [lia|reflexivity].
  - apply Nat.ltb_ge in E. split; [discriminate|lia].
Qed.

Lemma split_from_part (sep : char) (y : str) : forall (m : nat) (cur rest : str),
  mem sep y = false ->
  split_from sep (S m) cur (y ++ sep :: rest)
  = (rev cur ++ y) :: split_from sep m [] rest.
Proof.
  induction y as [|c y IH]; intros m cur rest Hy.
  - cbn [app split_from]. rewrite N.eqb_refl, app_nil_r. reflexivity.
  - cbn [mem existsb] in Hy. apply orb_false_iff in Hy as [Hc Hy].
    cbn [app split_from]. rewrite N.eqb_sym, Hc.
    rewrite IH by exact Hy. cbn [rev]. rewrite <- app_assoc. reflexivity.
Qed.

Lemma split_from_rest (sep : char) (t : str) : split_from sep 0 [] t = [t].
Proof. destruct t; reflexivity. Qed.

Lemma txt_not_at (c : char) (n : str) :
  is_prefix (u8 ".txt") (c :: n) = false ->
  is_prefix (u8 ".txt") (c :: n ++ u8 ".txt") = false.
Proof.
  literal ".txt"%string.
  destruct n as [|a [|b [|d n']]]; cbn [app is_prefix]; intros H;
    try exact H;
    repeat match goal with
           | |- context [?x =? ?y] =>
               let v := eval vm_compute in (x =? y) in
               match v with
               | false => change (x =? y) with false
               end
           end;
    rewrite ?andb_false_r; reflexivity.
Qed.

(** Removing [.txt] from a name that ends with it and holds it nowhere else
    gives the name without its ending. *)
Lemma replace_txt_suffix (name : str) :
  occurs_in (u8 ".txt") name = false ->
  Report.replace (u8 ".txt") [] (name ++ u8 ".txt") = name.
Proof.
  unfold Report.replace. induction name as [|c n IH]; intros H.
  - vm_compute. reflexivity.
  - cbn [occurs_in] in H. apply orb_false_iff in H as [H1 H2].
    cbn [app Report.replace_from].
    rewrite (txt_not_at c n H1), IH by exact H2. reflexivity.
Qed.

(** X24. A file name made of a year and an author without underscore and of
    a title, joined by underscores and followed by [.txt], with no other
    [.txt] in it, is parsed into that year, author and title. *)
Theorem parse_filename_of_parts (y a t : str) :
  mem 95 y = false -> mem 95 a = false ->
  occurs_in (u8 ".txt") (y ++ [95] ++ a ++ [95] ++ t) = false ->
  parse_filename ((y ++ [95] ++ a ++ [95] ++ t) ++ u8 ".txt")
  = Some {| year := y; author := a; title := t;
            filename := (y ++ [95] ++ a ++ [95] ++ t) ++ u8 ".txt" |}.
Proof.
  intros Hy Ha Hocc. unfold parse_filename, split.
  rewrite (replace_txt_suffix _ Hocc). cbn [app].
  rewrite (split_from_part 95 y 1 [] _ Hy).
  rewrite (split_from_part 95 a 0 [] _ Ha).
  rewrite split_from_rest. reflexivity.
Qed.

End SplitFacts.

Lemma parse_filename_parts_witness :
  let w := {| GephiGraph.year := u8 "1957"; GephiGraph.author := u8 "Ефремов";
              GephiGraph.title := u8 "Туманность_Андромеды";
              GephiGraph.filename := u8 "1957_Ефремов_Туманность_Андромеды.txt" |} in
  Report.replace (u8 ".txt") [] (u8 "1957_Ефремов_Туманность_Андромеды.txt")
  = GephiGraph.year w ++ [95] ++ GephiGraph.author w ++ [95] ++ GephiGraph.title w
  /\ mem 95 (GephiGraph.year w) = false /\ mem 95 (GephiGraph.author w) = false
  /\ GephiGraph.filename w = u8 "1957_Ефремов_Туманность_Андромеды.txt".
Proof.
  intros w. apply (parse_filename_parts (u8 "1957_Ефремов_Туманность_Андромеды.txt") w).
  vm_compute. reflexivity.
Defined.

Lemma parse_filename_of_parts_witness :
  GephiGraph.parse_filename
    ((u8 "1957" ++ [95] ++ u8 "Ефремов" ++ [95] ++ u8 "Туманность_Андромеды")
       ++ u8 ".txt")
  = Some {| GephiGraph.year := u8 "1957"; GephiGraph.author := u8 "Ефремов";
            GephiGraph.title := u8 "Туманность_Андромеды";
            GephiGraph.filename :=
              (u8 "1957" ++ [95] ++ u8 "Ефремов" ++ [95]
                 ++ u8 "Туманность_Андромеды") ++ u8 ".txt" |}.
Proof.
  apply parse_filename_of_parts; vm_compute; reflexivity.
Defined.

(* ================================================================== *)
(** * Rules of is_normal_latin_usage that never decide *)
(* ================================================================== *)

(** The third rule of [is_normal_latin_usage]: the pattern finds a word, and
    every word it finds is an abbreviation of the list or has at most 3
    letters. *)
Definition word_rule (ext : tables) (line : str) : bool :=
  let words := re_findall (overlay ext) latin_word_re line in
  negb (is_empty words)
  && forallb (fun w => str_mem (str_upper (overlay ext) w) common_abbrevs
                       || Nat.leb (length w) 3) words.

Section LatinRuleFacts.
Variable ext : tables.
Local Abbreviation U := (overlay ext).

Lemma lstrip_In (c : char) (s : str) :
  In c s -> isspace U c = true \/ In c (lstrip U s).
Proof.
  induction s as [|x s IH]; [intros []|].
  cbn [lstrip]. destruct (isspace U x) eqn:E.
  - intros [<-|H]; [left; exact E|apply IH, H].
  - intros H. right. exact H.
Qed.

(** [strip] removes whitespace only. *)
Lemma strip_In (c : char) (s : str) :
  In c s -> isspace U c = true \/ In c (strip U s).
Proof.
  intros H. destruct (lstrip_In c s H) as [Hs|Hl]; [left; exact Hs|].
  unfold strip, rstrip. rewrite in_rev in Hl.
  destruct (lstrip_In c _ Hl) as [Hs|Hr]; [left; exact Hs|].
  right. rewrite <- in_rev. exact Hr.
Qed.

Lemma run_length_prefix_capped ic cs hi s j :
  (j <= run_length U ic cs hi s)%nat ->
  forallb (in_cset U ic cs) (firstn j s) = true.
Proof.
  revert hi j. induction s as [|c s IH]; intros hi j.
  - intros _. destruct j; reflexivity.
  - destruct hi as [[|h]|]; cbn [run_length option_map].
    + intros H. replace j with 0%nat by lia. reflexivity.
    + destruct (in_cset U ic cs c) eqn:Hc.
      * destruct j; [reflexivity|]. cbn [firstn forallb]. intros H.
        rewrite Hc. apply (IH (Some (pred (S h)))). lia.
      * intros H. replace j with 0%nat by lia. reflexivity.
    + destruct (in_cset U ic cs c) eqn:Hc.
      * destruct j; [reflexivity|]. cbn [firstn forallb]. intros H.
        rewrite Hc. apply (IH None). lia.
      * intros H. replace j with 0%nat by lia. reflexivity.
Qed.

(** What a string matched by ^\([a-zA-Z]{1,4}\)$ is made of. *)
Lemma parenthesized_chars (s : str) (c : char) :
  re_match U parenthesized_re s = true -> In c s ->
  c = 40 \/ c = 41 \/ c = 10
  \/ in_cset U false (cls [IRange 97 122; IRange 65 90]) c = true.
Proof.
  unfold re_match, parenthesized_re, lit. cbn [ignorecase nodes match_here].
  destruct s as [|c0 s']; [discriminate|].
  destruct (in_cset U false {| negated := false; items := [IChar 40] |} c0) eqn:E0;
    [|discriminate].
  destruct (try_counts _ _ _ _ _) as [r|] eqn:Ht; [|discriminate].
  intros _ Hin.
  apply try_counts_some in Ht as [j [Hj Hc]].
  destruct Hin as [<-|Hin].
  { left. unfold in_cset in E0. cbn [negated items existsb in_item xorb] in E0.
    rewrite orb_false_r in E0. apply N.eqb_eq in E0. symmetry. exact E0. }
  rewrite <- (firstn_skipn j s') in Hin. apply in_app_or in Hin as [Hin|Hin].
  - right. right. right.
    pose proof (run_length_prefix_capped false _ (Some 4%nat) s' j (proj2 Hj)) as Hp.
    rewrite forallb_forall in Hp. apply Hp, Hin.
  - cbn [match_here] in Hc.
    destruct (skipn j s') as [|c1 t]; [congruence|].
    destruct (in_cset U false {| negated := false; items := [IChar 41] |} c1) eqn:E1;
      [|congruence].
    destruct (at_eol t) eqn:Et; [|congruence].
    destruct Hin as [<-|Hin].
    + right. left. unfold in_cset in E1.
      cbn [negated items existsb in_item xorb] in E1.
      rewrite orb_false_r in E1. apply N.eqb_eq in E1. symmetry. exact E1.
    + right. right. left. eapply at_eol_inv; eauto.
Qed.

(** No character of RUSSIAN_CHARS is whitespace or can stand in a
    parenthesised Latin word. *)
Lemma russian_char_facts (c : char) :
  mem c RUSSIAN_CHARS = true ->
  isspace U c = false /\ c <> 40 /\ c <> 41 /\ c <> 10
  /\ in_cset U false (cls [IRange 97 122; IRange 65 90]) c = false.
Proof.
  intros H. apply mem_In in H.
  assert (Hall : forallb (fun x => negb (isspace U x) && negb (x =? 40)
                                   && negb (x =? 41) && negb (x =? 10)
                                   && negb (in_cset U false
                                              (cls [IRange 97 122; IRange 65 90]) x))
                         RUSSIAN_CHARS = true)
    by (vm_compute; reflexivity).
  rewrite forallb_forall in Hall. apply Hall in H.
  rewrite !andb_true_iff, !negb_true_iff, !N.eqb_neq in H.
  tauto.
Qed.

Lemma classified_not_numeral (line : str) :
  is_classified ext line = true ->
  re_match U roman_numeral_re (strip U line) = false.
Proof.
  unfold is_classified. intros Hc.
  apply negb_true_iff, orb_false_iff in Hc as [He Ht].
  unfold is_likely_chapter_title in Ht. rewrite He in Ht.
  destruct (existsb (fun pattern => re_match U pattern (strip U line))
                    CHAPTER_PATTERNS) eqn:Ex; [discriminate|].
  unfold CHAPTER_PATTERNS in Ex. cbn [map existsb] in Ex.
  apply orb_false_iff in Ex as [Ex _]. exact Ex.
Qed.

Lemma russian_line_not_parenthesized (line : str) :
  has_russian line = true ->
  re_match U parenthesized_re (strip U line) = false.
Proof.
  intros Hr. apply not_true_is_false. intros Hm.
  unfold has_russian in Hr. apply existsb_exists in Hr as [c [Hin Hmem]].
  destruct (russian_char_facts c Hmem) as (Hs & H40 & H41 & H10 & Hcls).
  destruct (strip_In c line Hin) as [Hsp|Hst]; [congruence|].
  destruct (parenthesized_chars _ c Hm Hst) as [H|[H|[H|H]]]; congruence.
Qed.

(** X26. Where find_anomalies_in_line asks is_normal_latin_usage, that is
    on a line that is neither blank nor a heading and holds a character of
    RUSSIAN_CHARS, neither the Roman-numeral rule nor the rule of the word
    in parentheses can hold: the answer is the one of the third rule, on the
    words of the line. *)
Theorem numeral_and_bracket_rules_never_decide (line : str) :
  is_classified ext line = true -> has_russian line = true ->
  is_normal_latin_usage ext line = word_rule ext line.
Proof.
  intros Hc Hr. unfold is_normal_latin_usage, word_rule.
  rewrite (classified_not_numeral line Hc), (russian_line_not_parenthesized line Hr).
  destruct (negb (is_empty (re_findall U latin_word_re line))
            && forallb (fun w => str_mem (str_upper U w) common_abbrevs
                                 || Nat.leb (length w) 3)
                       (re_findall U latin_word_re line)); reflexivity.
Qed.

End LatinRuleFacts.

(* ================================================================== *)
(** * create_summary on a report without file sections *)
(* ================================================================== *)

(** What a call of [create_summary()] does. *)
Inductive summary_outcome :=
| Raises                               (* KeyError in parse_anomalies_report *)
| NotFoundMessage                      (* [not data]: the message, no file *)
| Written (summary : list str).        (* summary_report.txt *)

(** [create_summary()], given the text of anomalies_report.txt when the
    file exists. *)
Definition run_create_summary (ext : tables) (digit_value_ext : char -> N)
    (report_file : option str) : summary_outcome :=
  match Report.parse_anomalies_report ext digit_value_ext report_file with
  | Report.KeyError => Raises
  | Report.NoReport =>
      match CreateSummary.create_summary None with
      | Some summary => Written summary
      | None => NotFoundMessage
      end
  | Report.Parsed d =>
      match CreateSummary.create_summary (Some d) with
      | Some summary => Written summary
      | None => NotFoundMessage
      end
  end.

Section EmptyReport.
Variable ext : tables.
Local Abbreviation U := (overlay ext).
Variable digit_value_ext : char -> N.

Lemma parse_line_without_file (st : Report.parser_state) (raw : str) :
  Report.data st = [] -> Report.current_file st = None ->
  is_prefix (u8 "Файл:") (strip U raw) = false ->
  exists st', Report.parse_line ext digit_value_ext st raw = Some st'
              /\ Report.data st' = [] /\ Report.current_file st' = None.
Proof.
  intros Hd Hf Hraw. unfold Report.parse_line. rewrite Hraw.
  destruct (is_prefix (u8 "Тип:") (strip U raw)).
  { destruct (Report.type_line_group ext (strip U raw));
      eexists; (split; [reflexivity|]); cbn [Report.data Report.current_file];
      auto. }
  destruct (is_prefix (u8 "Строка ") (strip U raw)).
  { destruct (Report.line_number_group ext (strip U raw)).
    - rewrite Hf. cbn [Report.truthy andb]. exists st. auto.
    - exists st. auto. }
  exists st. auto.
Qed.

Lemma parse_lines_without_file (lines : list str) : forall st,
  Report.data st = [] -> Report.current_file st = None ->
  Forall (fun raw => is_prefix (u8 "Файл:") (strip U raw) = false) lines ->
  exists st', Report.parse_lines ext digit_value_ext st lines = Some st'
              /\ Report.data st' = [].
Proof.
  induction lines as [|raw rest IH]; intros st Hd Hf Hall.
  - exists st. split; [reflexivity|exact Hd].
  - apply Forall_cons_iff in Hall as [Hraw Hrest].
    cbn [Report.parse_lines].
    destruct (parse_line_without_file st raw Hd Hf Hraw) as [st1 [-> [Hd1 Hf1]]].
    apply IH; assumption.
Qed.

(** X25. A detailed report in which no line begins, once trimmed, with the
    marker [Файл:] is taken by create_summary for a missing report: the
    parser raises nothing and returns the empty dict, and create_summary
    prints its message and writes no summary. *)
Theorem report_without_file_line_counts_as_missing (text : str) :
  Forall (fun raw => is_prefix (u8 "Файл:") (strip U raw) = false)
         (Report.file_lines text) ->
  Report.parse_anomalies_report ext digit_value_ext (Some text) = Report.Parsed []
  /\ run_create_summary ext digit_value_ext (Some text) = NotFoundMessage.
Proof.
  intros Hall.
  assert (E : Report.parse_anomalies_report ext digit_value_ext (Some text)
              = Report.Parsed []).
  { unfold Report.parse_anomalies_report.
    destruct (parse_lines_without_file (Report.file_lines text)
                {| Report.data := []; Report.current_file := None;
                   Report.current_type := None |} eq_refl eq_refl Hall)
      as [st' [-> Hd]].
    rewrite Hd. reflexivity. }
  split; [exact E|]. unfold run_create_summary. rewrite E. reflexivity.
Qed.

End EmptyReport.

Lemma numeral_and_bracket_rules_witness :
  let line := u8 "см. (abcd) и стр. 5" ++ [10] in
  is_normal_latin_usage reference line = word_rule reference line.
Proof.
  intros line. apply (numeral_and_bracket_rules_never_decide reference line).
  - vm_compute. reflexivity.
  - vm_compute. reflexivity.
Defined.

(** The report of a run in which no file has an anomaly holds the two
    lines of its head only. *)
Lemma report_without_file_line_witness :
  Report.parse_anomalies_report reference (fun _ => 0)
    (Some (Report.report_text sample_repr [])) = Report.Parsed []
  /\ run_create_summary reference (fun _ => 0)
       (Some (Report.report_text sample_repr [])) = NotFoundMessage.
Proof.
  apply (report_without_file_line_counts_as_missing reference (fun _ => 0)
           (Report.report_text sample_repr [])).
  let l := eval vm_compute in (Report.file_lines (Report.report_text sample_repr []))
  in change (Report.file_lines (Report.report_text sample_repr [])) with l.
  repeat (apply Forall_cons; [vm_compute; reflexivity|]). apply Forall_nil.
Defined.
